(** * loliOS: trap dispatch, IRQ registry, keyboard decoder and terminal

    A shallow embedding of [student-distrib/terminal.c],
    [student-distrib/keyboard.c] and the two revisions of
    [student-distrib/idt.c], with the properties of the kernel's
    specification stated and settled against it.

    Conventions.
    - C integers are [Z]; every arithmetic operation on an [int32_t] or a
      [uint32_t] goes through [Int32] so that the wrap-around is explicit.
    - Memory reached through a pointer is a function from byte offsets
      (relative to that pointer) to byte values.  Offsets outside the object
      the pointer designates stand for whatever memory surrounds it.
    - Calls into parts of the kernel that are not in these files (the PIC,
      the signal and syscall subsystems, the debug console) are recorded as
      events of a trace. *)

From Stdlib Require Import ZArith List Lia Bool String.
Import ListNotations.
Local Open Scope Z_scope.

(* ================================================================== *)
(** ** Machine integers *)
(* ================================================================== *)

Module Int32.

Definition modulus : Z := 2 ^ 32.
Definition half : Z := 2 ^ 31.
Definition max_signed : Z := half - 1.
Definition min_signed : Z := - half.

(** Two's complement reduction into [[-2^31, 2^31)] ([int32_t]). *)
Definition wrap (x : Z) : Z := (x + half) mod modulus - half.

(** Reduction into [[0, 2^32)] ([uint32_t]). *)
Definition uwrap (x : Z) : Z := x mod modulus.

Definition add (x y : Z) : Z := wrap (x + y).
Definition sub (x y : Z) : Z := wrap (x - y).
Definition mul (x y : Z) : Z := wrap (x * y).
Definition shl (x n : Z) : Z := wrap (Z.shiftl x n).

Definition usub (x y : Z) : Z := uwrap (x - y).

Definition in_range (x : Z) : Prop := min_signed <= x <= max_signed.

End Int32.

(* ================================================================== *)
(** ** Byte-addressed memory and the block operations of [lib.h] *)
(* ================================================================== *)

Definition mem : Type := Z -> Z.

(** [p[a] = v] *)
Definition store (m : mem) (a v : Z) : mem :=
  fun o => if o =? a then v else m o.

Definition in_block (dst n o : Z) : bool := (dst <=? o) && (o <? dst + n).

(** [memmove(p + dst, p + src, n)]: the [n] bytes are copied as if through a
    temporary, so overlapping blocks are handled. *)
Definition memmove (m : mem) (dst src n : Z) : mem :=
  fun o => if in_block dst n o then m (src + (o - dst)) else m o.

(** [memset(p + dst, c, n)] *)
Definition memset (m : mem) (dst c n : Z) : mem :=
  fun o => if in_block dst n o then c mod 256 else m o.

(** The memory holding the bytes of [l] from offset 0 on, and 0 elsewhere. *)
Definition mem_of_list (l : list Z) : mem :=
  fun o => if o <? 0 then 0 else nth (Z.to_nat o) l 0.

(** [for (i = lo; i < lo + n; ++i) body(i)] *)
Fixpoint for_loop {S : Type} (n : nat) (i : Z) (body : Z -> S -> S) (s : S) : S :=
  match n with
  | O => s
  | Datatypes.S n' => for_loop n' (i + 1) body (body i s)
  end.

(* ================================================================== *)
(** ** keyboard.h: the input events handed to the terminal *)
(* ================================================================== *)

(** The header is not part of the sources; the enumerators below are the
    ones [keyboard.c] and [terminal.c] name. *)
Inductive kbd_input_ctrl_t : Type :=
| KCTL_NONE
| KCTL_CLEAR
| KCTL_TERM1
| KCTL_TERM2
| KCTL_TERM3.

(** [kbd_input_t] is a tag ([KTYP_NONE], [KTYP_CHAR], [KTYP_CTRL]) and a
    union of a character and a control sequence. *)
Inductive kbd_input_t : Type :=
| KTYP_NONE
| KTYP_CHAR (character : Z)
| KTYP_CTRL (control : kbd_input_ctrl_t).

(* ================================================================== *)
(** ** terminal.c *)
(* ================================================================== *)

Module Terminal.

Definition NUM_COLS : Z := 80.
Definition NUM_ROWS : Z := 25.
Definition ATTRIB : Z := 7.

Definition NEWLINE : Z := 10.   (* '\n' *)
Definition CARRIAGE : Z := 13.  (* '\r' *)
Definition BACKSPACE : Z := 8.  (* '\b' *)
Definition SPACE : Z := 32.     (* ' '  *)

Record cursor_pos_t : Type := mk_cursor {
  logical_x : Z;
  screen_x : Z;
  screen_y : Z
}.

(** [buf] is addressed relative to [&input.buf[0]]; offsets in
    [[0, TERMINAL_BUF_SIZE)] are the array. *)
Record input_buf_t : Type := mk_input {
  buf : mem;
  count : Z
}.

(** The fields are the ones [terminal.c] initialises and uses (the
    [terminal.h] among the sources belongs to a later revision of the
    struct).  [video_mem] is addressed relative to the [video_mem]
    pointer. *)
Record terminal_state_t : Type := mk_term {
  input : input_buf_t;
  cursor : cursor_pos_t;
  video_mem : mem
}.

(** The file-scope variables: [terminal_states[0]] (the only slot the file
    ever hands out, see [get_executing_terminal]) and [display_terminal]. *)
Record globals : Type := mk_globals {
  executing_terminal : terminal_state_t;
  display_terminal : Z
}.

Definition set_cursor (term : terminal_state_t) (c : cursor_pos_t) :=
  mk_term (input term) c (video_mem term).
Definition set_video (term : terminal_state_t) (v : mem) :=
  mk_term (input term) (cursor term) v.
Definition set_input (term : terminal_state_t) (i : input_buf_t) :=
  mk_term i (cursor term) (video_mem term).

Definition terminal_scroll_down (term : terminal_state_t) : terminal_state_t :=
  let bytes_per_row := Int32.shl NUM_COLS 1 in
  let shift_count :=
    Int32.sub (Int32.shl (Int32.mul NUM_COLS NUM_ROWS) 1) bytes_per_row in
  let v1 := memmove (video_mem term) 0 bytes_per_row shift_count in
  let v2 := memset v1 shift_count 0 bytes_per_row in
  set_video term v2.

(** [((y * NUM_COLS + x) << 1)] *)
Definition cell_offset (x y : Z) : Z :=
  Int32.shl (Int32.add (Int32.mul y NUM_COLS) x) 1.

Definition terminal_write_char (term : terminal_state_t) (c : Z)
  : terminal_state_t :=
  let x := screen_x (cursor term) in
  let y := screen_y (cursor term) in
  let v1 := store (video_mem term) (Int32.add (cell_offset x y) 0) c in
  let v2 := store v1 (Int32.add (cell_offset x y) 1) ATTRIB in
  set_video term v2.

(** The tail shared by the newline and the plain-character branches:
    scroll when the cursor has left the bottom row. *)
Definition scroll_if_needed (term : terminal_state_t) : terminal_state_t :=
  if screen_y (cursor term) >=? NUM_ROWS then
    let term := terminal_scroll_down term in
    let c := cursor term in
    set_cursor term
      (mk_cursor (logical_x c) (screen_x c) (Int32.sub (screen_y c) 1))
  else term.

Definition terminal_putc (c : Z) (term : terminal_state_t) : terminal_state_t :=
  let cur := cursor term in
  if (c =? NEWLINE) || (c =? CARRIAGE) then
    let term := set_cursor term (mk_cursor 0 0 (Int32.add (screen_y cur) 1)) in
    scroll_if_needed term
  else if c =? BACKSPACE then
    if logical_x cur >? 0 then
      let lx := Int32.sub (logical_x cur) 1 in
      let sx := Int32.sub (screen_x cur) 1 in
      let cur' :=
        if sx <? 0
        then mk_cursor lx (Int32.add sx NUM_COLS) (Int32.sub (screen_y cur) 1)
        else mk_cursor lx sx (screen_y cur) in
      terminal_write_char (set_cursor term cur') SPACE
    else term
  else
    let term := terminal_write_char term c in
    let lx := Int32.add (logical_x cur) 1 in
    let sx := Int32.add (screen_x cur) 1 in
    let cur' :=
      if sx >=? NUM_COLS
      then mk_cursor lx (Int32.sub sx NUM_COLS) (Int32.add (screen_y cur) 1)
      else mk_cursor lx sx (screen_y cur) in
    scroll_if_needed (set_cursor term cur').

Definition clear_cell (i : Z) (v : mem) : mem :=
  store (store v (Int32.add (Int32.shl i 1) 0) SPACE)
        (Int32.add (Int32.shl i 1) 1) ATTRIB.

Definition terminal_clear (term : terminal_state_t) : terminal_state_t :=
  let v := for_loop (Z.to_nat (Int32.mul NUM_ROWS NUM_COLS)) 0 clear_cell
                    (video_mem term) in
  mk_term (input term) (mk_cursor 0 0 0) v.

(** [terminal_write]: the bytes of [src] are printed in order; the return
    value is the byte count. *)
Definition terminal_write (src : list Z) (term : terminal_state_t)
  : Z * terminal_state_t :=
  (Z.of_nat (List.length src), fold_left (fun t c => terminal_putc c t) src term).

Definition set_display_terminal (index : Z) (g : globals) : globals :=
  mk_globals (executing_terminal g) index.

Definition on_executing (f : terminal_state_t -> terminal_state_t)
           (g : globals) : globals :=
  mk_globals (f (executing_terminal g)) (display_terminal g).

Definition handle_ctrl_input (ctrl : kbd_input_ctrl_t) (g : globals) : globals :=
  match ctrl with
  | KCTL_CLEAR => on_executing terminal_clear g
  | KCTL_TERM1 => set_display_terminal 0 g
  | KCTL_TERM2 => g
  | KCTL_TERM3 => g
  | KCTL_NONE => g
  end.

Section WithBufferSize.

(** [TERMINAL_BUF_SIZE] comes from the revision of [terminal.h] that
    matches [terminal.c], which is not part of the sources. *)
Variable TERMINAL_BUF_SIZE : Z.

Definition handle_char_input (c : Z) (term : terminal_state_t)
  : terminal_state_t :=
  let ib := input term in
  if (c =? BACKSPACE) && (count ib >? 0) then
    let term := set_input term (mk_input (buf ib) (Int32.sub (count ib) 1)) in
    terminal_putc c term
  else if negb (c =? BACKSPACE) && (count ib <? TERMINAL_BUF_SIZE) then
    let term :=
      set_input term
        (mk_input (store (buf ib) (count ib) c) (Int32.add (count ib) 1)) in
    terminal_putc c term
  else term.

Definition terminal_handle_input (inp : kbd_input_t) (g : globals) : globals :=
  match inp with
  | KTYP_CHAR c => on_executing (handle_char_input c) g
  | KTYP_CTRL ctrl => handle_ctrl_input ctrl g
  | KTYP_NONE => g
  end.

(** What happens between [sti(); hlt();] and the following [cli()]:
    the interrupts that fire deliver a (possibly empty) run of input
    events to the terminal. *)
Definition wakeup : Type := list kbd_input_t.

Definition deliver (w : wakeup) (g : globals) : globals :=
  fold_left (fun g inp => terminal_handle_input inp g) w g.

(** The scan [for (i = 0; i < count; ++i) if (buf[i] == '\n') return i + 1;]
    started at [i] with [n] iterations left. *)
Fixpoint scan_newline (b : mem) (n : nat) (i : Z) : option Z :=
  match n with
  | O => None
  | S n' =>
      if b i =? NEWLINE then Some (Int32.add i 1)
      else scan_newline b n' (Int32.add i 1)
  end.

(** [wait_until_readable].  [future] lists what each later halt will
    deliver; the result is [None] when the loop is still waiting after
    the last of them, otherwise the byte count, the state and the
    wake-ups not consumed. *)
Fixpoint wait_until_readable (future : list wakeup) (g : globals) (nbytes : Z)
  : option (Z * globals * list wakeup) :=
  let ib := input (executing_terminal g) in
  if nbytes >? count ib then
    match scan_newline (buf ib) (Z.to_nat (count ib)) 0 with
    | Some n => Some (n, g, future)
    | None =>
        match future with
        | [] => None
        | w :: future' => wait_until_readable future' (deliver w g) nbytes
        end
    end
  else Some (nbytes, g, future).

Record read_result : Type := mk_read {
  read_ret : Z;              (* the return value *)
  read_dest : list Z;        (* the bytes stored through [dest] *)
  read_globals : globals;    (* the state afterwards *)
  read_future : list wakeup  (* wake-ups not consumed *)
}.

(** [for (i = 0; i < nbytes; ++i) *dest++ = buf[i];] yields the final
    [i] and the bytes written. *)
Fixpoint copy_out (b : mem) (n : nat) (i : Z) : Z * list Z :=
  match n with
  | O => (i, [])
  | S n' =>
      let '(i', l) := copy_out b n' (Int32.add i 1) in
      (i', b i :: l)
  end.

Definition terminal_read (future : list wakeup) (g : globals) (nbytes : Z)
  : option read_result :=
  let nbytes := if nbytes >? TERMINAL_BUF_SIZE then TERMINAL_BUF_SIZE else nbytes in
  match wait_until_readable future g nbytes with
  | None => None
  | Some (nbytes, g, future) =>
      let term := executing_terminal g in
      let ib := input term in
      let '(i, dest) := copy_out (buf ib) (Z.to_nat nbytes) 0 in
      let b := memmove (buf ib) 0 i i in
      let ib := mk_input b (Int32.sub (count ib) i) in
      Some (mk_read i dest
                    (mk_globals (set_input term ib) (display_terminal g))
                    future)
  end.

End WithBufferSize.

End Terminal.


(* ================================================================== *)
(** ** keyboard.c *)
(* ================================================================== *)

Module Keyboard.

(** The constants of [keyboard.h], which is not part of the sources. *)
Record keyboard_h : Type := mk_keyboard_h {
  NUM_KEYS : Z;
  KC_LCTRL : Z;
  KC_RCTRL : Z;
  KC_LSHIFT : Z;
  KC_RSHIFT : Z;
  KC_LALT : Z;
  KC_RALT : Z;
  KC_CAPS_LOCK : Z;
  KC_L : Z;
  KMOD_NONE : Z;
  KMOD_LCTRL : Z;
  KMOD_RCTRL : Z;
  KMOD_LSHIFT : Z;
  KMOD_RSHIFT : Z;
  KMOD_LALT : Z;
  KMOD_RALT : Z;
  KMOD_CAPS : Z;
  KMOD_CTRL : Z;
  KMOD_SHIFT : Z;
  KMOD_ALT : Z
}.

Definition chars (s : string) : list Z :=
  map (fun a => Z.of_N (Ascii.N_of_ascii a)) (list_ascii_of_string s).

(** [keycode_map]: one row per modifier combination.  The characters that
    have no printable form are given by their codes: 0 is NUL, 8 backspace,
    9 tab, 10 newline, 32 space, 34 the double quote, 39 the single quote
    and 92 the backslash. *)
Definition keycode_map_neutral : list Z :=
  [0; 0] ++ chars "1234567890-=" ++
  [8; 9] ++ chars "qwertyuiop[]" ++
  [10; 0] ++ chars "asdfghjkl;" ++ [39] ++ chars "`" ++
  [0; 92] ++ chars "zxcvbnm,./" ++ [0] ++ chars "*" ++
  [0; 32].

Definition keycode_map_shift : list Z :=
  [0; 0] ++ chars "!@#$%^&*()_+" ++
  [8; 9] ++ chars "QWERTYUIOP{}" ++
  [10; 0] ++ chars "ASDFGHJKL:" ++ [34] ++ chars "~" ++
  [0] ++ chars "|" ++ chars "ZXCVBNM<>?" ++ [0] ++ chars "*" ++
  [0; 32].

Definition keycode_map_caps : list Z :=
  [0; 0] ++ chars "1234567890-=" ++
  [8; 9] ++ chars "QWERTYUIOP[]" ++
  [10; 0] ++ chars "ASDFGHJKL;" ++ [39] ++ chars "`" ++
  [0; 92] ++ chars "ZXCVBNM,./" ++ [0] ++ chars "*" ++
  [0; 32].

Definition keycode_map_shift_caps : list Z :=
  [0; 0] ++ chars "!@#$%^&*()_+" ++
  [8; 9] ++ chars "qwertyuiop{}" ++
  [10; 0] ++ chars "asdfghjkl:" ++ [34] ++ chars "~" ++
  [0] ++ chars "|" ++ chars "zxcvbnm<>?" ++ [0] ++ chars "*" ++
  [0; 32].

Definition keycode_map : list (list Z) :=
  [keycode_map_neutral; keycode_map_shift; keycode_map_caps;
   keycode_map_shift_caps].

(** [keycode_map[row][keycode]]; the entries of a row past its initialisers
    are zero, as C initialises them. *)
Definition keycode_map_at (row : nat) (keycode : Z) : Z :=
  nth (Z.to_nat keycode) (nth row keycode_map []) 0.

Section WithHeader.

Variable h : keyboard_h.

(** The file-scope variable [modifiers] is threaded through the functions
    that read or write it. *)
Definition set_modifier_bit (bit : Z) (mask : Z) (modifiers : Z) : Z :=
  if negb (bit =? 0) then Z.lor modifiers mask
  else Z.land modifiers (Z.lnot mask).

Definition toggle_modifier_bit (mask : Z) (modifiers : Z) : Z :=
  Z.lxor modifiers mask.

Definition keycode_to_modifier (keycode : Z) : Z :=
  if keycode =? KC_LCTRL h then KMOD_LCTRL h
  else if keycode =? KC_RCTRL h then KMOD_RCTRL h
  else if keycode =? KC_LSHIFT h then KMOD_LSHIFT h
  else if keycode =? KC_RSHIFT h then KMOD_RSHIFT h
  else if keycode =? KC_LALT h then KMOD_LALT h
  else if keycode =? KC_RALT h then KMOD_RALT h
  else if keycode =? KC_CAPS_LOCK h then KMOD_CAPS h
  else KMOD_NONE h.

Definition keycode_to_ctrl (keycode : Z) : kbd_input_ctrl_t :=
  if keycode =? KC_L h then KCTL_CLEAR else KCTL_NONE.

Definition get_modifiers (modifiers : Z) : Z :=
  let md := modifiers in
  let md := if negb (Z.land md (KMOD_CTRL h) =? 0)
            then Z.lor md (KMOD_CTRL h) else md in
  let md := if negb (Z.land md (KMOD_SHIFT h) =? 0)
            then Z.lor md (KMOD_SHIFT h) else md in
  let md := if negb (Z.land md (KMOD_ALT h) =? 0)
            then Z.lor md (KMOD_ALT h) else md in
  md.

Definition keycode_to_input (keycode : Z) (modifiers : Z) : kbd_input_t :=
  if keycode >=? NUM_KEYS h then KTYP_NONE
  else
    let m := get_modifiers modifiers in
    if m =? KMOD_NONE h then KTYP_CHAR (keycode_map_at 0 keycode)
    else if m =? KMOD_SHIFT h then KTYP_CHAR (keycode_map_at 1 keycode)
    else if m =? KMOD_CAPS h then KTYP_CHAR (keycode_map_at 2 keycode)
    else if m =? Z.lor (KMOD_CAPS h) (KMOD_SHIFT h)
      then KTYP_CHAR (keycode_map_at 3 keycode)
    else if (m =? KMOD_CTRL h) || (m =? Z.lor (KMOD_CAPS h) (KMOD_CTRL h))
      then KTYP_CTRL (keycode_to_ctrl keycode)
    else KTYP_NONE.

(** [process_packet]: the event and the new value of [modifiers]. *)
Definition process_packet (packet : Z) (modifiers : Z) : kbd_input_t * Z :=
  let status := if Z.land packet 128 =? 0 then 1 else 0 in
  let keycode := Z.land packet 127 in
  let md := keycode_to_modifier keycode in
  if negb (md =? KMOD_NONE h) then
    if md =? KMOD_CAPS h then
      if status =? 1 then (KTYP_NONE, toggle_modifier_bit md modifiers)
      else (KTYP_NONE, modifiers)
    else (KTYP_NONE, set_modifier_bit status md modifiers)
  else if status =? 1 then (keycode_to_input keycode modifiers, modifiers)
  else (KTYP_NONE, modifiers).

(** What the header has to satisfy for [keyboard.c] to be the decoder the
    specification describes: the modifier state is a bitset with one bit
    per modifier key, [KMOD_NONE] is the empty set, [KMOD_CTRL],
    [KMOD_SHIFT] and [KMOD_ALT] join the left and right bits, the modifier
    keycodes are distinct 7-bit codes, and the table holds the 58
    initialised entries of each row. *)
Definition modifier_masks : list Z :=
  [KMOD_LCTRL h; KMOD_RCTRL h; KMOD_LSHIFT h; KMOD_RSHIFT h;
   KMOD_LALT h; KMOD_RALT h; KMOD_CAPS h].

Definition modifier_keycodes : list Z :=
  [KC_LCTRL h; KC_RCTRL h; KC_LSHIFT h; KC_RSHIFT h;
   KC_LALT h; KC_RALT h; KC_CAPS_LOCK h].

Fixpoint pairwise {A : Type} (r : A -> A -> bool) (l : list A) : bool :=
  match l with
  | [] => true
  | x :: l' => forallb (r x) l' && pairwise r l'
  end.

Definition header_ok : bool :=
  (KMOD_NONE h =? 0)
  && (KMOD_CTRL h =? Z.lor (KMOD_LCTRL h) (KMOD_RCTRL h))
  && (KMOD_SHIFT h =? Z.lor (KMOD_LSHIFT h) (KMOD_RSHIFT h))
  && (KMOD_ALT h =? Z.lor (KMOD_LALT h) (KMOD_RALT h))
  && forallb (fun m => 0 <? m) modifier_masks
  && pairwise (fun a b => Z.land a b =? 0) modifier_masks
  && forallb (fun k => (0 <=? k) && (k <? 128)) modifier_keycodes
  && pairwise (fun a b => negb (a =? b)) modifier_keycodes
  && (58 <=? NUM_KEYS h).

End WithHeader.

(** The header of a PC/AT keyboard in scancode set 1, with the modifier
    bits numbered in the order the file lists them. *)
Definition pc_at : keyboard_h :=
  {| NUM_KEYS := 58;
     KC_LCTRL := 29; KC_RCTRL := 97; KC_LSHIFT := 42; KC_RSHIFT := 54;
     KC_LALT := 56; KC_RALT := 100; KC_CAPS_LOCK := 58; KC_L := 38;
     KMOD_NONE := 0;
     KMOD_LCTRL := 1; KMOD_RCTRL := 2; KMOD_LSHIFT := 4; KMOD_RSHIFT := 8;
     KMOD_LALT := 16; KMOD_RALT := 32; KMOD_CAPS := 64;
     KMOD_CTRL := 3; KMOD_SHIFT := 12; KMOD_ALT := 48 |}.

(** [handle_keyboard_irq], given the byte [inb(KEYBOARD_PORT)] returned. *)
Definition handle_keyboard_irq (h : keyboard_h) (TERMINAL_BUF_SIZE : Z)
  (packet : Z) (st : Z * Terminal.globals) : Z * Terminal.globals :=
  let '(modifiers, g) := st in
  let '(inp, modifiers) := process_packet h packet modifiers in
  (modifiers, Terminal.terminal_handle_input TERMINAL_BUF_SIZE inp g).

End Keyboard.


(* ================================================================== *)
(** ** Runs of kernel code: a state, a trace, and calls that never return *)
(* ================================================================== *)

Module Run.

Section Monad.

Context {E S : Type}.

(** From a state, a computation emits a trace of events and either returns
    a value and a state, or ([None]) never returns. *)
Definition M (A : Type) : Type := S -> list E * option (A * S).

Definition ret {A : Type} (a : A) : M A := fun s => ([], Some (a, s)).

Definition bind {A B : Type} (m : M A) (k : A -> M B) : M B :=
  fun s =>
    match m s with
    | (tr, Some (a, s')) => let '(tr', r) := k a s' in (tr ++ tr', r)
    | (tr, None) => (tr, None)
    end.

Definition emit (e : E) : M unit := fun s => ([e], Some (tt, s)).
Definition get : M S := fun s => ([], Some (s, s)).
Definition put (s : S) : M unit := fun _ => ([], Some (tt, s)).

(** A call that does not come back: [loop()], [halt()]. *)
Definition never {A : Type} : M A := fun _ => ([], None).

Definition trace {A : Type} (r : list E * option (A * S)) : list E := fst r.
Definition returns {A : Type} (r : list E * option (A * S)) : Prop :=
  snd r <> None.
Definition halts {A : Type} (r : list E * option (A * S)) : Prop :=
  snd r = None.

End Monad.

Module Notations.
Declare Scope run_scope.
Delimit Scope run_scope with run.
Notation "x <- m ;; k" := (bind m (fun x => k))
  (at level 61, m at next level, right associativity) : run_scope.
Notation "m ;; k" := (bind m (fun _ => k))
  (at level 61, right associativity) : run_scope.
End Notations.

End Run.

(* ================================================================== *)
(** ** What both revisions of idt.c share *)
(* ================================================================== *)

Module Trap.

(** The register snapshot pushed by the trap entry code; the fields are the
    ones [dump_registers] prints. *)
Record int_regs_t : Type := mk_regs {
  int_num : Z; error_code : Z;
  eax : Z; ebx : Z; ecx : Z; edx : Z; esi : Z; edi : Z; ebp : Z; esp : Z;
  eip : Z; eflags : Z;
  cs : Z; ds : Z; es : Z; fs : Z; gs : Z; ss : Z;
  cr0 : Z; cr2 : Z; cr3 : Z; cr4 : Z
}.

Definition set_eax (regs : int_regs_t) (v : Z) : int_regs_t :=
  mk_regs (int_num regs) (error_code regs) v (ebx regs) (ecx regs) (edx regs)
          (esi regs) (edi regs) (ebp regs) (esp regs) (eip regs) (eflags regs)
          (cs regs) (ds regs) (es regs) (fs regs) (gs regs) (ss regs)
          (cr0 regs) (cr2 regs) (cr3 regs) (cr4 regs).

Inductive printf_arg : Type :=
| ArgInt (z : Z)
| ArgStr (s : string).

(** The calls that leave the file. *)
Inductive event : Type :=
| Printf (format : string) (args : list printf_arg)
| Debugf (format : string) (args : list printf_arg)
| Clear
| SignalRaise (pid : Z) (signum : Z)
| SignalHandleAll (regs : int_regs_t)
| IrqHandleInterrupt (irq_num : Z)
| SyscallHandle (a b c : Z) (regs : int_regs_t) (num : Z)
| Callback (fn : Z)
| SendEoi (irq_num : Z)
| EnableIrq (irq_num : Z)
| DisableIrq (irq_num : Z).

Definition exception_names : list string :=
  [ "Divide error exception";
    "Debug exception";
    "Nonmaskable interrupt";
    "Breakpoint exception";
    "Overflow exception";
    "Bound range exceeded exception";
    "Invalid opcode exception";
    "Device not available exception";
    "Double fault exception";
    "Coprocessor segment overrun";
    "Invalid TSS exception";
    "Segment not present";
    "Stack fault exception";
    "General protection exception";
    "Page-fault exception";
    "Entry reserved";
    "Floating-point error";
    "Alignment check exception";
    "Machine-check exception";
    "SIMD floating-point exception" ]%string.

Definition exception_name (n : Z) : string :=
  nth (Z.to_nat n) exception_names EmptyString.

(** The lines [dump_registers] prints, in order. *)
Definition register_dump (regs : int_regs_t) : list event :=
  map (fun '(label, v) => Printf label [ArgInt v])
    [ ("int_num:    0x%#x\n", int_num regs);
      ("error_code: 0x%#x\n", error_code regs);
      ("eax:        0x%#x\n", eax regs);
      ("ebx:        0x%#x\n", ebx regs);
      ("ecx:        0x%#x\n", ecx regs);
      ("edx:        0x%#x\n", edx regs);
      ("esi:        0x%#x\n", esi regs);
      ("edi:        0x%#x\n", edi regs);
      ("ebp:        0x%#x\n", ebp regs);
      ("esp:        0x%#x\n", esp regs);
      ("eip:        0x%#x\n", eip regs);
      ("eflags:     0x%#x\n", eflags regs);
      ("cs:         0x%#x\n", cs regs);
      ("ds:         0x%#x\n", ds regs);
      ("es:         0x%#x\n", es regs);
      ("fs:         0x%#x\n", fs regs);
      ("gs:         0x%#x\n", gs regs);
      ("ss:         0x%#x\n", ss regs);
      ("cr0:        0x%#x\n", cr0 regs);
      ("cr2:        0x%#x\n", cr2 regs);
      ("cr3:        0x%#x\n", cr3 regs);
      ("cr4:        0x%#x\n", cr4 regs) ]%string.

Section Dump.

Context {S : Type}.

Fixpoint emit_all (l : list event) : Run.M (E := event) (S := S) unit :=
  match l with
  | [] => Run.ret tt
  | e :: l' => Run.bind (Run.emit e) (fun _ => emit_all l')
  end.

Definition dump_registers (regs : int_regs_t) : Run.M (E := event) (S := S) unit :=
  emit_all (register_dump regs).

End Dump.

(** The signals a trace raises, as (pid, signal) pairs in order. *)
Definition signals_raised (tr : list event) : list (Z * Z) :=
  flat_map (fun e => match e with
                     | SignalRaise pid signum => [(pid, signum)]
                     | _ => []
                     end) tr.

(** The driver callbacks a trace runs and the end-of-interrupts it sends,
    in order. *)
Definition is_pic_event (e : event) : bool :=
  match e with
  | Callback _ | SendEoi _ => true
  | _ => false
  end.

Definition callbacks_run (tr : list event) : list Z :=
  flat_map (fun e => match e with Callback fn => [fn] | _ => [] end) tr.

Definition eois_sent (tr : list event) : list Z :=
  flat_map (fun e => match e with SendEoi n => [n] | _ => [] end) tr.

End Trap.

(* ================================================================== *)
(** ** idt.c, current revision: exceptions become signals in user mode *)
(* ================================================================== *)

Module Idt.

Import Trap Run.Notations.
Local Open Scope run_scope.

Section WithHeaders.

(** Constants of [idt.h], [x86_desc.h] and [signal.h], none of which is
    part of the sources. *)
Variables NUM_EXC EXC_DE INT_IRQ0 INT_IRQ15 INT_SYSCALL : Z.
Variable USER_CS : Z.
Variables SIG_DIV_ZERO SIG_SEGFAULT : Z.

(** [get_executing_pcb()->pid] *)
Variable executing_pid : Z.

(** What [syscall_handle] returns and what it leaves in the snapshot. *)
Variable syscall_handle : Z -> Z -> Z -> int_regs_t -> Z -> Z * int_regs_t.

(** What [signal_handle_all] leaves in the snapshot. *)
Variable signal_handle_all : int_regs_t -> int_regs_t.

(** The state of a run is the snapshot [regs] points to. *)
Definition M : Type -> Type := Run.M (E := event) (S := int_regs_t).

Definition handle_user_exception (num : Z) : M unit :=
  Run.emit (Debugf "Userspace exception: %s\n" [ArgStr (exception_name num)]) ;;
  if num =? EXC_DE
  then Run.emit (SignalRaise executing_pid SIG_DIV_ZERO)
  else Run.emit (SignalRaise executing_pid SIG_SEGFAULT).

Definition handle_exception : M unit :=
  regs <- Run.get ;;
  if cs regs =? USER_CS then
    handle_user_exception (int_num regs)
  else
    Run.emit Clear ;;
    Run.emit (Printf "****************************************\n" []) ;;
    Run.emit (Printf "Exception: %s\n" [ArgStr (exception_name (int_num regs))]) ;;
    Run.emit (Printf "****************************************\n" []) ;;
    dump_registers regs ;;
    Run.never.

Definition handle_irq : M unit :=
  regs <- Run.get ;;
  let irq_num := Int32.usub (int_num regs) INT_IRQ0 in
  Run.emit (IrqHandleInterrupt irq_num).

Definition handle_syscall : M unit :=
  regs <- Run.get ;;
  Run.emit (Debugf "Syscall: %d\n" [ArgInt (eax regs)]) ;;
  Run.emit (SyscallHandle (ebx regs) (ecx regs) (edx regs) regs (eax regs)) ;;
  let '(result, regs') :=
    syscall_handle (ebx regs) (ecx regs) (edx regs) regs (eax regs) in
  Run.put (set_eax regs' result) ;;
  Run.emit (Debugf "Return value: 0x%#x\n" [ArgInt result]).

Definition idt_handle_interrupt : M unit :=
  regs <- Run.get ;;
  (if int_num regs <? NUM_EXC then handle_exception
   else if (int_num regs >=? INT_IRQ0) && (int_num regs <=? INT_IRQ15)
     then handle_irq
   else if int_num regs =? INT_SYSCALL then handle_syscall
   else Run.emit (Debugf "Unknown interrupt: %d\n" [ArgInt (int_num regs)])) ;;
  regs <- Run.get ;;
  if cs regs =? USER_CS then
    Run.emit (SignalHandleAll regs) ;;
    Run.put (signal_handle_all regs)
  else Run.ret tt.

End WithHeaders.

End Idt.

(* ================================================================== *)
(** ** idt.c, the revision that holds the IRQ handler table *)
(* ================================================================== *)

Module IdtIrq.

Import Trap Run.Notations.
Local Open Scope run_scope.

(** A function pointer is its address; [NULL] is 0. *)
Definition NULL : Z := 0.

(** [irq_handlers]: slot [i] holds [irq_handlers[i].callback].  Slots
    outside [[0, 16)] are the memory around the array. *)
Definition irq_table : Type := Z -> Z.

Definition set_callback (t : irq_table) (irq_num : Z) (callback : Z)
  : irq_table :=
  fun i => if i =? irq_num then callback else t i.

Section WithHeaders.

(** Constants of [idt.h]. *)
Variables NUM_EXC INT_IRQ0 INT_IRQ15 INT_SYSCALL : Z.

Definition M : Type -> Type := Run.M (E := event) (S := irq_table).

(** What [ASSERT] of [debug.h] does when its condition is false. *)
Variable assert_failed : M unit.

Definition ASSERT (b : bool) : M unit :=
  if b then Run.ret tt else assert_failed.

Definition handle_exception (regs : int_regs_t) : M unit :=
  Run.emit Clear ;;
  Run.emit (Printf "****************************************\n" []) ;;
  Run.emit (Printf "Exception: %s\n" [ArgStr (exception_name (int_num regs))]) ;;
  Run.emit (Printf "****************************************\n" []) ;;
  dump_registers regs ;;
  Run.never.

Definition handle_irq (regs : int_regs_t) : M unit :=
  let irq_num := Int32.usub (int_num regs) INT_IRQ0 in
  irq_handlers <- Run.get ;;
  let callback := irq_handlers irq_num in
  Run.emit (Debugf "IRQ interrupt: %d\n" [ArgInt irq_num]) ;;
  (if negb (callback =? NULL) then Run.emit (Callback callback)
   else Run.ret tt) ;;
  Run.emit (SendEoi irq_num).

Definition handle_syscall (regs : int_regs_t) : M unit :=
  Run.emit (Debugf "Syscall: %d\n" [ArgInt (eax regs)]).

Definition handle_interrupt (regs : int_regs_t) : M unit :=
  if int_num regs <? NUM_EXC then handle_exception regs
  else if (int_num regs >=? INT_IRQ0) && (int_num regs <=? INT_IRQ15)
    then handle_irq regs
  else if int_num regs =? INT_SYSCALL then handle_syscall regs
  else Run.emit (Debugf "Unknown interrupt: %d\n" [ArgInt (int_num regs)]).

Definition register_irq_handler (irq_num : Z) (callback : Z) : M unit :=
  ASSERT ((irq_num >=? 0) && (irq_num <? 16)) ;;
  irq_handlers <- Run.get ;;
  Run.put (set_callback irq_handlers irq_num callback) ;;
  Run.emit (EnableIrq irq_num).

Definition unregister_irq_handler (irq_num : Z) : M unit :=
  ASSERT ((irq_num >=? 0) && (irq_num <? 16)) ;;
  Run.emit (DisableIrq irq_num) ;;
  irq_handlers <- Run.get ;;
  Run.put (set_callback irq_handlers irq_num NULL).

End WithHeaders.

End IdtIrq.


(* ================================================================== *)
(** ** idt.c: building the interrupt descriptor table *)
(* ================================================================== *)

Module IdtInit.

(** The fields of a gate descriptor that [idt_init] assigns; the struct is
    declared in [x86_desc.h], which is not part of the sources. *)
Record idt_desc_t : Type := mk_desc {
  present : Z; dpl : Z; reserved0 : Z; size : Z;
  reserved1 : Z; reserved2 : Z; reserved3 : Z; reserved4 : Z;
  seg_selector : Z; offset_15_00 : Z; offset_31_16 : Z
}.

Definition set_dpl (d : idt_desc_t) (v : Z) : idt_desc_t :=
  mk_desc (present d) v (reserved0 d) (size d) (reserved1 d) (reserved2 d)
          (reserved3 d) (reserved4 d) (seg_selector d) (offset_15_00 d)
          (offset_31_16 d).

Definition set_reserved3 (d : idt_desc_t) (v : Z) : idt_desc_t :=
  mk_desc (present d) (dpl d) (reserved0 d) (size d) (reserved1 d)
          (reserved2 d) v (reserved4 d) (seg_selector d) (offset_15_00 d)
          (offset_31_16 d).

(** [idt]: entry [i] is [idt[i]]; the entries outside [[0, NUM_VEC)] are
    the memory around the table. *)
Definition idt_table : Type := Z -> idt_desc_t.

(** [idt[i] = d] *)
Definition set_entry (idt : idt_table) (i : Z) (d : idt_desc_t) : idt_table :=
  fun j => if j =? i then d else idt j.

(** An assignment to a part of [idt[i]]. *)
Definition update_entry (idt : idt_table) (i : Z)
           (f : idt_desc_t -> idt_desc_t) : idt_table :=
  set_entry idt i (f (idt i)).

(** The constants of [idt.h] and [x86_desc.h] that [idt_init] names. *)
Record idt_h : Type := mk_idt_h {
  NUM_EXC : Z; NUM_VEC : Z; KERNEL_CS : Z; INT_SYSCALL : Z;
  EXC_DE : Z; EXC_DB : Z; EXC_NI : Z; EXC_BP : Z; EXC_OF : Z;
  EXC_BR : Z; EXC_UD : Z; EXC_NM : Z; EXC_DF : Z; EXC_CO : Z;
  EXC_TS : Z; EXC_NP : Z; EXC_SS : Z; EXC_GP : Z; EXC_PF : Z;
  EXC_RE : Z; EXC_MF : Z; EXC_AC : Z; EXC_MC : Z; EXC_XF : Z;
  INT_IRQ0 : Z; INT_IRQ1 : Z; INT_IRQ2 : Z; INT_IRQ3 : Z;
  INT_IRQ4 : Z; INT_IRQ5 : Z; INT_IRQ6 : Z; INT_IRQ7 : Z;
  INT_IRQ8 : Z; INT_IRQ9 : Z; INT_IRQ10 : Z; INT_IRQ11 : Z;
  INT_IRQ12 : Z; INT_IRQ13 : Z; INT_IRQ14 : Z; INT_IRQ15 : Z
}.

Section WithHeaders.

Variable h : idt_h.

(** The macro [SET_IDT_ENTRY(str, handler)] of [x86_desc.h], as what it
    makes of the descriptor [str] given the address of [handler]. *)
Variable SET_IDT_ENTRY : idt_desc_t -> Z -> idt_desc_t.

(** The addresses of the entry points of [idtthunk.S], by name. *)
Variable address_of : string -> Z.

Definition WRITE_IDT_ENTRY (i : Z) (name : string) (idt : idt_table)
  : idt_table :=
  update_entry idt i (fun str => SET_IDT_ENTRY str (address_of name)).

(** [idt_init].  [lidt(idt_desc_ptr)] loads the table register and leaves
    the table alone.  The counter [i] of the first loop is where the second
    one starts; the constants are taken to fit the [int] they are compared
    with. *)
Definition idt_init (idt : idt_table) : idt_table :=
  let desc := mk_desc 1 0 0 1 1 1 1 0 (KERNEL_CS h) 0 0 in
  let desc := set_dpl desc 0 in
  let desc := set_reserved3 desc 0 in
  let idt :=
    for_loop (Z.to_nat (NUM_EXC h)) 0 (fun i idt => set_entry idt i desc) idt in
  let i := Z.max 0 (NUM_EXC h) in
  let idt := WRITE_IDT_ENTRY (EXC_DE h) "idt_handle_exc_de" idt in
  let idt := WRITE_IDT_ENTRY (EXC_DB h) "idt_handle_exc_db" idt in
  let idt := WRITE_IDT_ENTRY (EXC_NI h) "idt_handle_exc_ni" idt in
  let idt := WRITE_IDT_ENTRY (EXC_BP h) "idt_handle_exc_bp" idt in
  let idt := WRITE_IDT_ENTRY (EXC_OF h) "idt_handle_exc_of" idt in
  let idt := WRITE_IDT_ENTRY (EXC_BR h) "idt_handle_exc_br" idt in
  let idt := WRITE_IDT_ENTRY (EXC_UD h) "idt_handle_exc_ud" idt in
  let idt := WRITE_IDT_ENTRY (EXC_NM h) "idt_handle_exc_nm" idt in
  let idt := WRITE_IDT_ENTRY (EXC_DF h) "idt_handle_exc_df" idt in
  let idt := WRITE_IDT_ENTRY (EXC_CO h) "idt_handle_exc_co" idt in
  let idt := WRITE_IDT_ENTRY (EXC_TS h) "idt_handle_exc_ts" idt in
  let idt := WRITE_IDT_ENTRY (EXC_NP h) "idt_handle_exc_np" idt in
  let idt := WRITE_IDT_ENTRY (EXC_SS h) "idt_handle_exc_ss" idt in
  let idt := WRITE_IDT_ENTRY (EXC_GP h) "idt_handle_exc_gp" idt in
  let idt := WRITE_IDT_ENTRY (EXC_PF h) "idt_handle_exc_pf" idt in
  let idt := WRITE_IDT_ENTRY (EXC_RE h) "idt_handle_exc_re" idt in
  let idt := WRITE_IDT_ENTRY (EXC_MF h) "idt_handle_exc_mf" idt in
  let idt := WRITE_IDT_ENTRY (EXC_AC h) "idt_handle_exc_ac" idt in
  let idt := WRITE_IDT_ENTRY (EXC_MC h) "idt_handle_exc_mc" idt in
  let idt := WRITE_IDT_ENTRY (EXC_XF h) "idt_handle_exc_xf" idt in
  let desc := set_dpl desc 0 in
  let desc := set_reserved3 desc 0 in
  let idt :=
    for_loop (Z.to_nat (NUM_VEC h - i)) i
      (fun i idt =>
         WRITE_IDT_ENTRY i "idt_handle_int_unknown" (set_entry idt i desc))
      idt in
  let idt := WRITE_IDT_ENTRY (INT_IRQ0 h) "idt_handle_int_irq0" idt in
  let idt := WRITE_IDT_ENTRY (INT_IRQ1 h) "idt_handle_int_irq1" idt in
  let idt := WRITE_IDT_ENTRY (INT_IRQ2 h) "idt_handle_int_irq2" idt in
  let idt := WRITE_IDT_ENTRY (INT_IRQ3 h) "idt_handle_int_irq3" idt in
  let idt := WRITE_IDT_ENTRY (INT_IRQ4 h) "idt_handle_int_irq4" idt in
  let idt := WRITE_IDT_ENTRY (INT_IRQ5 h) "idt_handle_int_irq5" idt in
  let idt := WRITE_IDT_ENTRY (INT_IRQ6 h) "idt_handle_int_irq6" idt in
  let idt := WRITE_IDT_ENTRY (INT_IRQ7 h) "idt_handle_int_irq7" idt in
  let idt := WRITE_IDT_ENTRY (INT_IRQ8 h) "idt_handle_int_irq8" idt in
  let idt := WRITE_IDT_ENTRY (INT_IRQ9 h) "idt_handle_int_irq9" idt in
  let idt := WRITE_IDT_ENTRY (INT_IRQ10 h) "idt_handle_int_irq10" idt in
  let idt := WRITE_IDT_ENTRY (INT_IRQ11 h) "idt_handle_int_irq11" idt in
  let idt := WRITE_IDT_ENTRY (INT_IRQ12 h) "idt_handle_int_irq12" idt in
  let idt := WRITE_IDT_ENTRY (INT_IRQ13 h) "idt_handle_int_irq13" idt in
  let idt := WRITE_IDT_ENTRY (INT_IRQ14 h) "idt_handle_int_irq14" idt in
  let idt := WRITE_IDT_ENTRY (INT_IRQ15 h) "idt_handle_int_irq15" idt in
  let idt := update_entry idt (INT_SYSCALL h) (fun str => set_dpl str 3) in
  WRITE_IDT_ENTRY (INT_SYSCALL h) "idt_handle_int_syscall" idt.

End WithHeaders.

End IdtInit.


(* ================================================================== *)
(** ** file.c: the file descriptors of the executing process *)
(* ================================================================== *)

Module File.

(** The six operation tables of the file; a file object points to one of
    them. *)
Inductive file_ops_t : Type :=
| fops_stdin | fops_stdout | fops_file | fops_dir | fops_rtc | fops_mouse.

(** The fields of [file_obj_t] and [dentry_t] that the file uses; the
    structs are declared in [file.h] and [filesys.h], which are not part of
    the sources. *)
Record file_obj_t : Type := mk_file {
  valid : bool; ops_table : file_ops_t; inode_idx : Z; offset : Z
}.

Record dentry_t : Type := mk_dentry { dentry_type : Z; dentry_inode_idx : Z }.

Definition set_valid (file : file_obj_t) (v : bool) : file_obj_t :=
  mk_file v (ops_table file) (inode_idx file) (offset file).
Definition set_ops_table (file : file_obj_t) (t : file_ops_t) : file_obj_t :=
  mk_file (valid file) t (inode_idx file) (offset file).
Definition set_inode_idx (file : file_obj_t) (v : Z) : file_obj_t :=
  mk_file (valid file) (ops_table file) v (offset file).
Definition set_offset (file : file_obj_t) (v : Z) : file_obj_t :=
  mk_file (valid file) (ops_table file) (inode_idx file) v.

(** [pcb->files]: entry [i] is [files[i]]; the entries outside
    [[0, MAX_FILES)] are the memory around the array. *)
Definition files_t : Type := Z -> file_obj_t.

Definition set_file (files : files_t) (i : Z) (file : file_obj_t) : files_t :=
  fun j => if j =? i then file else files j.

Section WithHeaders.

(** Constants of [file.h] and [filesys.h]. *)
Variables MAX_FILES FD_STDIN FD_STDOUT : Z.
Variables FTYPE_RTC FTYPE_DIR FTYPE_FILE FTYPE_MOUSE : Z.

(** Everything outside the file table that the calls leaving the file read
    or change: the devices, the file system, user memory, the log. *)
Variable world : Type.

Variable debugf : string -> list Z -> world -> world.
Variable is_user_readable_string : Z -> world -> bool.

(** [read_dentry_by_name(filename, &dentry)]: the return value and what it
    leaves in [dentry]. *)
Variable read_dentry_by_name : Z -> world -> Z * dentry_t * world.

(** The members of an operation table.  A call gets a pointer to one file
    object: it returns a value and leaves that object and the world behind
    it as it likes; it is taken not to reach the other file objects. *)
Variable op_open :
  file_ops_t -> Z -> file_obj_t -> world -> Z * file_obj_t * world.
Variable op_read :
  file_ops_t -> file_obj_t -> Z -> Z -> world -> Z * file_obj_t * world.
Variable op_write :
  file_ops_t -> file_obj_t -> Z -> Z -> world -> Z * file_obj_t * world.
Variable op_close :
  file_ops_t -> file_obj_t -> world -> Z * file_obj_t * world.

(** The state the syscalls work on: the file objects of the executing
    process, which [get_executing_file_objs] finds (its [ASSERT] that there
    is such a process is taken to hold), and the world. *)
Definition state : Type := files_t * world.

(** [init_file_obj]: the return value, the file object and the world. *)
Definition init_file_obj (file : file_obj_t) (dentry : dentry_t) (w : world)
  : bool * file_obj_t * world :=
  let file := set_inode_idx file 0 in
  let file := set_offset file 0 in
  if dentry_type dentry =? FTYPE_RTC then
    (true, set_valid (set_ops_table file fops_rtc) true, w)
  else if dentry_type dentry =? FTYPE_DIR then
    (true, set_valid (set_ops_table file fops_dir) true, w)
  else if dentry_type dentry =? FTYPE_FILE then
    (true,
     set_valid
       (set_inode_idx (set_ops_table file fops_file) (dentry_inode_idx dentry))
       true,
     w)
  else if dentry_type dentry =? FTYPE_MOUSE then
    (true, set_valid (set_ops_table file fops_mouse) true, w)
  else
    (false, file, debugf "Unknown file type: %d\n" [dentry_type dentry] w).

(** [get_executing_file_obj]: the pointer it returns is the index of the
    object in the array, [None] is [NULL]. *)
Definition get_executing_file_obj (fd : Z) (files : files_t) : option Z :=
  if (fd <? 0) || (fd >=? MAX_FILES) then None
  else if negb (valid (files fd)) then None
  else Some fd.

Definition file_init (files : files_t) : files_t :=
  let files := set_file files FD_STDIN (set_valid (files FD_STDIN) true) in
  let files :=
    set_file files FD_STDIN (set_ops_table (files FD_STDIN) fops_stdin) in
  let files := set_file files FD_STDOUT (set_valid (files FD_STDOUT) true) in
  let files :=
    set_file files FD_STDOUT (set_ops_table (files FD_STDOUT) fops_stdout) in
  for_loop (Z.to_nat (MAX_FILES - 2)) 2
           (fun i files => set_file files i (set_valid (files i) false)) files.

(** The loop of [file_open] from [i] on, with [n] slots left to look at. *)
Fixpoint file_open_from (n : nat) (i : Z) (filename : Z) (st : state)
  : Z * state :=
  let '(files, w) := st in
  match n with
  | O => (-1, (files, w))
  | S n' =>
      if negb (valid (files i)) then
        let '(rc, dentry, w) := read_dentry_by_name filename w in
        if negb (rc =? 0) then (-1, (files, w))
        else
          let '(ok, file, w) := init_file_obj (files i) dentry w in
          let files := set_file files i file in
          if negb ok then (-1, (files, w))
          else
            let '(rc, file, w) :=
              op_open (ops_table (files i)) filename (files i) w in
            let files := set_file files i file in
            if negb (rc =? 0) then
              (-1, (set_file files i (set_valid (files i) false), w))
            else (i, (files, w))
      else file_open_from n' (i + 1) filename (files, w)
  end.

Definition file_open (filename : Z) (st : state) : Z * state :=
  let '(files, w) := st in
  if negb (is_user_readable_string filename w) then (-1, (files, w))
  else file_open_from (Z.to_nat (MAX_FILES - 2)) 2 filename (files, w).

Definition file_read (fd buf nbytes : Z) (st : state) : Z * state :=
  let '(files, w) := st in
  match get_executing_file_obj fd files with
  | None => (-1, (files, w))
  | Some file =>
      let '(rc, obj, w) :=
        op_read (ops_table (files file)) (files file) buf nbytes w in
      (rc, (set_file files file obj, w))
  end.

Definition file_write (fd buf nbytes : Z) (st : state) : Z * state :=
  let '(files, w) := st in
  match get_executing_file_obj fd files with
  | None => (-1, (files, w))
  | Some file =>
      let '(rc, obj, w) :=
        op_write (ops_table (files file)) (files file) buf nbytes w in
      (rc, (set_file files file obj, w))
  end.

Definition file_close (fd : Z) (st : state) : Z * state :=
  let '(files, w) := st in
  match get_executing_file_obj fd files with
  | None => (-1, (files, w))
  | Some file =>
      let '(rc, obj, w) := op_close (ops_table (files file)) (files file) w in
      let files := set_file files file obj in
      if negb (rc =? 0) then (-1, (files, w))
      else (0, (set_file files file (set_valid (files file) false), w))
  end.

End WithHeaders.

End File.


(* ================================================================== *)
(** ** Vocabulary of the specification *)
(* ================================================================== *)

Module TerminalSpec.

Import Terminal.

(** The cursor invariant of the specification. *)
Definition cursor_ok (term : terminal_state_t) : Prop :=
  0 <= screen_x (cursor term) < NUM_COLS /\ 0 <= logical_x (cursor term).

(** A byte that [terminal_putc] prints as it is. *)
Definition plain (c : Z) : Prop :=
  0 <= c < 256 /\ c <> NEWLINE /\ c <> CARRIAGE /\ c <> BACKSPACE.

Definition blank_terminal (lx sx sy : Z) : terminal_state_t :=
  mk_term (mk_input (fun _ => 0) 0) (mk_cursor lx sx sy) (fun _ => 0).

Definition write_all (cs : list Z) (term : terminal_state_t) : terminal_state_t :=
  fold_left (fun t c => terminal_putc c t) cs term.

(** The cursor is on the screen cell number [k], counted row by row. *)
Definition at_cell (term : terminal_state_t) (k : Z) : Prop :=
  0 <= screen_x (cursor term) < NUM_COLS /\
  0 <= screen_y (cursor term) /\
  screen_y (cursor term) * NUM_COLS + screen_x (cursor term) = k.

(** A terminal whose input buffer holds exactly the bytes of [l]. *)
Definition buffered (l : list Z) : globals :=
  mk_globals
    (mk_term (mk_input (mem_of_list l) (Z.of_nat (List.length l)))
             (mk_cursor 0 0 0) (fun _ => 0))
    0.

(** The input buffer of the executing terminal. *)
Definition input_of (g : globals) : input_buf_t := input (executing_terminal g).

(** The first [n] bytes of a buffer. *)
Definition prefix (b : mem) (n : nat) : list Z :=
  map (fun i => b (Z.of_nat i)) (seq 0 n).

(** The stored count stays a count. *)
Definition count_ok (TERMINAL_BUF_SIZE : Z) (g : globals) : Prop :=
  0 <= count (input_of g) <= TERMINAL_BUF_SIZE.

(** The input buffer of [g] holds exactly the bytes of [l]. *)
Definition holds (g : globals) (l : list Z) : Prop :=
  count (input_of g) = Z.of_nat (List.length l) /\
  forall j, (j < List.length l)%nat ->
            buf (input_of g) (Z.of_nat j) = nth j l 0.

(** A byte the line discipline appends to a line: neither the newline that
    ends it nor a backspace. *)
Definition ordinary (c : Z) : Prop := c <> NEWLINE /\ c <> BACKSPACE.

(** The wake-ups deliver exactly the bytes of [l] as character events, in
    order, however they are spread over the halts. *)
Definition delivers (future : list wakeup) (l : list Z) : Prop :=
  List.concat future = map KTYP_CHAR l.

(** A full screen and one byte more: a row of a, a row of b, then c. *)
Definition full_screen_and_one : list Z :=
  repeat 97 80 ++ repeat 98 80 ++ repeat 99 1841.

(** [VIDEO_MEM_SIZE] of [terminal.h]. *)
Definition VIDEO_MEM_SIZE : Z := NUM_ROWS * NUM_COLS * 2.

(** The cursor is on a cell of the screen. *)
Definition on_screen (term : terminal_state_t) : Prop :=
  0 <= screen_x (cursor term) < NUM_COLS /\
  0 <= screen_y (cursor term) < NUM_ROWS.

(** The number of the cell under the cursor, counted row by row. *)
Definition cursor_cell (term : terminal_state_t) : Z :=
  screen_y (cursor term) * NUM_COLS + screen_x (cursor term).

(** [v'] differs from [v] at most inside the video memory of the screen. *)
Definition same_outside_screen (v v' : mem) : Prop :=
  forall o, o < 0 \/ VIDEO_MEM_SIZE <= o -> v' o = v o.

(** The cell [k] of [v] shows the byte [c] with the attribute [ATTRIB]. *)
Definition shows (v : mem) (k c : Z) : Prop :=
  v (2 * k) = c /\ v (2 * k + 1) = ATTRIB.

(** What a read of 5 returns from a buffer that holds a, when b, then a
    newline, then c are typed, one key a wake-up. *)
Definition read_5_while_typing : read_result :=
  match terminal_read 128 [[KTYP_CHAR 98]; [KTYP_CHAR 10]; [KTYP_CHAR 99]]
                      (buffered [97]) 5 with
  | Some r => r
  | None => mk_read 0 [] (buffered []) []
  end.

(** One logical line that fills the screen, then backspaces up to the
    top-left cell. *)
Definition long_line_erased : list Z :=
  repeat 97 2000 ++ repeat BACKSPACE 1920.

End TerminalSpec.

Module KeyboardSpec.

Import Keyboard.

(** The packets of a key: the keycode with the high bit clear when the key
    goes down, set when it comes up. *)
Definition press_packet (keycode : Z) : Z := keycode.
Definition release_packet (keycode : Z) : Z := Z.lor keycode 128.

(** Shift is held: the left key, the right key or both, and nothing else. *)
Definition shift_held (h : keyboard_h) (m : Z) : Prop :=
  m = KMOD_LSHIFT h \/ m = KMOD_RSHIFT h \/
  m = Z.lor (KMOD_LSHIFT h) (KMOD_RSHIFT h).

(** Ctrl is held: the left key, the right key or both, and nothing else. *)
Definition ctrl_held (h : keyboard_h) (m : Z) : Prop :=
  m = KMOD_LCTRL h \/ m = KMOD_RCTRL h \/
  m = Z.lor (KMOD_LCTRL h) (KMOD_RCTRL h).

(** A key of the table that is no modifier key. *)
Definition ordinary_key (h : keyboard_h) (k : Z) : Prop :=
  0 <= k < 128 /\ k < NUM_KEYS h /\ ~ In k (modifier_keycodes h).

(** A lower-case letter. *)
Definition is_lower (c : Z) : bool := (97 <=? c) && (c <=? 122).

(** The mask of the key a packet is about. *)
Definition packet_mask (h : keyboard_h) (packet : Z) : Z :=
  keycode_to_modifier h (Z.land packet 127).

End KeyboardSpec.

Module IdtSpec.

Import Trap.

(** A snapshot with the given vector and code segment, every other field 0. *)
Definition snapshot (vector code_segment : Z) : int_regs_t :=
  mk_regs vector 0 0 0 0 0 0 0 0 0 0 0 code_segment 0 0 0 0 0 0 0 0 0.

(** A general protection fault taken in kernel mode (code segment 0x10),
    with a different value in every general register. *)
Definition kernel_fault : int_regs_t :=
  mk_regs 13 0 1 2 3 4 5 6 7 8 9 10 16 24 24 24 24 24 11 12 13 14.

(** The dispatcher with the vector numbers of the PC (20 exception
    vectors, divide error first, IRQs at 0x20..0x2F, the syscall gate at
    0x80), user code segment 0x23, signals 0 and 1, process 7, and
    collaborators that leave the snapshot alone. *)
Definition pc_dispatch (regs : int_regs_t) :=
  Idt.idt_handle_interrupt 20 0 0x20 0x2F 0x80 0x23 0 1 7
           (fun _ _ _ regs _ => (0, regs)) (fun regs => regs) regs.

(** [register(line, cb)] followed by the dispatch of [regs]. *)
Definition register_then_dispatch (INT_IRQ0 : Z) (assert_failed : IdtIrq.M unit)
  (line cb : Z) (regs : int_regs_t) : IdtIrq.M unit :=
  Run.bind (IdtIrq.register_irq_handler assert_failed line cb)
           (fun _ => IdtIrq.handle_irq INT_IRQ0 regs).

(** [unregister(line)] followed by the dispatch of [regs]. *)
Definition unregister_then_dispatch (INT_IRQ0 : Z) (assert_failed : IdtIrq.M unit)
  (line : Z) (regs : int_regs_t) : IdtIrq.M unit :=
  Run.bind (IdtIrq.unregister_irq_handler assert_failed line)
           (fun _ => IdtIrq.handle_irq INT_IRQ0 regs).

(** An IRQ table with no handler, and an [ASSERT] that would hang. *)
Definition no_handlers : IdtIrq.irq_table := fun _ => IdtIrq.NULL.
Definition assert_hangs : IdtIrq.M unit := Run.never.

End IdtSpec.

Module IdtInitSpec.

Import IdtInit.

(** Two descriptors that differ in the handler offset at most. *)
Definition same_gate (d d' : idt_desc_t) : Prop :=
  present d = present d' /\ dpl d = dpl d' /\ reserved0 d = reserved0 d' /\
  size d = size d' /\ reserved1 d = reserved1 d' /\
  reserved2 d = reserved2 d' /\ reserved3 d = reserved3 d' /\
  reserved4 d = reserved4 d' /\ seg_selector d = seg_selector d'.

(** A present 32-bit interrupt gate into the kernel code segment that code
    of privilege level [ring] or better may call. *)
Definition interrupt_gate (kernel_cs ring : Z) (d : idt_desc_t) : Prop :=
  present d = 1 /\ dpl d = ring /\ reserved0 d = 0 /\ size d = 1 /\
  reserved1 d = 1 /\ reserved2 d = 1 /\ reserved3 d = 0 /\
  reserved4 d = 0 /\ seg_selector d = kernel_cs.

(** A [SET_IDT_ENTRY] that stores the two halves of the handler address. *)
Definition store_offsets (str : idt_desc_t) (handler : Z) : idt_desc_t :=
  mk_desc (present str) (dpl str) (reserved0 str) (size str) (reserved1 str)
          (reserved2 str) (reserved3 str) (reserved4 str) (seg_selector str)
          (Z.land handler 0xFFFF)
          (Z.shiftr (Z.land handler 0xFFFF0000) 16).

(** The vectors of the PC: 20 exceptions from 0, 256 vectors, the IRQs at
    0x20..0x2F, the syscall gate at 0x80, kernel code segment 0x10. *)
Definition pc_vectors : idt_h :=
  mk_idt_h 20 256 0x10 0x80
           0 1 2 3 4 5 6 7 8 9 10 11 12 13 14 15 16 17 18 19
           0x20 0x21 0x22 0x23 0x24 0x25 0x26 0x27
           0x28 0x29 0x2A 0x2B 0x2C 0x2D 0x2E 0x2F.

(** An address for every entry point, made from the length of its name. *)
Definition entry_points (name : string) : Z :=
  0x400000 + 16 * Z.of_nat (String.length name).

(** A table with nothing in it, and one full of stale gates. *)
Definition empty_table : idt_table :=
  fun _ => mk_desc 0 0 0 0 0 0 0 0 0 0 0.
Definition stale_table : idt_table :=
  fun i => mk_desc 1 3 0 1 1 1 1 0 i i i.

End IdtInitSpec.

Module FileSpec.

Import File.

(** An array of file objects as a new process finds it: whatever the
    memory held. *)
Definition garbage : files_t := fun i => mk_file (Z.even i) fops_mouse i i.

(** The table of a process with 8 descriptors that has the RTC open as
    descriptor 3. *)
Definition rtc_open_as_3 : files_t :=
  set_file (file_init 8 0 1 garbage) 3 (mk_file true fops_rtc 0 0).

(** Operations that succeed and leave the file object alone: a read or
    write of [nbytes] bytes, a close. *)
Definition transfer_all (t : file_ops_t) (file : file_obj_t)
           (buf nbytes : Z) (w : unit) : Z * file_obj_t * unit :=
  (nbytes, file, w).
Definition close_ok (t : file_ops_t) (file : file_obj_t) (w : unit)
  : Z * file_obj_t * unit :=
  (0, file, w).

End FileSpec.

(* ================================================================== *)
(** * Properties *)
(* ================================================================== *)

(** ** Machine integers *)

Module Int32Facts.

Import Int32.

Lemma wrap_small (x : Z) : in_range x -> wrap x = x.
Proof.
  unfold in_range, wrap, min_signed, max_signed, half, modulus.
  intros Hx. rewrite Z.mod_small by lia. lia.
Qed.

Lemma wrap_in_range (x : Z) : in_range (wrap x).
Proof.
  unfold in_range, wrap, min_signed, max_signed, half, modulus.
  pose proof (Z.mod_pos_bound (x + 2 ^ 31) (2 ^ 32)). lia.
Qed.

Lemma add_small (x y : Z) : in_range (x + y) -> add x y = x + y.
Proof. apply wrap_small. Qed.

Lemma sub_small (x y : Z) : in_range (x - y) -> sub x y = x - y.
Proof. apply wrap_small. Qed.

Lemma mul_small (x y : Z) : in_range (x * y) -> mul x y = x * y.
Proof. apply wrap_small. Qed.

Lemma shl1_small (x : Z) : in_range (2 * x) -> shl x 1 = 2 * x.
Proof.
  intros Hx. unfold shl. rewrite Z.shiftl_mul_pow2 by lia.
  change (2 ^ 1) with 2. rewrite (Z.mul_comm x 2). now apply wrap_small.
Qed.

Lemma usub_add (base line : Z) :
  0 <= line < modulus -> usub (base + line) base = line.
Proof.
  intros Hl. unfold usub, uwrap.
  replace (base + line - base) with line by lia.
  now apply Z.mod_small.
Qed.

Lemma in_range_bounds (x : Z) :
  - 2147483648 <= x <= 2147483647 -> in_range x.
Proof. unfold in_range, min_signed, max_signed, half. lia. Qed.

End Int32Facts.

(** Rewrites 32-bit operations whose exact result is in range. *)
Ltac int32 :=
  repeat first
    [ rewrite Int32Facts.add_small by (apply Int32Facts.in_range_bounds; lia)
    | rewrite Int32Facts.sub_small by (apply Int32Facts.in_range_bounds; lia)
    | rewrite Int32Facts.mul_small by (apply Int32Facts.in_range_bounds; lia)
    | rewrite Int32Facts.shl1_small by (apply Int32Facts.in_range_bounds; lia) ].

(** ** Memory *)

Module MemFacts.

Lemma store_same (m : mem) (a v : Z) : store m a v a = v.
Proof. unfold store. now rewrite Z.eqb_refl. Qed.

Lemma store_other (m : mem) (a v o : Z) : o <> a -> store m a v o = m o.
Proof. unfold store. intros H. apply Z.eqb_neq in H. now rewrite H. Qed.

Lemma in_block_true (dst n o : Z) :
  dst <= o < dst + n -> in_block dst n o = true.
Proof.
  intros H. unfold in_block.
  apply andb_true_iff. split; [ apply Z.leb_le | apply Z.ltb_lt ]; lia.
Qed.

Lemma in_block_false (dst n o : Z) :
  o < dst \/ dst + n <= o -> in_block dst n o = false.
Proof.
  intros H. unfold in_block. apply andb_false_iff.
  destruct H; [ left; apply Z.leb_gt | right; apply Z.ltb_ge ]; lia.
Qed.

Lemma memmove_nothing (m : mem) (dst src o : Z) : memmove m dst src 0 o = m o.
Proof.
  unfold memmove, in_block.
  destruct (dst <=? o) eqn:E1; destruct (o <? dst + 0) eqn:E2;
    cbn [andb]; try reflexivity.
  apply Z.leb_le in E1. apply Z.ltb_lt in E2. lia.
Qed.

End MemFacts.

(** ** The terminal: cursor, screen and scrolling *)

Module TerminalScreen.

Import Terminal TerminalSpec MemFacts.

Lemma scroll_if_needed_x (term : terminal_state_t) :
  screen_x (cursor (scroll_if_needed term)) = screen_x (cursor term) /\
  logical_x (cursor (scroll_if_needed term)) = logical_x (cursor term).
Proof.
  unfold scroll_if_needed.
  destruct (screen_y (cursor term) >=? NUM_ROWS); split; reflexivity.
Qed.

Lemma terminal_write_char_cursor (term : terminal_state_t) (c : Z) :
  cursor (terminal_write_char term c) = cursor term.
Proof. reflexivity. Qed.

Lemma terminal_clear_cursor (term : terminal_state_t) :
  cursor (terminal_clear term) = mk_cursor 0 0 0.
Proof. reflexivity. Qed.

Lemma terminal_clear_cursor_ok (term : terminal_state_t) :
  cursor_ok (terminal_clear term).
Proof.
  unfold cursor_ok. rewrite terminal_clear_cursor. cbn [screen_x logical_x].
  unfold NUM_COLS. lia.
Qed.

Lemma putc_newline_cursor_ok (c : Z) (term : terminal_state_t) :
  c = NEWLINE \/ c = CARRIAGE -> cursor_ok (terminal_putc c term).
Proof.
  intros Hc. unfold terminal_putc.
  replace ((c =? NEWLINE) || (c =? CARRIAGE)) with true
    by (destruct Hc; subst c; reflexivity).
  unfold cursor_ok.
  destruct (scroll_if_needed_x
    (set_cursor term (mk_cursor 0 0 (Int32.add (screen_y (cursor term)) 1))))
    as [-> ->].
  cbn [set_cursor cursor screen_x logical_x]. unfold NUM_COLS. lia.
Qed.

Lemma putc_backspace_cursor_ok (term : terminal_state_t) :
  cursor_ok term -> logical_x (cursor term) <= Int32.max_signed ->
  cursor_ok (terminal_putc BACKSPACE term).
Proof.
  unfold cursor_ok, NUM_COLS, Int32.max_signed, Int32.half.
  intros [Hx Hl] Hmax. unfold terminal_putc.
  change ((BACKSPACE =? NEWLINE) || (BACKSPACE =? CARRIAGE)) with false.
  change (BACKSPACE =? BACKSPACE) with true. cbv iota.
  destruct (Z.gtb_spec (logical_x (cursor term)) 0) as [Hpos | Hnpos];
    [ | split; assumption ].
  rewrite terminal_write_char_cursor.
  rewrite (Int32Facts.sub_small (screen_x (cursor term)) 1)
    by (apply Int32Facts.in_range_bounds; lia).
  rewrite (Int32Facts.sub_small (logical_x (cursor term)) 1)
    by (apply Int32Facts.in_range_bounds; lia).
  destruct (Z.ltb_spec (screen_x (cursor term) - 1) 0) as [Hneg | Hnneg];
    cbn [set_cursor cursor screen_x logical_x].
  - unfold NUM_COLS. int32. lia.
  - lia.
Qed.

Lemma putc_plain_cursor_ok (c : Z) (term : terminal_state_t) :
  c <> NEWLINE -> c <> CARRIAGE -> c <> BACKSPACE ->
  cursor_ok term -> logical_x (cursor term) < Int32.max_signed ->
  cursor_ok (terminal_putc c term).
Proof.
  unfold cursor_ok, NUM_COLS, Int32.max_signed, Int32.half.
  intros Hn Hr Hb [Hx Hl] Hmax. unfold terminal_putc.
  apply Z.eqb_neq in Hn, Hr, Hb. rewrite Hn, Hr, Hb. cbn [orb].
  match goal with
  | |- context [scroll_if_needed ?t] =>
      destruct (scroll_if_needed_x t) as [-> ->]
  end.
  rewrite (Int32Facts.add_small (screen_x (cursor term)) 1)
    by (apply Int32Facts.in_range_bounds; lia).
  rewrite (Int32Facts.add_small (logical_x (cursor term)) 1)
    by (apply Int32Facts.in_range_bounds; lia).
  destruct (Z.geb_spec (screen_x (cursor term) + 1) NUM_COLS) as [Hge | Hlt];
    unfold NUM_COLS in *; cbn [set_cursor cursor screen_x logical_x].
  - int32. lia.
  - lia.
Qed.

(** C6, as amended.  [terminal_clear] always establishes the cursor
    invariant, and [terminal_putc] preserves it (screen_x in
    [[0, NUM_COLS)], logical_x >= 0, the backspace that wraps screen_x up a
    row included) from every state whose logical_x is an [int32_t] value,
    unless logical_x is already [INT32_MAX] and the byte is a plain one. *)
Theorem C6_cursor_invariant_preserved (term : terminal_state_t) (c : Z) :
  cursor_ok term ->
  logical_x (cursor term) <= Int32.max_signed ->
  (logical_x (cursor term) = Int32.max_signed ->
   c = NEWLINE \/ c = CARRIAGE \/ c = BACKSPACE) ->
  cursor_ok (terminal_putc c term) /\ cursor_ok (terminal_clear term).
Proof.
  intros Hok Hmax Hedge. split; [ | apply terminal_clear_cursor_ok ].
  destruct (Z.eq_dec c NEWLINE) as [Hn | Hn];
    [ apply putc_newline_cursor_ok; now left | ].
  destruct (Z.eq_dec c CARRIAGE) as [Hr | Hr];
    [ apply putc_newline_cursor_ok; now right | ].
  destruct (Z.eq_dec c BACKSPACE) as [Hb | Hb];
    [ subst c; now apply putc_backspace_cursor_ok | ].
  apply putc_plain_cursor_ok; try assumption.
  destruct (Z.eq_dec (logical_x (cursor term)) Int32.max_signed) as [He | He];
    [ | lia ].
  destruct (Hedge He) as [? | [? | ?]]; contradiction.
Qed.

Lemma C6_cursor_invariant_preserved_witness :
  cursor_ok (terminal_putc BACKSPACE (blank_terminal 80 0 1)) /\
  cursor_ok (terminal_clear (blank_terminal 80 0 1)).
Proof.
  apply (C6_cursor_invariant_preserved (blank_terminal 80 0 1) BACKSPACE).
  - unfold cursor_ok, NUM_COLS; simpl; lia.
  - vm_compute; discriminate.
  - intros _; right; right; reflexivity.
Defined.

(** C6 as stated fails: a plain byte printed when logical_x is [INT32_MAX]
    makes [logical_x++] wrap to [INT32_MIN]. *)
Lemma C6_logical_x_wraps :
  cursor_ok (blank_terminal 2147483647 0 0) /\
  logical_x (cursor (terminal_putc 97 (blank_terminal 2147483647 0 0)))
    = -2147483648 /\
  ~ cursor_ok (terminal_putc 97 (blank_terminal 2147483647 0 0)).
Proof.
  split; [ unfold cursor_ok, NUM_COLS; simpl; lia | ].
  split; [ vm_compute; reflexivity | ].
  unfold cursor_ok. intros [_ Hl].
  assert (E : logical_x (cursor (terminal_putc 97 (blank_terminal 2147483647 0 0)))
              = -2147483648) by (vm_compute; reflexivity).
  rewrite E in Hl. lia.
Qed.

(** *** Filling the screen *)

Lemma cell_offset_small (x y : Z) :
  0 <= x < NUM_COLS -> 0 <= y <= NUM_ROWS ->
  cell_offset x y = 2 * (y * NUM_COLS + x).
Proof.
  unfold cell_offset, NUM_COLS, NUM_ROWS. intros Hx Hy. int32. reflexivity.
Qed.

Lemma write_char_cells (term : terminal_state_t) (c k : Z) :
  at_cell term k -> screen_y (cursor term) <= NUM_ROWS ->
  let v := video_mem (terminal_write_char term c) in
  v (2 * k) = c /\ v (2 * k + 1) = ATTRIB /\
  (forall o, o <> 2 * k -> o <> 2 * k + 1 -> v o = video_mem term o).
Proof.
  intros (Hx & Hy & Hk) Hrow.
  unfold terminal_write_char. cbn [video_mem set_video].
  rewrite (cell_offset_small _ _ Hx (conj Hy Hrow)). rewrite Hk.
  unfold NUM_COLS, NUM_ROWS in *. int32. rewrite Z.add_0_r.
  repeat split.
  - rewrite store_other by lia. apply store_same.
  - apply store_same.
  - intros o H0 H1. now rewrite !store_other by lia.
Qed.

(** One plain byte printed anywhere but in the last cell of the screen. *)
Lemma putc_plain_no_scroll (c : Z) (term : terminal_state_t) (k : Z) :
  plain c -> at_cell term k -> k + 1 < NUM_ROWS * NUM_COLS ->
  0 <= logical_x (cursor term) < 1000000 ->
  let t' := terminal_putc c term in
  at_cell t' (k + 1) /\
  logical_x (cursor t') = logical_x (cursor term) + 1 /\
  video_mem t' (2 * k) = c /\ video_mem t' (2 * k + 1) = ATTRIB /\
  (forall o, o <> 2 * k -> o <> 2 * k + 1 -> video_mem t' o = video_mem term o).
Proof.
  intros (Hc & Hn & Hr & Hb) Hat Hlim Hl.
  assert (Hrow : screen_y (cursor term) <= NUM_ROWS)
    by (destruct Hat as (Hx & Hy & Hk); unfold NUM_ROWS, NUM_COLS in *; lia).
  destruct (write_char_cells term c k Hat Hrow) as (W0 & W1 & Wo).
  destruct Hat as (Hx & Hy & Hk).
  unfold terminal_putc.
  apply Z.eqb_neq in Hn, Hr, Hb. rewrite Hn, Hr, Hb. cbn [orb].
  unfold NUM_ROWS, NUM_COLS in *.
  rewrite (Int32Facts.add_small (screen_x (cursor term)) 1)
    by (apply Int32Facts.in_range_bounds; lia).
  rewrite (Int32Facts.add_small (logical_x (cursor term)) 1)
    by (apply Int32Facts.in_range_bounds; lia).
  unfold scroll_if_needed.
  destruct (Z.geb_spec (screen_x (cursor term) + 1) 80) as [Hge | Hlt];
    cbn [set_cursor cursor screen_y screen_x logical_x video_mem].
  - rewrite (Int32Facts.add_small (screen_y (cursor term)) 1)
      by (apply Int32Facts.in_range_bounds; lia).
    destruct (Z.geb_spec (screen_y (cursor term) + 1) NUM_ROWS) as [Hs | Hs];
      unfold NUM_ROWS in Hs; [ lia | ].
    unfold at_cell, NUM_COLS.
    cbn [set_cursor cursor screen_y screen_x logical_x video_mem]. int32.
    repeat split; try assumption; lia.
  - destruct (Z.geb_spec (screen_y (cursor term)) NUM_ROWS) as [Hs | Hs];
      unfold NUM_ROWS in Hs; [ lia | ].
    unfold at_cell, NUM_COLS.
    cbn [set_cursor cursor screen_y screen_x logical_x video_mem].
    repeat split; try assumption; lia.
Qed.

(** A run of plain bytes that ends before the last cell of the screen:
    the bytes land in consecutive cells and nothing else changes. *)
Lemma write_all_no_scroll (cs : list Z) :
  forall (term : terminal_state_t) (k : Z),
    Forall plain cs -> at_cell term k -> 0 <= k ->
    k + Z.of_nat (List.length cs) < NUM_ROWS * NUM_COLS ->
    0 <= logical_x (cursor term) ->
    logical_x (cursor term) + Z.of_nat (List.length cs) < 1000000 ->
    let t' := write_all cs term in
    at_cell t' (k + Z.of_nat (List.length cs)) /\
    logical_x (cursor t') = logical_x (cursor term) + Z.of_nat (List.length cs) /\
    (forall j, (j < List.length cs)%nat ->
       video_mem t' (2 * (k + Z.of_nat j)) = nth j cs 0 /\
       video_mem t' (2 * (k + Z.of_nat j) + 1) = ATTRIB) /\
    (forall o, o < 2 * k \/ 2 * (k + Z.of_nat (List.length cs)) <= o ->
       video_mem t' o = video_mem term o).
Proof.
  induction cs as [ | c cs IH ]; intros term k Hpl Hat Hk Hlim Hl0 Hl1.
  - cbn [write_all fold_left List.length Z.of_nat]. rewrite !Z.add_0_r.
    split; [ assumption | ]. split; [ reflexivity | ].
    split; [ intros j Hj; inversion Hj | reflexivity ].
  - inversion Hpl as [ | c' cs' Hc Hcs ]; subst c' cs'.
    cbn [List.length] in *. rewrite Nat2Z.inj_succ in *.
    destruct (putc_plain_no_scroll c term k Hc Hat) as (A1 & L1 & V0 & V1 & Vo);
      [ lia | lia | ].
    specialize (IH (terminal_putc c term) (k + 1) Hcs A1).
    destruct IH as (A2 & L2 & Vj & Vframe); [ lia | lia | lia | lia | ].
    change (write_all (c :: cs) term) with (write_all cs (terminal_putc c term)).
    cbv zeta.
    replace (k + Z.succ (Z.of_nat (List.length cs)))
      with (k + 1 + Z.of_nat (List.length cs)) by lia.
    split; [ exact A2 | ]. split; [ lia | ]. split.
    + intros [ | j ] Hj.
      * cbn [nth Z.of_nat]. rewrite Z.add_0_r.
        rewrite !Vframe by lia. now split.
      * replace (k + Z.of_nat (S j)) with (k + 1 + Z.of_nat j) by lia.
        cbn [nth]. apply Vj. lia.
    + intros o Ho. rewrite Vframe by lia. apply Vo; lia.
Qed.

(** [terminal_scroll_down] moves every row but the first up by one row. *)
Lemma scroll_down_rows (term : terminal_state_t) (o : Z) :
  0 <= o < 2 * NUM_COLS * (NUM_ROWS - 1) ->
  video_mem (terminal_scroll_down term) o = video_mem term (o + 2 * NUM_COLS).
Proof.
  unfold NUM_COLS, NUM_ROWS. intros Ho.
  unfold terminal_scroll_down. cbn [video_mem set_video].
  change (Int32.shl NUM_COLS 1) with 160.
  change (Int32.sub (Int32.shl (Int32.mul NUM_COLS NUM_ROWS) 1) 160) with 3840.
  unfold memset, memmove.
  rewrite in_block_false by lia. rewrite in_block_true by lia.
  f_equal. lia.
Qed.

(** ... and blanks the bottom row with zero bytes. *)
Lemma scroll_down_last_row (term : terminal_state_t) (o : Z) :
  2 * NUM_COLS * (NUM_ROWS - 1) <= o < 2 * NUM_COLS * NUM_ROWS ->
  video_mem (terminal_scroll_down term) o = 0.
Proof.
  unfold NUM_COLS, NUM_ROWS. intros Ho.
  unfold terminal_scroll_down. cbn [video_mem set_video].
  change (Int32.shl NUM_COLS 1) with 160.
  change (Int32.sub (Int32.shl (Int32.mul NUM_COLS NUM_ROWS) 1) 160) with 3840.
  unfold memset. rewrite in_block_true by lia. reflexivity.
Qed.

(** A plain byte printed in the last cell of the screen scrolls it. *)
Lemma putc_plain_last_cell (c : Z) (term : terminal_state_t) :
  plain c -> at_cell term (NUM_ROWS * NUM_COLS - 1) ->
  0 <= logical_x (cursor term) < 1000000 ->
  let t' := terminal_putc c term in
  at_cell t' ((NUM_ROWS - 1) * NUM_COLS) /\
  logical_x (cursor t') = logical_x (cursor term) + 1 /\
  (forall o, 0 <= o < 2 * NUM_COLS * (NUM_ROWS - 2) ->
     video_mem t' o = video_mem term (o + 2 * NUM_COLS)).
Proof.
  intros (Hc & Hn & Hr & Hb) Hat Hl.
  assert (Hrow : screen_y (cursor term) <= NUM_ROWS)
    by (destruct Hat as (Hx & Hy & Hk); unfold NUM_ROWS, NUM_COLS in *; lia).
  destruct (write_char_cells term c _ Hat Hrow) as (_ & _ & Wo).
  destruct Hat as (Hx & Hy & Hk).
  unfold terminal_putc.
  apply Z.eqb_neq in Hn, Hr, Hb. rewrite Hn, Hr, Hb. cbn [orb].
  unfold NUM_ROWS, NUM_COLS in *.
  assert (Ex : screen_x (cursor term) = 79) by lia.
  assert (Ey : screen_y (cursor term) = 24) by lia.
  rewrite (Int32Facts.add_small (logical_x (cursor term)) 1)
    by (apply Int32Facts.in_range_bounds; lia).
  rewrite Ex, Ey.
  change (Int32.add 79 1 >=? 80) with true. cbv iota.
  change (Int32.sub (Int32.add 79 1) 80) with 0.
  change (Int32.add 24 1) with 25.
  unfold scroll_if_needed.
  cbn [set_cursor cursor screen_y screen_x logical_x video_mem].
  change (25 >=? NUM_ROWS) with true. cbv iota.
  unfold at_cell, NUM_COLS.
  cbn [set_cursor cursor screen_y screen_x logical_x video_mem
       terminal_scroll_down set_video].
  change (Int32.sub 25 1) with 24.
  repeat split; try lia.
  intros o Ho.
  change (memset _ _ _ _ o)
    with (video_mem (terminal_scroll_down
                       (set_cursor (terminal_write_char term c)
                          (mk_cursor (logical_x (cursor term) + 1) 0 25))) o).
  rewrite scroll_down_rows by (unfold NUM_COLS, NUM_ROWS; lia).
  cbn [set_cursor video_mem]. unfold NUM_COLS. apply Wo; lia.
Qed.

Lemma split_last_two (l : list Z) (n : Z) :
  Z.of_nat (List.length l) = n + 2 -> 0 <= n ->
  exists l1 a b, l = l1 ++ [a; b] /\ Z.of_nat (List.length l1) = n.
Proof.
  intros Hlen Hn.
  destruct (rev l) as [ | b [ | a r ] ] eqn:E;
    apply (f_equal (@rev Z)) in E; rewrite rev_involutive in E; subst l;
    cbn [rev app List.length] in *; try lia.
  exists (rev r), a, b. rewrite <- app_assoc. split; [ reflexivity | ].
  rewrite !length_app in Hlen. cbn [List.length] in Hlen. lia.
Qed.

(** C7.  From a cleared terminal, after exactly NUM_ROWS * NUM_COLS + 1
    plain bytes the first screen row holds bytes 80..159 of the sequence
    (with the attribute byte), which is what the second row held in the
    state the last byte before the scroll was printed in, and the cursor is
    on the last screen row. *)
Theorem C7_scroll_after_full_screen (cs : list Z) (term : terminal_state_t) :
  Z.of_nat (List.length cs) = NUM_ROWS * NUM_COLS + 1 ->
  Forall plain cs ->
  let t0 := terminal_clear term in
  let t := snd (terminal_write cs t0) in
  (forall j, 0 <= j < NUM_COLS ->
     video_mem t (2 * j) = nth (Z.to_nat (NUM_COLS + j)) cs 0 /\
     video_mem t (2 * j + 1) = ATTRIB) /\
  (forall o, 0 <= o < 2 * NUM_COLS ->
     video_mem t o =
     video_mem (write_all (firstn (Z.to_nat (NUM_ROWS * NUM_COLS - 1)) cs) t0)
               (o + 2 * NUM_COLS)) /\
  screen_y (cursor t) = NUM_ROWS - 1.
Proof.
  intros Hlen Hpl t0 t.
  destruct (split_last_two cs (NUM_ROWS * NUM_COLS - 1)) as (cs1 & a & b & E & Hlen1);
    [ lia | unfold NUM_ROWS, NUM_COLS; lia | ].
  subst cs.
  apply Forall_app in Hpl. destruct Hpl as [Hpl1 Hab].
  inversion Hab as [ | ? ? Ha Hb' ]; subst.
  inversion Hb' as [ | ? ? Hb _ ]; subst.
  assert (Hat0 : at_cell t0 0)
    by (unfold at_cell, t0; rewrite terminal_clear_cursor;
        cbn [screen_x screen_y]; unfold NUM_COLS; lia).
  assert (Hl0 : logical_x (cursor t0) = 0) by reflexivity.
  unfold NUM_ROWS, NUM_COLS in Hlen1.
  (* the first 1999 bytes fill the screen up to its last cell *)
  destruct (write_all_no_scroll cs1 t0 0 Hpl1 Hat0) as (A1 & L1 & V1 & _);
    try (unfold NUM_ROWS, NUM_COLS; lia).
  set (t1 := write_all cs1 t0) in *.
  rewrite Hlen1 in A1, L1. rewrite Hl0 in L1.
  (* byte 2000 goes to the last cell and scrolls *)
  destruct (putc_plain_last_cell a t1 Ha) as (A2 & L2 & V2);
    [ exact A1 | lia | ].
  set (t2 := terminal_putc a t1) in *.
  (* byte 2001 goes to the first cell of the last row *)
  destruct (putc_plain_no_scroll b t2 _ Hb A2) as (A3 & L3 & _ & _ & V3);
    [ unfold NUM_ROWS, NUM_COLS; lia | lia | ].
  assert (Et : t = terminal_putc b t2).
  { unfold t, terminal_write. cbn [snd]. rewrite fold_left_app. reflexivity. }
  rewrite Et. clear Et.
  assert (Efirst : firstn (Z.to_nat (NUM_ROWS * NUM_COLS - 1)) (cs1 ++ [a; b]) = cs1).
  { replace (Z.to_nat (NUM_ROWS * NUM_COLS - 1)) with (List.length cs1)
      by (unfold NUM_ROWS, NUM_COLS; lia).
    rewrite firstn_app, Nat.sub_diag, firstn_all. cbn [firstn]. apply app_nil_r. }
  rewrite Efirst. fold t1.
  unfold NUM_ROWS, NUM_COLS in *.
  split; [ | split ].
  - intros j Hj.
    rewrite !V3 by lia. rewrite !V2 by lia.
    destruct (V1 (Z.to_nat (80 + j))) as [W0 W1]; [ lia | ].
    rewrite Z2Nat.id in W0, W1 by lia.
    rewrite app_nth1 by lia.
    replace (2 * j + 2 * 80) with (2 * (0 + (80 + j))) by lia.
    replace (2 * j + 1 + 2 * 80) with (2 * (0 + (80 + j)) + 1) by lia.
    now split.
  - intros o Ho. rewrite V3 by lia. apply V2. lia.
  - unfold at_cell, NUM_COLS in A3. destruct A3 as (Hx & Hy & Hk). lia.
Qed.

Lemma C7_scroll_after_full_screen_witness :
  (forall j, 0 <= j < NUM_COLS ->
     video_mem
       (snd (terminal_write full_screen_and_one
               (terminal_clear (blank_terminal 5 5 5)))) (2 * j)
     = nth (Z.to_nat (NUM_COLS + j)) full_screen_and_one 0 /\
     video_mem
       (snd (terminal_write full_screen_and_one
               (terminal_clear (blank_terminal 5 5 5)))) (2 * j + 1)
     = ATTRIB) /\
  (forall o, 0 <= o < 2 * NUM_COLS ->
     video_mem
       (snd (terminal_write full_screen_and_one
               (terminal_clear (blank_terminal 5 5 5)))) o
     = video_mem
         (write_all
            (firstn (Z.to_nat (NUM_ROWS * NUM_COLS - 1)) full_screen_and_one)
            (terminal_clear (blank_terminal 5 5 5)))
         (o + 2 * NUM_COLS)) /\
  screen_y
    (cursor (snd (terminal_write full_screen_and_one
                    (terminal_clear (blank_terminal 5 5 5)))))
  = NUM_ROWS - 1.
Proof.
  apply (C7_scroll_after_full_screen full_screen_and_one (blank_terminal 5 5 5)).
  - vm_compute. reflexivity.
  - unfold full_screen_and_one. repeat (apply Forall_app; split);
      apply Forall_forall; intros x Hx; apply repeat_spec in Hx; subst x;
      unfold plain, NEWLINE, CARRIAGE, BACKSPACE; lia.
Defined.

End TerminalScreen.

(** ** The terminal: buffered input and the blocking read *)

Module TerminalInput.

Import Terminal TerminalSpec MemFacts.

Lemma to_nat_nonpos (n : Z) : n <= 0 -> Z.to_nat n = 0%nat.
Proof. destruct n; intros H; try reflexivity. lia. Qed.

Lemma terminal_putc_input (c : Z) (term : terminal_state_t) :
  input (terminal_putc c term) = input term.
Proof.
  unfold terminal_putc, scroll_if_needed.
  repeat match goal with
         | |- context [if ?b then _ else _] => destruct b
         end; reflexivity.
Qed.

(** C10.  With nbytes <= 0, [terminal_read] returns 0 whatever the halts
    would deliver, and consumes none of them: [wait_until_readable] does not
    enter its loop.  Nothing is stored through [dest], and the buffer, its
    count, the cursor, the screen and the displayed terminal are as before.
    The stored count is taken to be a count: a non-negative [int32_t]. *)
Theorem C10_read_nonpositive_returns_at_once
  (TERMINAL_BUF_SIZE : Z) (future : list wakeup) (g : globals) (nbytes : Z) :
  nbytes <= 0 ->
  0 <= count (input_of g) <= Int32.max_signed ->
  exists r,
    terminal_read TERMINAL_BUF_SIZE future g nbytes = Some r /\
    read_ret r = 0 /\
    read_dest r = [] /\
    read_future r = future /\
    (forall o, buf (input_of (read_globals r)) o = buf (input_of g) o) /\
    count (input_of (read_globals r)) = count (input_of g) /\
    cursor (executing_terminal (read_globals r)) = cursor (executing_terminal g) /\
    video_mem (executing_terminal (read_globals r))
      = video_mem (executing_terminal g) /\
    display_terminal (read_globals r) = display_terminal g.
Proof.
  intros Hn Hc. unfold input_of in *. unfold terminal_read.
  set (n := if nbytes >? TERMINAL_BUF_SIZE then TERMINAL_BUF_SIZE else nbytes).
  assert (Hn' : n <= 0).
  { unfold n. destruct (Z.gtb_spec nbytes TERMINAL_BUF_SIZE); lia. }
  assert (Hw : wait_until_readable TERMINAL_BUF_SIZE future g n
               = Some (n, g, future)).
  { destruct future; cbn [wait_until_readable];
      destruct (Z.gtb_spec n (count (input (executing_terminal g))));
      try lia; reflexivity. }
  rewrite Hw. rewrite (to_nat_nonpos n Hn'). cbn [copy_out].
  eexists. split; [ reflexivity | ].
  cbn [read_ret read_dest read_future read_globals executing_terminal
       display_terminal set_input input cursor video_mem buf count].
  repeat split.
  - intros o. apply memmove_nothing.
  - unfold Int32.max_signed, Int32.half in Hc.
    rewrite Int32Facts.sub_small by (apply Int32Facts.in_range_bounds; lia).
    apply Z.sub_0_r.
Qed.

Lemma C10_read_nonpositive_returns_at_once_witness :
  exists r,
    terminal_read 128 [[KTYP_CHAR 10]] (buffered [97; 98]) (-1) = Some r /\
    read_ret r = 0 /\
    read_dest r = [] /\
    read_future r = [[KTYP_CHAR 10]] /\
    (forall o, buf (input_of (read_globals r)) o
               = buf (input_of (buffered [97; 98])) o) /\
    count (input_of (read_globals r)) = count (input_of (buffered [97; 98])) /\
    cursor (executing_terminal (read_globals r))
      = cursor (executing_terminal (buffered [97; 98])) /\
    video_mem (executing_terminal (read_globals r))
      = video_mem (executing_terminal (buffered [97; 98])) /\
    display_terminal (read_globals r) = display_terminal (buffered [97; 98]).
Proof.
  apply (C10_read_nonpositive_returns_at_once 128 [[KTYP_CHAR 10]]
           (buffered [97; 98]) (-1)).
  - lia.
  - vm_compute. split; discriminate.
Defined.

(** C1 at the failing input.  The buffer holds the three bytes a, newline,
    b.  A read of 3 returns all three bytes, past the newline; a read of 4
    from the same buffer takes the other path and stops after the newline. *)
Theorem C1_read_runs_past_newline :
  (exists r,
     terminal_read 128 [] (buffered [97; 10; 98]) 3 = Some r /\
     read_ret r = 3 /\ read_dest r = [97; 10; 98]) /\
  (exists r,
     terminal_read 128 [] (buffered [97; 10; 98]) 4 = Some r /\
     read_ret r = 2 /\ read_dest r = [97; 10]).
Proof.
  split; eexists; (split; [ vm_compute; reflexivity | split; reflexivity ]).
Qed.

(** C2 at the failing input.  The buffer holds a b c d e and 2 bytes are
    read: the call returns 2 and the count drops to 3, but only 2 of the 3
    remaining bytes were moved, so the buffer now starts c d c. *)
Theorem C2_shift_moves_too_few_bytes :
  exists r,
    terminal_read 128 [] (buffered [97; 98; 99; 100; 101]) 2 = Some r /\
    read_ret r = 2 /\
    read_dest r = [97; 98] /\
    count (input_of (read_globals r)) = 3 /\
    prefix (buf (input_of (read_globals r))) 3 = [99; 100; 99] /\
    prefix (buf (input_of (read_globals r))) 3 <> [99; 100; 101].
Proof.
  eexists. split; [ vm_compute; reflexivity | ].
  repeat split; try (vm_compute; reflexivity).
  vm_compute. discriminate.
Qed.

(** *** What the read does in general *)

Section Reading.

Variable TERMINAL_BUF_SIZE : Z.

Local Abbreviation count_ok := (TerminalSpec.count_ok TERMINAL_BUF_SIZE).

Lemma wait_unfold (future : list wakeup) (g : globals) (n : Z) :
  wait_until_readable TERMINAL_BUF_SIZE future g n =
  if n >? count (input_of g) then
    match scan_newline (buf (input_of g)) (Z.to_nat (count (input_of g))) 0 with
    | Some k => Some (k, g, future)
    | None =>
        match future with
        | [] => None
        | w :: future' =>
            wait_until_readable TERMINAL_BUF_SIZE future' (deliver TERMINAL_BUF_SIZE w g) n
        end
    end
  else Some (n, g, future).
Proof. destruct future; reflexivity. Qed.

Lemma handle_char_input_append (c : Z) (term : terminal_state_t) :
  c <> BACKSPACE ->
  0 <= count (input term) < TERMINAL_BUF_SIZE ->
  count (input term) < Int32.max_signed ->
  input (handle_char_input TERMINAL_BUF_SIZE c term)
  = mk_input (store (buf (input term)) (count (input term)) c)
             (count (input term) + 1).
Proof.
  intros Hb Hc Hm. unfold handle_char_input.
  apply Z.eqb_neq in Hb. rewrite Hb. cbn [andb negb].
  destruct (Z.ltb_spec (count (input term)) TERMINAL_BUF_SIZE); [ | lia ].
  rewrite terminal_putc_input. cbn [set_input input].
  unfold Int32.max_signed, Int32.half in Hm. int32. reflexivity.
Qed.

Lemma deliver_char (c : Z) (g : globals) :
  c <> BACKSPACE ->
  0 <= count (input_of g) < TERMINAL_BUF_SIZE ->
  count (input_of g) < Int32.max_signed ->
  input_of (deliver TERMINAL_BUF_SIZE [KTYP_CHAR c] g)
  = mk_input (store (buf (input_of g)) (count (input_of g)) c)
             (count (input_of g) + 1).
Proof.
  intros Hb Hc Hm. unfold input_of, deliver.
  cbn [fold_left terminal_handle_input on_executing executing_terminal].
  now apply handle_char_input_append.
Qed.

(** The buffer size is a size, and an [int32_t]. *)
Hypothesis buf_size_ok : 0 <= TERMINAL_BUF_SIZE <= Int32.max_signed.

Lemma handle_input_count_ok (inp : kbd_input_t) (g : globals) :
  count_ok g -> count_ok (terminal_handle_input TERMINAL_BUF_SIZE inp g).
Proof.
  unfold TerminalSpec.count_ok, input_of. intros Hc.
  pose proof buf_size_ok as HB. unfold Int32.max_signed, Int32.half in HB.
  destruct inp as [ | c | ctrl ]; [ exact Hc | | destruct ctrl; exact Hc ].
  cbn [terminal_handle_input on_executing executing_terminal].
  unfold handle_char_input.
  destruct ((c =? BACKSPACE) && (count (input (executing_terminal g)) >? 0)) eqn:E1.
  - apply andb_true_iff in E1. destruct E1 as [_ E1].
    rewrite terminal_putc_input. cbn [set_input input count].
    destruct (Z.gtb_spec (count (input (executing_terminal g))) 0);
      [ | discriminate ].
    int32. lia.
  - destruct (negb (c =? BACKSPACE)
              && (count (input (executing_terminal g)) <? TERMINAL_BUF_SIZE)) eqn:E2;
      [ | exact Hc ].
    apply andb_true_iff in E2. destruct E2 as [_ E2].
    rewrite terminal_putc_input. cbn [set_input input count].
    apply Z.ltb_lt in E2. int32. lia.
Qed.

Lemma deliver_count_ok (w : wakeup) :
  forall g, count_ok g -> count_ok (deliver TERMINAL_BUF_SIZE w g).
Proof.
  induction w as [ | inp w IH ]; intros g Hg; [ exact Hg | ].
  cbn [deliver fold_left]. apply IH. now apply handle_input_count_ok.
Qed.

Lemma scan_newline_some (b : mem) (n : nat) :
  forall i k,
    0 <= i -> i + Z.of_nat n <= Int32.max_signed ->
    scan_newline b n i = Some k ->
    i < k <= i + Z.of_nat n /\ b (k - 1) = NEWLINE /\
    (forall j, i <= j < k - 1 -> b j <> NEWLINE).
Proof.
  unfold Int32.max_signed, Int32.half.
  induction n as [ | n IH ]; intros i k Hi Hmax Hs; [ discriminate | ].
  cbn [scan_newline] in Hs. rewrite Nat2Z.inj_succ in *.
  rewrite Int32Facts.add_small in Hs by (apply Int32Facts.in_range_bounds; lia).
  destruct (Z.eqb_spec (b i) NEWLINE) as [Enl | Enl].
  - injection Hs as <-. replace (i + 1 - 1) with i by lia.
    repeat split; try lia; try assumption.
  - destruct (IH (i + 1) k) as (Hk & Hnl & Hbefore); try lia; try assumption.
    repeat split; try lia; try assumption.
    intros j Hj. destruct (Z.eq_dec j i) as [-> | Hne]; [ assumption | ].
    apply Hbefore. lia.
Qed.

(** What [wait_until_readable] hands back when it returns: either the
    requested count, which the buffer then holds, or the length of the
    prefix that ends with the first newline of a buffer still shorter than
    the request. *)
Lemma wait_until_readable_result (future : list wakeup) :
  forall g n k g' future',
    count_ok g ->
    wait_until_readable TERMINAL_BUF_SIZE future g n = Some (k, g', future') ->
    count_ok g' /\
    ((k = n /\ n <= count (input_of g')) \/
     (count (input_of g') < n /\ 0 < k <= count (input_of g') /\
      buf (input_of g') (k - 1) = NEWLINE /\
      (forall j, 0 <= j < k - 1 -> buf (input_of g') j <> NEWLINE))).
Proof.
  pose proof buf_size_ok as HB.
  assert (Hscan : forall g n k, count_ok g -> count (input_of g) < n ->
            scan_newline (buf (input_of g)) (Z.to_nat (count (input_of g))) 0
              = Some k ->
            0 < k <= count (input_of g) /\
            buf (input_of g) (k - 1) = NEWLINE /\
            (forall j, 0 <= j < k - 1 -> buf (input_of g) j <> NEWLINE)).
  { intros g n k Hg Hlt Hs. unfold TerminalSpec.count_ok in Hg.
    apply scan_newline_some in Hs; [ | lia | rewrite Z2Nat.id; lia ].
    rewrite Z2Nat.id in Hs by lia. exact Hs. }
  induction future as [ | w future IH ]; intros g n k g' future' Hg Hw;
    rewrite wait_unfold in Hw;
    destruct (Z.gtb_spec n (count (input_of g))) as [Hgt | Hle].
  - destruct (scan_newline _ _ 0) as [k0 | ] eqn:Es; [ | discriminate ].
    injection Hw as <- <- <-. split; [ exact Hg | right ].
    split; [ lia | ]. now apply (Hscan g n).
  - injection Hw as <- <- <-. split; [ exact Hg | left ]. split; [ reflexivity | lia ].
  - destruct (scan_newline _ _ 0) as [k0 | ] eqn:Es.
    + injection Hw as <- <- <-. split; [ exact Hg | right ].
      split; [ lia | ]. now apply (Hscan g n).
    + apply IH in Hw; [ exact Hw | now apply deliver_count_ok ].
  - injection Hw as <- <- <-. split; [ exact Hg | left ]. split; [ reflexivity | lia ].
Qed.

Lemma copy_out_spec (b : mem) (n : nat) :
  forall i,
    0 <= i -> i + Z.of_nat n <= Int32.max_signed ->
    copy_out b n i
    = (i + Z.of_nat n, map (fun j => b (i + Z.of_nat j)) (seq 0 n)).
Proof.
  unfold Int32.max_signed, Int32.half.
  induction n as [ | n IH ]; intros i Hi Hmax.
  - cbn [copy_out seq map Z.of_nat]. now rewrite Z.add_0_r.
  - cbn [copy_out]. rewrite Nat2Z.inj_succ in *.
    rewrite Int32Facts.add_small by (apply Int32Facts.in_range_bounds; lia).
    rewrite IH by lia. f_equal; [ lia | ].
    cbn [seq map Z.of_nat]. rewrite Z.add_0_r. f_equal.
    rewrite <- seq_shift, map_map. apply map_ext. intros j. f_equal. lia.
Qed.

(** What a read that returns has done, relative to the state [g'] in which
    [wait_until_readable] returned: it returns the number [i] of bytes it
    delivered, the delivered bytes are the first [i] of the buffer, the
    count has dropped by [i], and the [i] bytes that followed the delivered
    ones (and no more) have been moved to the front. *)
Lemma terminal_read_effect (future : list wakeup) (g : globals) (nbytes : Z)
      (r : read_result) :
  count_ok g ->
  terminal_read TERMINAL_BUF_SIZE future g nbytes = Some r ->
  exists k g',
    wait_until_readable TERMINAL_BUF_SIZE future g
      (if nbytes >? TERMINAL_BUF_SIZE then TERMINAL_BUF_SIZE else nbytes)
      = Some (k, g', read_future r) /\
    count_ok g' /\
    read_ret r = Z.max 0 k /\
    read_ret r <= count (input_of g') /\
    read_dest r = prefix (buf (input_of g')) (Z.to_nat k) /\
    count (input_of (read_globals r)) = count (input_of g') - read_ret r /\
    (forall o, buf (input_of (read_globals r)) o
               = if in_block 0 (read_ret r) o
                 then buf (input_of g') (read_ret r + o)
                 else buf (input_of g') o).
Proof.
  pose proof buf_size_ok as HB. unfold Int32.max_signed, Int32.half in HB.
  intros Hg Hr. unfold terminal_read in Hr.
  destruct (wait_until_readable _ _ _ _) as [ [ [k g'] future' ] | ] eqn:Ew;
    [ | discriminate ].
  destruct (wait_until_readable_result _ _ _ _ _ _ Hg Ew) as (Hg' & Hk).
  unfold TerminalSpec.count_ok in Hg'.
  assert (Hkc : Z.max 0 k <= count (input_of g')).
  { destruct Hk as [ [-> Hle] | (_ & Hle & _) ]; lia. }
  fold (input_of g') in Hr.
  rewrite copy_out_spec in Hr
    by (unfold Int32.max_signed, Int32.half; lia).
  rewrite Z.add_0_l in Hr.
  assert (Ek : Z.of_nat (Z.to_nat k) = Z.max 0 k) by lia.
  rewrite Ek in Hr. injection Hr as <-.
  exists k, g'.
  cbn [read_ret read_dest read_future read_globals input_of executing_terminal
       set_input input buf count].
  fold (input_of g').
  repeat split; try assumption; try lia;
    try (apply map_ext; intros j; now rewrite Z.add_0_l);
    try (int32; reflexivity).
  intros o. unfold memmove. destruct (in_block 0 (Z.max 0 k) o);
    [ f_equal; lia | reflexivity ].
Qed.

(** The bytes that are moved are moved to the right place: the first
    [read_ret r] bytes of the buffer are the ones that followed the
    delivered bytes. *)
Lemma terminal_read_moves_as_many_as_read (future : list wakeup) (g : globals)
      (nbytes : Z) (r : read_result) :
  count_ok g ->
  terminal_read TERMINAL_BUF_SIZE future g nbytes = Some r ->
  exists g',
    count_ok (read_globals r) /\
    count (input_of (read_globals r)) = count (input_of g') - read_ret r /\
    (forall j, 0 <= j < read_ret r ->
       buf (input_of (read_globals r)) j = buf (input_of g') (read_ret r + j)).
Proof.
  intros Hg Hr.
  destruct (terminal_read_effect _ _ _ _ Hg Hr)
    as (k & g' & _ & Hg' & Hret & Hle & _ & Hcount & Hbuf).
  exists g'. unfold TerminalSpec.count_ok in *. repeat split; try lia.
  intros j Hj. rewrite Hbuf. now rewrite in_block_true by lia.
Qed.

(** *** Reading a line that is typed while the read waits *)

Lemma holds_snoc (g g' : globals) (done : list Z) (c : Z) :
  holds g done ->
  input_of g' = mk_input (store (buf (input_of g)) (count (input_of g)) c)
                         (count (input_of g) + 1) ->
  holds g' (done ++ [c]).
Proof.
  intros [Hc Hb] E. unfold holds. rewrite E. cbn [count buf].
  rewrite length_app. cbn [List.length]. split; [ lia | ].
  intros j Hj. rewrite Hc.
  destruct (Nat.eq_dec j (List.length done)) as [-> | Hne].
  - rewrite store_same. now rewrite nth_middle.
  - rewrite store_other by lia. rewrite app_nth1 by lia. apply Hb. lia.
Qed.

Lemma deliver_bytes (l : list Z) :
  forall g done,
    holds g done ->
    Forall (fun c => c <> BACKSPACE) l ->
    Z.of_nat (List.length done + List.length l) <= TERMINAL_BUF_SIZE ->
    holds (deliver TERMINAL_BUF_SIZE (map KTYP_CHAR l) g) (done ++ l).
Proof.
  pose proof buf_size_ok as HB.
  induction l as [ | c l IH ]; intros g done Hg Hl Hfit.
  - now rewrite app_nil_r.
  - inversion Hl as [ | ? ? Hc Hl' ]; subst.
    cbn [List.length] in Hfit.
    change (deliver TERMINAL_BUF_SIZE (map KTYP_CHAR (c :: l)) g)
      with (deliver TERMINAL_BUF_SIZE (map KTYP_CHAR l)
              (deliver TERMINAL_BUF_SIZE [KTYP_CHAR c] g)).
    replace (done ++ c :: l) with ((done ++ [c]) ++ l)
      by (now rewrite <- app_assoc).
    apply IH; [ | assumption | rewrite length_app; cbn [List.length]; lia ].
    apply (holds_snoc g); [ assumption | ].
    destruct Hg as [Hcount _].
    apply deliver_char; [ assumption | lia | lia ].
Qed.

Lemma scan_newline_none (b : mem) (n : nat) :
  forall i,
    0 <= i -> i + Z.of_nat n <= Int32.max_signed ->
    (forall j, i <= j < i + Z.of_nat n -> b j <> NEWLINE) ->
    scan_newline b n i = None.
Proof.
  unfold Int32.max_signed, Int32.half.
  induction n as [ | n IH ]; intros i Hi Hmax Hno; [ reflexivity | ].
  cbn [scan_newline]. rewrite Nat2Z.inj_succ in *.
  destruct (Z.eqb_spec (b i) NEWLINE) as [E | _];
    [ exfalso; apply (Hno i); [ lia | exact E ] | ].
  rewrite Int32Facts.add_small by (apply Int32Facts.in_range_bounds; lia).
  apply IH; try lia. intros j Hj. apply Hno. lia.
Qed.

Lemma scan_newline_finds (b : mem) (n : nat) :
  forall i k,
    0 <= i -> i + Z.of_nat n <= Int32.max_signed ->
    i <= k < i + Z.of_nat n -> b k = NEWLINE ->
    (forall j, i <= j < k -> b j <> NEWLINE) ->
    scan_newline b n i = Some (k + 1).
Proof.
  unfold Int32.max_signed, Int32.half.
  induction n as [ | n IH ]; intros i k Hi Hmax Hk Hnl Hno; [ lia | ].
  cbn [scan_newline]. rewrite Nat2Z.inj_succ in *.
  rewrite Int32Facts.add_small by (apply Int32Facts.in_range_bounds; lia).
  destruct (Z.eqb_spec (b i) NEWLINE) as [E | Hne].
  - destruct (Z.eq_dec k i) as [-> | Hki]; [ reflexivity | ].
    exfalso. apply (Hno i); [ lia | exact E ].
  - destruct (Z.eq_dec k i) as [-> | Hki]; [ contradiction | ].
    apply IH; try lia; try assumption. intros j Hj. apply Hno. lia.
Qed.

Lemma holds_no_newline (g : globals) (l : list Z) :
  holds g l -> Forall ordinary l ->
  forall j, 0 <= j < 0 + Z.of_nat (List.length l) ->
            buf (input_of g) j <> NEWLINE.
Proof.
  intros [_ Hb] Hl j Hj.
  replace j with (Z.of_nat (Z.to_nat j)) by lia.
  rewrite Hb by lia.
  rewrite Forall_forall in Hl. apply (Hl (nth (Z.to_nat j) l 0)).
  apply nth_In. lia.
Qed.

(** While the line is being typed, [wait_until_readable] keeps waiting,
    whatever the batching; it returns once the newline is in the buffer. *)
Lemma wait_for_line (future : list wakeup) :
  forall g done rest n,
    holds g done ->
    Forall ordinary (done ++ rest) ->
    delivers future (rest ++ [NEWLINE]) ->
    Z.of_nat (List.length done + List.length rest) + 1 <= n ->
    Z.of_nat (List.length done + List.length rest) + 1 <= TERMINAL_BUF_SIZE ->
    exists g' future',
      wait_until_readable TERMINAL_BUF_SIZE future g n
      = Some (Z.of_nat (List.length done + List.length rest) + 1, g', future') /\
      holds g' (done ++ rest ++ [NEWLINE]).
Proof.
  pose proof buf_size_ok as HB. unfold Int32.max_signed, Int32.half in HB.
  unfold delivers.
  induction future as [ | w future IH ]; intros g done rest n Hg Hord Hdel Hn Hfit.
  - cbn [List.concat] in Hdel. symmetry in Hdel. apply map_eq_nil in Hdel.
    now destruct rest.
  - cbn [List.concat] in Hdel. symmetry in Hdel.
    apply map_eq_app in Hdel.
    destruct Hdel as (w1 & r2 & Esplit & Ew & Er2). subst w.
    assert (Hscan0 : scan_newline (buf (input_of g))
                       (Z.to_nat (count (input_of g))) 0 = None).
    { destruct Hg as [Hc Hb]. rewrite Hc, Nat2Z.id.
      apply scan_newline_none; [ lia | unfold Int32.max_signed, Int32.half; lia | ].
      apply (holds_no_newline g done (conj Hc Hb)).
      apply Forall_app in Hord. tauto. }
    rewrite wait_unfold, Hscan0.
    destruct (Z.gtb_spec n (count (input_of g))) as [_ | Hle];
      [ | destruct Hg as [Hc _]; lia ].
    destruct (list_eq_dec Z.eq_dec r2 []) as [-> | Hne].
    + (* the newline arrives in this wake-up *)
      rewrite app_nil_r in Esplit. subst w1.
      assert (Hg1 : holds (deliver TERMINAL_BUF_SIZE
                             (map KTYP_CHAR (rest ++ [NEWLINE])) g)
                          (done ++ rest ++ [NEWLINE])).
      { apply deliver_bytes; [ assumption | | ].
        - apply Forall_app. split.
          + apply Forall_app in Hord. destruct Hord as [_ Hr].
            eapply Forall_impl; [ | exact Hr ]. intros c [_ Hc]. exact Hc.
          + constructor; [ discriminate | constructor ].
        - rewrite length_app. cbn [List.length]. lia. }
      set (g1 := deliver TERMINAL_BUF_SIZE (map KTYP_CHAR (rest ++ [NEWLINE])) g) in *.
      exists g1, future. split; [ | exact Hg1 ].
      rewrite wait_unfold.
      pose proof Hg1 as [Hc1 Hb1].
      rewrite !length_app in Hc1. cbn [List.length] in Hc1.
      destruct (Z.gtb_spec n (count (input_of g1))) as [Hgt | Hle1].
      * rewrite Hc1, Nat2Z.id.
        rewrite (scan_newline_finds _ _ 0
                   (Z.of_nat (List.length done + List.length rest))).
        -- reflexivity.
        -- lia.
        -- unfold Int32.max_signed, Int32.half. lia.
        -- lia.
        -- rewrite Hb1 by (rewrite !length_app; cbn [List.length]; lia).
           rewrite app_assoc, <- length_app. apply nth_middle.
        -- intros j Hj.
           replace j with (Z.of_nat (Z.to_nat j)) by lia.
           rewrite Hb1 by (rewrite !length_app; cbn [List.length]; lia).
           rewrite app_assoc, app_nth1 by (rewrite length_app; lia).
           rewrite Forall_forall in Hord.
           apply (Hord (nth (Z.to_nat j) (done ++ rest) 0)).
           apply nth_In. rewrite length_app. lia.
      * replace n with (Z.of_nat (List.length done + List.length rest) + 1) by lia.
        reflexivity.
    + (* only a part of the line arrives in this wake-up *)
      destruct (exists_last Hne) as (r2' & x & ->).
      rewrite app_assoc in Esplit. apply app_inj_tail in Esplit.
      destruct Esplit as [-> <-].
      rewrite app_assoc in Hord.
      destruct (IH (deliver TERMINAL_BUF_SIZE (map KTYP_CHAR w1) g)
                   (done ++ w1) r2' n) as (g' & future' & Ew' & Hg').
      * apply deliver_bytes; [ assumption | | rewrite length_app in Hfit; lia ].
        apply Forall_app in Hord. destruct Hord as [Hord _].
        apply Forall_app in Hord. destruct Hord as [_ Hw1].
        eapply Forall_impl; [ | exact Hw1 ]. intros c [_ Hc]. exact Hc.
      * exact Hord.
      * now symmetry.
      * rewrite !length_app in *. lia.
      * rewrite !length_app in *. lia.
      * exists g', future'.
        rewrite !length_app in *. rewrite <- !app_assoc in Hg' |- *.
        split; [ | exact Hg' ].
        rewrite Ew'. do 3 f_equal. lia.
Qed.

(** A read that finds the buffer empty and during which [rest] and then a
    newline are typed returns exactly those bytes and leaves the buffer
    empty, provided the line fits the request and the buffer. *)
Lemma read_line_typed_during_read (future : list wakeup) (g : globals)
      (rest : list Z) (nbytes : Z) :
  count (input_of g) = 0 ->
  Forall ordinary rest ->
  delivers future (rest ++ [NEWLINE]) ->
  Z.of_nat (List.length rest) + 1 <= nbytes ->
  Z.of_nat (List.length rest) + 1 <= TERMINAL_BUF_SIZE ->
  exists r,
    terminal_read TERMINAL_BUF_SIZE future g nbytes = Some r /\
    read_ret r = Z.of_nat (List.length rest) + 1 /\
    read_dest r = rest ++ [NEWLINE] /\
    count (input_of (read_globals r)) = 0.
Proof.
  pose proof buf_size_ok as HB. unfold Int32.max_signed, Int32.half in HB.
  intros H0 Hord Hdel Hn Hfit.
  assert (Hg : holds g []) by (split; [ exact H0 | intros j Hj; inversion Hj ]).
  set (n := if nbytes >? TERMINAL_BUF_SIZE then TERMINAL_BUF_SIZE else nbytes).
  assert (Hn' : Z.of_nat (List.length rest) + 1 <= n)
    by (unfold n; destruct (Z.gtb_spec nbytes TERMINAL_BUF_SIZE); lia).
  destruct (wait_for_line future g [] rest n Hg Hord Hdel)
    as (g' & future' & Ew & [Hc Hb]); [ exact Hn' | exact Hfit | ].
  cbn [app List.length Nat.add] in *.
  unfold terminal_read. fold n. rewrite Ew. fold (input_of g').
  rewrite copy_out_spec by (unfold Int32.max_signed, Int32.half; lia).
  rewrite length_app in Hc. cbn [List.length] in Hc.
  eexists. split; [ reflexivity | ].
  cbn [read_ret read_dest read_globals input_of executing_terminal set_input
       input count].
  fold (input_of g').
  replace (Z.to_nat (Z.of_nat (List.length rest) + 1))
    with (List.length (rest ++ [NEWLINE]))
    by (rewrite length_app; cbn [List.length]; lia).
  repeat split.
  - rewrite length_app. cbn [List.length]. lia.
  - apply nth_ext with (d := 0) (d' := 0).
    + now rewrite length_map, length_seq.
    + intros j Hj. rewrite length_map, length_seq in Hj.
      rewrite (nth_indep _ 0 (buf (input_of g') (0 + Z.of_nat 0)))
        by (now rewrite length_map, length_seq).
      rewrite (map_nth (fun j => buf (input_of g') (0 + Z.of_nat j))).
      rewrite seq_nth by assumption. rewrite Z.add_0_l. cbn [Nat.add].
      now apply Hb.
  - rewrite Hc, length_app. cbn [List.length]. int32. lia.
Qed.

(** The scenario of the specification: 2 bytes and then a newline typed
    during a read of 5. *)
Lemma read_two_bytes_then_newline (future : list wakeup) (g : globals)
      (c1 c2 : Z) :
  3 <= TERMINAL_BUF_SIZE ->
  count (input_of g) = 0 ->
  ordinary c1 -> ordinary c2 ->
  delivers future [c1; c2; NEWLINE] ->
  exists r,
    terminal_read TERMINAL_BUF_SIZE future g 5 = Some r /\
    read_ret r = 3 /\
    read_dest r = [c1; c2; NEWLINE] /\
    count (input_of (read_globals r)) = 0.
Proof.
  intros Hsize H0 H1 H2 Hdel.
  apply (read_line_typed_during_read future g [c1; c2] 5).
  - exact H0.
  - constructor; [ exact H1 | constructor; [ exact H2 | constructor ] ].
  - exact Hdel.
  - cbn [List.length]. lia.
  - cbn [List.length]. lia.
Qed.

End Reading.

(** The same with 128 bytes of buffer, the bytes h and i, and an idle
    wake-up between the two keyboard interrupts. *)
Example read_two_bytes_then_newline_128 :
  exists r,
    terminal_read 128 [[KTYP_CHAR 104]; []; [KTYP_CHAR 105; KTYP_CHAR NEWLINE]]
      (buffered []) 5 = Some r /\
    read_ret r = 3 /\
    read_dest r = [104; 105; NEWLINE] /\
    count (input_of (read_globals r)) = 0.
Proof.
  apply (read_two_bytes_then_newline 128).
  - vm_compute. split; discriminate.
  - lia.
  - reflexivity.
  - split; discriminate.
  - split; discriminate.
  - reflexivity.
Qed.

End TerminalInput.

(** ** The keyboard decoder *)

Module KeyboardDecoder.

Import Keyboard KeyboardSpec.

Lemma seven_bit_packets (k : Z) :
  0 <= k < 128 ->
  Z.land (press_packet k) 128 = 0 /\ Z.land (press_packet k) 127 = k /\
  Z.land (release_packet k) 128 = 128 /\ Z.land (release_packet k) 127 = k.
Proof.
  intros Hk.
  assert (Hall : forallb (fun k =>
            (Z.land (press_packet k) 128 =? 0)
            && (Z.land (press_packet k) 127 =? k)
            && (Z.land (release_packet k) 128 =? 128)
            && (Z.land (release_packet k) 127 =? k))
            (map Z.of_nat (seq 0 128)) = true) by (vm_compute; reflexivity).
  rewrite forallb_forall in Hall.
  specialize (Hall k).
  rewrite !andb_true_iff, !Z.eqb_eq in Hall. 
  assert (Hin : In k (map Z.of_nat (seq 0 128))).
  { apply in_map_iff. exists (Z.to_nat k). split; [ lia | ].
    apply in_seq. lia. }
  specialize (Hall Hin). tauto.
Qed.

(** Spells out [header_ok] as hypotheses; the distinctness of the modifier
    keycodes is kept only by [header_keycodes]. *)
Ltac header_split H :=
  unfold header_ok, modifier_masks, modifier_keycodes in H;
  cbn [forallb pairwise] in H;
  repeat match goal with
         | H : _ && _ = true |- _ => apply andb_prop in H; destruct H
         end;
  repeat match goal with
         | H : true = true |- _ => clear H
         | H : (_ =? _) = true |- _ => apply Z.eqb_eq in H
         | H : (_ <? _) = true |- _ => apply Z.ltb_lt in H
         | H : (_ <=? _) = true |- _ => apply Z.leb_le in H
         end.

Ltac header_facts H :=
  header_split H;
  repeat match goal with
         | H : negb (_ =? _) = true |- _ => clear H
         end.

Ltac header_keycodes H :=
  header_split H;
  repeat match goal with
         | H : negb (_ =? _) = true |- _ =>
             apply negb_true_iff in H; apply Z.eqb_neq in H
         end.

Section Decoder.

Variable h : keyboard_h.
Hypothesis Hok : header_ok h = true.

Lemma keycode_to_modifier_lshift :
  keycode_to_modifier h (KC_LSHIFT h) = KMOD_LSHIFT h.
Proof.
  pose proof Hok as H. header_keycodes H.
  unfold keycode_to_modifier.
  repeat match goal with
         | |- context [?a =? ?b] =>
             destruct (Z.eqb_spec a b); try congruence
         end.
Qed.

Lemma lshift_is_set_and_cleared :
  (KMOD_LSHIFT h =? KMOD_NONE h) = false /\
  (KMOD_LSHIFT h =? KMOD_CAPS h) = false.
Proof.
  pose proof Hok as H. header_facts H.
  split; apply Z.eqb_neq; [ lia | ].
  intros E.
  match goal with
  | D : Z.land (KMOD_LSHIFT h) (KMOD_CAPS h) = 0 |- _ =>
      rewrite <- E, Z.land_diag in D; lia
  end.
Qed.

Lemma process_press_lshift (m : Z) :
  process_packet h (press_packet (KC_LSHIFT h)) m
  = (KTYP_NONE, Z.lor m (KMOD_LSHIFT h)).
Proof.
  assert (Hk : 0 <= KC_LSHIFT h < 128)
    by (pose proof Hok as H; header_facts H; lia).
  destruct (seven_bit_packets _ Hk) as (P1 & P2 & _ & _).
  destruct lshift_is_set_and_cleared as [N1 N2].
  unfold process_packet. rewrite P1, P2, keycode_to_modifier_lshift, N1, N2.
  reflexivity.
Qed.

Lemma process_release_lshift (m : Z) :
  process_packet h (release_packet (KC_LSHIFT h)) m
  = (KTYP_NONE, Z.land m (Z.lnot (KMOD_LSHIFT h))).
Proof.
  assert (Hk : 0 <= KC_LSHIFT h < 128)
    by (pose proof Hok as H; header_facts H; lia).
  destruct (seven_bit_packets _ Hk) as (_ & _ & P3 & P4).
  destruct lshift_is_set_and_cleared as [N1 N2].
  unfold process_packet. rewrite P3, P4, keycode_to_modifier_lshift, N1, N2.
  reflexivity.
Qed.

(** Press then release of Left-Shift leaves the prior state with the
    Left-Shift bit cleared. *)
Lemma lshift_press_release (m : Z) :
  snd (process_packet h (release_packet (KC_LSHIFT h))
         (snd (process_packet h (press_packet (KC_LSHIFT h)) m)))
  = Z.ldiff m (KMOD_LSHIFT h).
Proof.
  rewrite process_press_lshift. cbn [snd]. rewrite process_release_lshift.
  cbn [snd]. rewrite Z.land_lor_distr_l, Z.land_lnot_diag, Z.lor_0_r.
  symmetry. apply Z.ldiff_land.
Qed.

(** Bit algebra on disjoint masks. *)
Lemma disjoint_lor_r (x a b : Z) :
  Z.land x a = 0 -> Z.land x b = 0 -> Z.land x (Z.lor a b) = 0.
Proof. intros Ha Hb. now rewrite Z.land_lor_distr_r, Ha, Hb. Qed.

Lemma disjoint_lor_l (x a b : Z) :
  Z.land a x = 0 -> Z.land b x = 0 -> Z.land (Z.lor a b) x = 0.
Proof. intros Ha Hb. now rewrite Z.land_lor_distr_l, Ha, Hb. Qed.

Lemma disjoint_neq (x y : Z) : 0 < x -> Z.land x y = 0 -> x <> y.
Proof. intros Hx Hd E. rewrite <- E, Z.land_diag in Hd. lia. Qed.

Lemma lor_pos (x y : Z) : 0 < x -> 0 <= y -> 0 < Z.lor x y.
Proof.
  intros Hx Hy.
  assert (0 <= Z.lor x y) by (apply Z.lor_nonneg; lia).
  assert (Z.lor x y <> 0) by (rewrite Z.lor_eq_0_iff; lia).
  lia.
Qed.

Lemma disjoint_lor_neq_r (x y : Z) :
  0 < x -> Z.land x y = 0 -> Z.lor x y <> y.
Proof.
  intros Hx Hd E. apply (f_equal (Z.land x)) in E.
  rewrite Z.land_lor_distr_r, Z.land_diag, Hd, Z.lor_0_r in E. lia.
Qed.

Lemma disjoint_lor_neq_l (x y : Z) :
  0 < y -> Z.land x y = 0 -> Z.lor x y <> x.
Proof.
  intros Hy Hd E. apply (f_equal (fun z => Z.land z y)) in E.
  rewrite Z.land_lor_distr_l, Z.land_diag, Hd, Z.lor_0_l in E. lia.
Qed.

(** What [get_modifiers] makes of a state with only Shift and Caps bits:
    [caps] is 0 or [KMOD_CAPS], [s] is a held Shift. *)
Lemma consolidated_masks :
  0 < KMOD_SHIFT h /\ 0 < KMOD_CAPS h /\
  Z.land (KMOD_CAPS h) (KMOD_CTRL h) = 0 /\
  Z.land (KMOD_CAPS h) (KMOD_SHIFT h) = 0 /\
  Z.land (KMOD_CAPS h) (KMOD_ALT h) = 0 /\
  Z.land (KMOD_SHIFT h) (KMOD_CTRL h) = 0 /\
  Z.land (KMOD_SHIFT h) (KMOD_ALT h) = 0 /\
  (forall s, shift_held h s ->
     0 < s /\ Z.land s (KMOD_CTRL h) = 0 /\ Z.land s (KMOD_SHIFT h) = s /\
     Z.lor s (KMOD_SHIFT h) = KMOD_SHIFT h).
Proof.
  pose proof Hok as H. header_facts H.
  repeat match goal with
         | D : Z.land ?a ?b = 0 |- _ =>
             lazymatch goal with
             | _ : Z.land b a = 0 |- _ => fail
             | _ => pose proof (eq_trans (Z.land_comm b a) D)
             end
         end.
  repeat match goal with
         | E : KMOD_CTRL h = _ |- _ => rewrite E; clear E
         | E : KMOD_SHIFT h = _ |- _ => rewrite E; clear E
         | E : KMOD_ALT h = _ |- _ => rewrite E; clear E
         end.
  repeat split;
    try (apply lor_pos; lia);
    try assumption;
    try (apply disjoint_lor_r; assumption);
    try (apply disjoint_lor_l; apply disjoint_lor_r; assumption).
  all: match goal with
       | Hs : shift_held h ?s |- _ =>
           destruct Hs as [-> | [-> | ->]]
       end.
  all: try (apply lor_pos; lia); try assumption;
    try (apply disjoint_lor_r; assumption);
    try (apply disjoint_lor_l; apply disjoint_lor_r; assumption).
  all: rewrite ?Z.land_lor_distr_r, ?Z.land_lor_distr_l, ?Z.land_diag.
  all: repeat match goal with
              | D : Z.land ?a ?b = 0 |- context [Z.land ?a ?b] => rewrite D
              end.
  all: rewrite ?Z.lor_0_r, ?Z.lor_0_l; try reflexivity.
  all: apply Z.bits_inj'; intros n _; rewrite !Z.lor_spec;
    destruct (Z.testbit (KMOD_LSHIFT h) n), (Z.testbit (KMOD_RSHIFT h) n);
    reflexivity.
Qed.

(** 0x1E, the keycode of the key [a], is not a modifier key. *)
Hypothesis Hkey : ~ In 0x1E (modifier_keycodes h).

Lemma keycode_a_is_no_modifier : keycode_to_modifier h 0x1E = KMOD_NONE h.
Proof.
  unfold keycode_to_modifier.
  repeat match goal with
         | |- context [30 =? ?b] =>
             destruct (Z.eqb_spec 30 b) as [E | _];
             [ exfalso; apply Hkey; rewrite E; unfold modifier_keycodes;
               cbn [In]; tauto | ]
         end.
  reflexivity.
Qed.

(** The decoder on the press packet of the key [a], by consolidated
    modifier state. *)
Lemma press_a_decoded (m : Z) :
  process_packet h 0x1E m = (keycode_to_input h 0x1E m, m).
Proof.
  unfold process_packet. change (Z.land 30 128 =? 0) with true.
  change (Z.land 30 127) with 30. rewrite keycode_a_is_no_modifier.
  now rewrite Z.eqb_refl.
Qed.

Lemma release_a_decoded (m : Z) : process_packet h 0x9E m = (KTYP_NONE, m).
Proof.
  unfold process_packet. change (Z.land 158 128 =? 0) with false.
  change (Z.land 158 127) with 30. rewrite keycode_a_is_no_modifier.
  now rewrite Z.eqb_refl.
Qed.

Lemma a_in_table : (0x1E >=? NUM_KEYS h) = false.
Proof.
  pose proof Hok as H. header_facts H.
  destruct (Z.geb_spec 30 (NUM_KEYS h)); [ lia | reflexivity ].
Qed.

Lemma get_modifiers_plain (m : Z) :
  Z.land m (KMOD_CTRL h) = 0 -> Z.land m (KMOD_SHIFT h) = 0 ->
  Z.land m (KMOD_ALT h) = 0 -> get_modifiers h m = m.
Proof.
  intros Hc Hs Ha. unfold get_modifiers.
  rewrite Hc. cbn [Z.eqb negb]. rewrite Hs. cbn [Z.eqb negb].
  rewrite Ha. reflexivity.
Qed.

Lemma get_modifiers_shift (m : Z) :
  Z.land m (KMOD_CTRL h) = 0 -> Z.land m (KMOD_SHIFT h) <> 0 ->
  Z.land (Z.lor m (KMOD_SHIFT h)) (KMOD_ALT h) = 0 ->
  get_modifiers h m = Z.lor m (KMOD_SHIFT h).
Proof.
  intros Hc Hs Ha. unfold get_modifiers. rewrite Hc. cbn [Z.eqb negb].
  apply Z.eqb_neq in Hs. rewrite Hs. cbn [negb]. now rewrite Ha.
Qed.

(** C9.  The press packet 0x1E decodes to 'a' (97) with no modifier, to
    'A' (65) with Shift held, to 'A' with Caps on and to 'a' with Caps on
    and Shift held; the release packet 0x9E decodes to [KTYP_NONE] in every
    modifier state, and leaves that state as it is.  0x1E is taken not to be
    the keycode of a modifier key. *)
Theorem C9_decode_key_a :
  fst (process_packet h 0x1E (KMOD_NONE h)) = KTYP_CHAR 97 /\
  (forall s, shift_held h s -> fst (process_packet h 0x1E s) = KTYP_CHAR 65) /\
  fst (process_packet h 0x1E (KMOD_CAPS h)) = KTYP_CHAR 65 /\
  (forall s, shift_held h s ->
     fst (process_packet h 0x1E (Z.lor (KMOD_CAPS h) s)) = KTYP_CHAR 97) /\
  (forall m, process_packet h 0x9E m = (KTYP_NONE, m)).
Proof.
  destruct consolidated_masks
    as (Spos & Kpos & KC & KS & KA & SC & SA & Hheld).
  assert (Hnone : KMOD_NONE h = 0) by (pose proof Hok as H; header_facts H; assumption).
  assert (NS : (KMOD_SHIFT h =? 0) = false) by (apply Z.eqb_neq; lia).
  assert (NK : (KMOD_CAPS h =? 0) = false) by (apply Z.eqb_neq; lia).
  assert (KneS : (KMOD_CAPS h =? KMOD_SHIFT h) = false)
    by (apply Z.eqb_neq; now apply disjoint_neq).
  assert (KS0 : (Z.lor (KMOD_CAPS h) (KMOD_SHIFT h) =? 0) = false)
    by (apply Z.eqb_neq; pose proof (lor_pos _ (KMOD_SHIFT h) Kpos); lia).
  assert (KS1 : (Z.lor (KMOD_CAPS h) (KMOD_SHIFT h) =? KMOD_SHIFT h) = false)
    by (apply Z.eqb_neq; now apply disjoint_lor_neq_r).
  assert (KS2 : (Z.lor (KMOD_CAPS h) (KMOD_SHIFT h) =? KMOD_CAPS h) = false)
    by (apply Z.eqb_neq; now apply disjoint_lor_neq_l).
  repeat split.
  - rewrite press_a_decoded. cbn [fst]. unfold keycode_to_input.
    rewrite a_in_table, Hnone.
    rewrite get_modifiers_plain by apply Z.land_0_l. reflexivity.
  - intros s Hs. destruct (Hheld s Hs) as (spos & sC & sS & sor).
    rewrite press_a_decoded. cbn [fst]. unfold keycode_to_input.
    rewrite a_in_table, Hnone.
    rewrite get_modifiers_shift; rewrite ?sor; try assumption; try lia.
    rewrite NS, Z.eqb_refl. reflexivity.
  - rewrite press_a_decoded. cbn [fst]. unfold keycode_to_input.
    rewrite a_in_table, Hnone.
    rewrite get_modifiers_plain by assumption.
    rewrite NK, KneS, Z.eqb_refl. reflexivity.
  - intros s Hs. destruct (Hheld s Hs) as (spos & sC & sS & sor).
    rewrite press_a_decoded. cbn [fst]. unfold keycode_to_input.
    rewrite a_in_table, Hnone.
    assert (E : Z.lor (Z.lor (KMOD_CAPS h) s) (KMOD_SHIFT h)
                = Z.lor (KMOD_CAPS h) (KMOD_SHIFT h))
      by (now rewrite <- Z.lor_assoc, sor).
    rewrite get_modifiers_shift; rewrite ?E.
    + rewrite KS0, KS1, KS2, Z.eqb_refl. reflexivity.
    + now apply disjoint_lor_l.
    + rewrite Z.land_lor_distr_l, KS, sS, Z.lor_0_l. lia.
    + now apply disjoint_lor_l.
  - apply release_a_decoded.
Qed.

End Decoder.

(** C8, as amended.  From every modifier state in which the Left-Shift bit
    is clear, a Left-Shift press packet followed by a Left-Shift release
    packet brings the modifier state back to exactly that value. *)
Theorem C8_left_shift_round_trip (h : keyboard_h) (m : Z) :
  header_ok h = true ->
  Z.land m (KMOD_LSHIFT h) = 0 ->
  snd (process_packet h (release_packet (KC_LSHIFT h))
         (snd (process_packet h (press_packet (KC_LSHIFT h)) m)))
  = m.
Proof.
  intros Hok Hclear. rewrite (lshift_press_release h Hok).
  rewrite <- (Z.lor_ldiff_and m (KMOD_LSHIFT h)) at 2.
  rewrite Hclear. now rewrite Z.lor_0_r.
Qed.

Lemma C8_left_shift_round_trip_witness :
  snd (process_packet pc_at (release_packet (KC_LSHIFT pc_at))
         (snd (process_packet pc_at (press_packet (KC_LSHIFT pc_at)) 65)))
  = 65.
Proof.
  apply (C8_left_shift_round_trip pc_at 65); reflexivity.
Defined.

(** C8 as stated fails when Left-Shift is already down before the press (a
    repeated press packet of a held key): the release clears the bit. *)
Lemma C8_round_trip_drops_held_shift :
  header_ok pc_at = true /\
  snd (process_packet pc_at (release_packet (KC_LSHIFT pc_at))
         (snd (process_packet pc_at (press_packet (KC_LSHIFT pc_at))
                (KMOD_LSHIFT pc_at))))
  <> KMOD_LSHIFT pc_at.
Proof. split; [ reflexivity | vm_compute; discriminate ]. Qed.

Lemma C9_decode_key_a_witness :
  fst (process_packet pc_at 0x1E (KMOD_NONE pc_at)) = KTYP_CHAR 97 /\
  (forall s, shift_held pc_at s ->
     fst (process_packet pc_at 0x1E s) = KTYP_CHAR 65) /\
  fst (process_packet pc_at 0x1E (KMOD_CAPS pc_at)) = KTYP_CHAR 65 /\
  (forall s, shift_held pc_at s ->
     fst (process_packet pc_at 0x1E (Z.lor (KMOD_CAPS pc_at) s)) = KTYP_CHAR 97) /\
  (forall m, process_packet pc_at 0x9E m = (KTYP_NONE, m)).
Proof.
  apply (C9_decode_key_a pc_at).
  - reflexivity.
  - unfold modifier_keycodes. cbn [In pc_at KC_LCTRL KC_RCTRL KC_LSHIFT
      KC_RSHIFT KC_LALT KC_RALT KC_CAPS_LOCK]. lia.
Defined.

End KeyboardDecoder.

(** ** The trap dispatcher: exceptions *)

Module TrapDispatch.

Import Trap Idt IdtSpec.

Lemma emit_all_run {S : Type} (l : list event) (s : S) :
  emit_all l s = (l, Some (tt, s)).
Proof.
  induction l as [ | e l IH ]; [ reflexivity | ].
  cbn [emit_all]. unfold Run.bind, Run.emit. now rewrite IH.
Qed.

Lemma register_dump_raises_nothing (regs : int_regs_t) :
  signals_raised (register_dump regs) = [].
Proof. reflexivity. Qed.

Section Dispatch.

Variables NUM_EXC EXC_DE INT_IRQ0 INT_IRQ15 INT_SYSCALL : Z.
Variable USER_CS : Z.
Variables SIG_DIV_ZERO SIG_SEGFAULT : Z.
Variable executing_pid : Z.
Variable syscall_handle : Z -> Z -> Z -> int_regs_t -> Z -> Z * int_regs_t.
Variable signal_handle_all : int_regs_t -> int_regs_t.

Local Abbreviation dispatch :=
  (idt_handle_interrupt NUM_EXC EXC_DE INT_IRQ0 INT_IRQ15 INT_SYSCALL USER_CS
     SIG_DIV_ZERO SIG_SEGFAULT executing_pid syscall_handle signal_handle_all).

(** The whole run of a user-mode exception. *)
Lemma dispatch_user_exception (regs : int_regs_t) :
  int_num regs < NUM_EXC -> cs regs = USER_CS ->
  dispatch regs =
  ([ Debugf "Userspace exception: %s\n" [ArgStr (exception_name (int_num regs))];
     SignalRaise executing_pid
       (if int_num regs =? EXC_DE then SIG_DIV_ZERO else SIG_SEGFAULT);
     SignalHandleAll regs ],
   Some (tt, signal_handle_all regs)).
Proof.
  intros Hv Hcs. apply Z.ltb_lt in Hv.
  unfold idt_handle_interrupt, handle_exception, handle_user_exception.
  unfold Run.bind, Run.get, Run.emit, Run.put, Run.ret.
  rewrite Hv, Hcs, Z.eqb_refl.
  destruct (int_num regs =? EXC_DE); cbv beta iota; rewrite Hcs, Z.eqb_refl;
    reflexivity.
Qed.

(** The whole run of a kernel-mode exception. *)
Lemma dispatch_kernel_exception (regs : int_regs_t) :
  int_num regs < NUM_EXC -> cs regs <> USER_CS ->
  dispatch regs =
  ([ Clear;
     Printf "****************************************\n" [];
     Printf "Exception: %s\n" [ArgStr (exception_name (int_num regs))];
     Printf "****************************************\n" [] ]
     ++ register_dump regs,
   None).
Proof.
  intros Hv Hcs. apply Z.ltb_lt in Hv. apply Z.eqb_neq in Hcs.
  unfold idt_handle_interrupt, handle_exception.
  unfold Run.bind, Run.get. rewrite Hv, Hcs.
  unfold Run.emit, Run.never, dump_registers. rewrite emit_all_run.
  cbn [app]. now rewrite app_nil_r.
Qed.

(** C3.  An exception vector taken with the user code segment in the
    snapshot: the dispatcher returns, and the run raises exactly one
    signal, against the executing process; it is [SIG_DIV_ZERO] for the
    divide-error vector and [SIG_SEGFAULT] for every other one. *)
Theorem C3_user_exception_raises_one_signal (regs : int_regs_t) :
  int_num regs < NUM_EXC -> cs regs = USER_CS ->
  Run.returns (dispatch regs) /\
  signals_raised (Run.trace (dispatch regs))
  = [(executing_pid,
      if int_num regs =? EXC_DE then SIG_DIV_ZERO else SIG_SEGFAULT)].
Proof.
  intros Hv Hcs. rewrite (dispatch_user_exception regs Hv Hcs).
  split; [ unfold Run.returns; cbn [snd]; discriminate | reflexivity ].
Qed.

(** C4.  An exception vector taken with any other code segment in the
    snapshot: the dispatcher never returns.  Before it stops it clears the
    screen, prints the banner with the name of the exception, and dumps the
    register snapshot: one line for each of the 22 fields, in the order of
    [dump_registers], each with the value the snapshot holds.  That is the
    whole run, and it raises no signal. *)
Theorem C4_kernel_exception_halts (regs : int_regs_t) :
  int_num regs < NUM_EXC -> cs regs <> USER_CS ->
  Run.halts (dispatch regs) /\
  Run.trace (dispatch regs)
  = [ Clear;
      Printf "****************************************\n" [];
      Printf "Exception: %s\n" [ArgStr (exception_name (int_num regs))];
      Printf "****************************************\n" [];
      Printf "int_num:    0x%#x\n" [ArgInt (int_num regs)];
      Printf "error_code: 0x%#x\n" [ArgInt (error_code regs)];
      Printf "eax:        0x%#x\n" [ArgInt (eax regs)];
      Printf "ebx:        0x%#x\n" [ArgInt (ebx regs)];
      Printf "ecx:        0x%#x\n" [ArgInt (ecx regs)];
      Printf "edx:        0x%#x\n" [ArgInt (edx regs)];
      Printf "esi:        0x%#x\n" [ArgInt (esi regs)];
      Printf "edi:        0x%#x\n" [ArgInt (edi regs)];
      Printf "ebp:        0x%#x\n" [ArgInt (ebp regs)];
      Printf "esp:        0x%#x\n" [ArgInt (esp regs)];
      Printf "eip:        0x%#x\n" [ArgInt (eip regs)];
      Printf "eflags:     0x%#x\n" [ArgInt (eflags regs)];
      Printf "cs:         0x%#x\n" [ArgInt (cs regs)];
      Printf "ds:         0x%#x\n" [ArgInt (ds regs)];
      Printf "es:         0x%#x\n" [ArgInt (es regs)];
      Printf "fs:         0x%#x\n" [ArgInt (fs regs)];
      Printf "gs:         0x%#x\n" [ArgInt (gs regs)];
      Printf "ss:         0x%#x\n" [ArgInt (ss regs)];
      Printf "cr0:        0x%#x\n" [ArgInt (cr0 regs)];
      Printf "cr2:        0x%#x\n" [ArgInt (cr2 regs)];
      Printf "cr3:        0x%#x\n" [ArgInt (cr3 regs)];
      Printf "cr4:        0x%#x\n" [ArgInt (cr4 regs)] ] /\
  signals_raised (Run.trace (dispatch regs)) = [].
Proof.
  intros Hv Hcs. rewrite (dispatch_kernel_exception regs Hv Hcs).
  split; [ reflexivity | ]. split; [ reflexivity | ].
  unfold Run.trace. cbn [fst]. unfold signals_raised.
  rewrite flat_map_app. reflexivity.
Qed.

End Dispatch.

Lemma C3_user_exception_raises_one_signal_witness :
  Run.returns (pc_dispatch (snapshot 14 0x23)) /\
  signals_raised (Run.trace (pc_dispatch (snapshot 14 0x23))) = [(7, 1)].
Proof.
  unfold pc_dispatch.
  apply (C3_user_exception_raises_one_signal 20 0 0x20 0x2F 0x80 0x23 0 1 7
           (fun _ _ _ regs _ => (0, regs)) (fun regs => regs)
           (snapshot 14 0x23)).
  - cbn [snapshot int_num]. lia.
  - reflexivity.
Defined.

Lemma C4_kernel_exception_halts_witness :
  Run.halts (pc_dispatch kernel_fault) /\
  Run.trace (pc_dispatch kernel_fault)
  = [ Clear;
      Printf "****************************************\n" [];
      Printf "Exception: %s\n" [ArgStr "General protection exception"];
      Printf "****************************************\n" [];
      Printf "int_num:    0x%#x\n" [ArgInt 13];
      Printf "error_code: 0x%#x\n" [ArgInt 0];
      Printf "eax:        0x%#x\n" [ArgInt 1];
      Printf "ebx:        0x%#x\n" [ArgInt 2];
      Printf "ecx:        0x%#x\n" [ArgInt 3];
      Printf "edx:        0x%#x\n" [ArgInt 4];
      Printf "esi:        0x%#x\n" [ArgInt 5];
      Printf "edi:        0x%#x\n" [ArgInt 6];
      Printf "ebp:        0x%#x\n" [ArgInt 7];
      Printf "esp:        0x%#x\n" [ArgInt 8];
      Printf "eip:        0x%#x\n" [ArgInt 9];
      Printf "eflags:     0x%#x\n" [ArgInt 10];
      Printf "cs:         0x%#x\n" [ArgInt 16];
      Printf "ds:         0x%#x\n" [ArgInt 24];
      Printf "es:         0x%#x\n" [ArgInt 24];
      Printf "fs:         0x%#x\n" [ArgInt 24];
      Printf "gs:         0x%#x\n" [ArgInt 24];
      Printf "ss:         0x%#x\n" [ArgInt 24];
      Printf "cr0:        0x%#x\n" [ArgInt 11];
      Printf "cr2:        0x%#x\n" [ArgInt 12];
      Printf "cr3:        0x%#x\n" [ArgInt 13];
      Printf "cr4:        0x%#x\n" [ArgInt 14] ] /\
  signals_raised (Run.trace (pc_dispatch kernel_fault)) = [].
Proof.
  unfold pc_dispatch.
  apply (C4_kernel_exception_halts 20 0 0x20 0x2F 0x80 0x23 0 1 7
           (fun _ _ _ regs _ => (0, regs)) (fun regs => regs)
           kernel_fault).
  - unfold kernel_fault. cbn [int_num]. lia.
  - unfold kernel_fault. cbn [cs]. lia.
Defined.

End TrapDispatch.

(** ** The IRQ registry *)

Module IrqRegistry.

Import Trap IdtIrq IdtSpec.

Section Registry.

Variable INT_IRQ0 : Z.
Variable assert_failed : M unit.

Local Abbreviation register_then_dispatch :=
  (IdtSpec.register_then_dispatch INT_IRQ0 assert_failed).
Local Abbreviation unregister_then_dispatch :=
  (IdtSpec.unregister_then_dispatch INT_IRQ0 assert_failed).

Lemma set_callback_same (t : irq_table) (n cb : Z) : set_callback t n cb n = cb.
Proof. unfold set_callback. now rewrite Z.eqb_refl. Qed.

Lemma line_of_vector (line : Z) (regs : int_regs_t) :
  0 <= line < 16 -> int_num regs = INT_IRQ0 + line ->
  Int32.usub (int_num regs) INT_IRQ0 = line.
Proof.
  intros Hl ->. apply Int32Facts.usub_add. unfold Int32.modulus. lia.
Qed.

Lemma assert_line_passes (line : Z) :
  0 <= line < 16 -> ASSERT assert_failed ((line >=? 0) && (line <? 16)) = Run.ret tt.
Proof.
  intros Hl. unfold ASSERT.
  destruct (Z.geb_spec line 0); [ | lia ].
  destruct (Z.ltb_spec line 16); [ reflexivity | lia ].
Qed.

Lemma register_then_dispatch_run (line cb : Z) (regs : int_regs_t) (t : irq_table) :
  0 <= line < 16 -> cb <> NULL -> int_num regs = INT_IRQ0 + line ->
  register_then_dispatch line cb regs t =
  ([ EnableIrq line;
     Debugf "IRQ interrupt: %d\n" [ArgInt line];
     Callback cb;
     SendEoi line ],
   Some (tt, set_callback t line cb)).
Proof.
  intros Hl Hcb Hv.
  unfold IdtSpec.register_then_dispatch, register_irq_handler, handle_irq.
  rewrite (assert_line_passes line Hl), (line_of_vector line regs Hl Hv).
  unfold Run.bind, Run.get, Run.put, Run.emit, Run.ret.
  rewrite set_callback_same. apply Z.eqb_neq in Hcb. rewrite Hcb. reflexivity.
Qed.

Lemma unregister_then_dispatch_run (line : Z) (regs : int_regs_t) (t : irq_table) :
  0 <= line < 16 -> int_num regs = INT_IRQ0 + line ->
  unregister_then_dispatch line regs t =
  ([ DisableIrq line;
     Debugf "IRQ interrupt: %d\n" [ArgInt line];
     SendEoi line ],
   Some (tt, set_callback t line NULL)).
Proof.
  intros Hl Hv.
  unfold IdtSpec.unregister_then_dispatch, unregister_irq_handler, handle_irq.
  rewrite (assert_line_passes line Hl), (line_of_vector line regs Hl Hv).
  unfold Run.bind, Run.get, Run.put, Run.emit, Run.ret.
  rewrite set_callback_same. reflexivity.
Qed.

(** C5.  For a line in [[0, 16)] and the snapshot of its vector: after
    [register(line, cb)] the dispatch returns, runs [cb] once and sends one
    end-of-interrupt for the line, the callback first; after
    [unregister(line)] it returns, runs no callback and sends one
    end-of-interrupt for the line.  [cb] is a function, not [NULL]. *)
Theorem C5_irq_dispatch (line cb : Z) (regs : int_regs_t) (t : irq_table) :
  0 <= line < 16 -> cb <> NULL -> int_num regs = INT_IRQ0 + line ->
  (Run.returns (register_then_dispatch line cb regs t) /\
   callbacks_run (Run.trace (register_then_dispatch line cb regs t)) = [cb] /\
   eois_sent (Run.trace (register_then_dispatch line cb regs t)) = [line] /\
   filter is_pic_event (Run.trace (register_then_dispatch line cb regs t))
   = [Callback cb; SendEoi line]) /\
  (Run.returns (unregister_then_dispatch line regs t) /\
   callbacks_run (Run.trace (unregister_then_dispatch line regs t)) = [] /\
   eois_sent (Run.trace (unregister_then_dispatch line regs t)) = [line] /\
   filter is_pic_event (Run.trace (unregister_then_dispatch line regs t))
   = [SendEoi line]).
Proof.
  intros Hl Hcb Hv.
  rewrite (register_then_dispatch_run line cb regs t Hl Hcb Hv).
  rewrite (unregister_then_dispatch_run line regs t Hl Hv).
  unfold Run.returns. cbn [snd].
  repeat split; discriminate.
Qed.

End Registry.

Lemma C5_irq_dispatch_witness :
  (Run.returns
     (register_then_dispatch 0x20 assert_hangs 1 4096 (snapshot 0x21 0x10)
        no_handlers) /\
   callbacks_run
     (Run.trace
        (register_then_dispatch 0x20 assert_hangs 1 4096 (snapshot 0x21 0x10)
           no_handlers))
   = [4096] /\
   eois_sent
     (Run.trace
        (register_then_dispatch 0x20 assert_hangs 1 4096 (snapshot 0x21 0x10)
           no_handlers))
   = [1] /\
   filter is_pic_event
     (Run.trace
        (register_then_dispatch 0x20 assert_hangs 1 4096 (snapshot 0x21 0x10)
           no_handlers))
   = [Callback 4096; SendEoi 1]) /\
  (Run.returns
     (unregister_then_dispatch 0x20 assert_hangs 1 (snapshot 0x21 0x10)
        no_handlers) /\
   callbacks_run
     (Run.trace
        (unregister_then_dispatch 0x20 assert_hangs 1 (snapshot 0x21 0x10)
           no_handlers))
   = [] /\
   eois_sent
     (Run.trace
        (unregister_then_dispatch 0x20 assert_hangs 1 (snapshot 0x21 0x10)
           no_handlers))
   = [1] /\
   filter is_pic_event
     (Run.trace
        (unregister_then_dispatch 0x20 assert_hangs 1 (snapshot 0x21 0x10)
           no_handlers))
   = [SendEoi 1]).
Proof.
  apply (C5_irq_dispatch 0x20 assert_hangs 1 4096 (snapshot 0x21 0x10)
           no_handlers).
  - lia.
  - unfold NULL. lia.
  - reflexivity.
Defined.

End IrqRegistry.

(* ================================================================== *)
(** * Further properties of the code *)
(* ================================================================== *)

(** ** The screen *)

Module ScreenFacts.

Import Terminal TerminalSpec MemFacts TerminalScreen.

Lemma clear_cells (n : nat) :
  forall (i : Z) (v : mem),
    0 <= i -> i + Z.of_nat n <= 1000000 ->
    (forall k, i <= k < i + Z.of_nat n ->
       shows (for_loop n i clear_cell v) k SPACE) /\
    (forall o, o < 2 * i \/ 2 * (i + Z.of_nat n) <= o ->
       for_loop n i clear_cell v o = v o).
Proof.
  induction n as [ | n IH ]; intros i v Hi Hmax.
  - cbn [for_loop Z.of_nat]. split; [ intros k Hk; lia | reflexivity ].
  - cbn [for_loop]. rewrite Nat2Z.inj_succ in *.
    destruct (IH (i + 1) (clear_cell i v)) as [Hcells Hframe]; try lia.
    assert (Hi0 : clear_cell i v (2 * i) = SPACE /\
                  clear_cell i v (2 * i + 1) = ATTRIB /\
                  (forall o, o <> 2 * i -> o <> 2 * i + 1 ->
                             clear_cell i v o = v o)).
    { unfold clear_cell. int32. rewrite Z.add_0_r. repeat split.
      - rewrite store_other by lia. apply store_same.
      - apply store_same.
      - intros o H0 H1. now rewrite !store_other by lia. }
    destruct Hi0 as (C0 & C1 & Co).
    split.
    + intros k Hk. destruct (Z.eq_dec k i) as [-> | Hne].
      * unfold shows. rewrite !Hframe by lia. now split.
      * apply Hcells. lia.
    + intros o Ho. rewrite Hframe by lia. apply Co; lia.
Qed.

(** X1.  [terminal_clear] puts a blank with the attribute byte in every
    cell of the screen and the cursor in the top-left cell with an empty
    logical line; it changes no byte outside the video memory and leaves
    the input buffer as it is. *)
Theorem X1_terminal_clear_blanks_screen (term : terminal_state_t) :
  (forall k, 0 <= k < NUM_ROWS * NUM_COLS ->
     shows (video_mem (terminal_clear term)) k SPACE) /\
  same_outside_screen (video_mem term) (video_mem (terminal_clear term)) /\
  cursor (terminal_clear term) = mk_cursor 0 0 0 /\
  input (terminal_clear term) = input term.
Proof.
  unfold terminal_clear. cbn [video_mem cursor input].
  change (Int32.mul NUM_ROWS NUM_COLS) with 2000.
  destruct (clear_cells (Z.to_nat 2000) 0 (video_mem term)) as [Hcells Hframe];
    try lia.
  rewrite Z2Nat.id in Hcells, Hframe by lia.
  split; [ intros k Hk; apply Hcells; unfold NUM_ROWS, NUM_COLS in Hk; lia | ].
  split; [ | split; reflexivity ].
  intros o Ho. apply Hframe.
  unfold VIDEO_MEM_SIZE, NUM_ROWS, NUM_COLS in Ho. lia.
Qed.

Lemma scroll_down_outside (term : terminal_state_t) :
  same_outside_screen (video_mem term) (video_mem (terminal_scroll_down term)).
Proof.
  intros o Ho. unfold VIDEO_MEM_SIZE, NUM_ROWS, NUM_COLS in Ho.
  unfold terminal_scroll_down. cbn [video_mem set_video].
  change (Int32.shl NUM_COLS 1) with 160.
  change (Int32.sub (Int32.shl (Int32.mul NUM_COLS NUM_ROWS) 1) 160) with 3840.
  unfold memset, memmove.
  now rewrite !in_block_false by lia.
Qed.

(** X2.  [terminal_scroll_down] moves every row of the screen up by one
    row, byte for byte, fills the bottom row with zero bytes, changes
    nothing outside the video memory, and leaves the cursor and the input
    buffer alone. *)
Theorem X2_scroll_down_moves_rows_up (term : terminal_state_t) :
  (forall o, 0 <= o < 2 * NUM_COLS * (NUM_ROWS - 1) ->
     video_mem (terminal_scroll_down term) o
     = video_mem term (o + 2 * NUM_COLS)) /\
  (forall o, 2 * NUM_COLS * (NUM_ROWS - 1) <= o < VIDEO_MEM_SIZE ->
     video_mem (terminal_scroll_down term) o = 0) /\
  same_outside_screen (video_mem term) (video_mem (terminal_scroll_down term)) /\
  cursor (terminal_scroll_down term) = cursor term /\
  input (terminal_scroll_down term) = input term.
Proof.
  split; [ intros o Ho; now apply scroll_down_rows | ].
  split.
  - intros o Ho. apply scroll_down_last_row.
    unfold VIDEO_MEM_SIZE, NUM_ROWS, NUM_COLS in *. lia.
  - split; [ apply scroll_down_outside | split; reflexivity ].
Qed.

Lemma same_outside_screen_refl (v : mem) : same_outside_screen v v.
Proof. intros o _. reflexivity. Qed.

Lemma same_outside_screen_trans (u v w : mem) :
  same_outside_screen u v -> same_outside_screen v w -> same_outside_screen u w.
Proof. intros H1 H2 o Ho. rewrite H2, H1 by exact Ho. reflexivity. Qed.

Lemma write_char_on_screen (term : terminal_state_t) (c : Z) :
  on_screen term ->
  shows (video_mem (terminal_write_char term c)) (cursor_cell term) c /\
  (forall o, o <> 2 * cursor_cell term -> o <> 2 * cursor_cell term + 1 ->
     video_mem (terminal_write_char term c) o = video_mem term o) /\
  same_outside_screen (video_mem term) (video_mem (terminal_write_char term c)).
Proof.
  intros [Hx Hy].
  assert (Hat : at_cell term (cursor_cell term))
    by (unfold at_cell, cursor_cell; repeat split; lia).
  destruct (write_char_cells term c _ Hat) as (W0 & W1 & Wo);
    [ unfold NUM_ROWS in *; lia | ].
  split; [ split; assumption | ]. split; [ exact Wo | ].
  intros o Ho. apply Wo;
    unfold cursor_cell, VIDEO_MEM_SIZE, NUM_ROWS, NUM_COLS in *; lia.
Qed.

Lemma scroll_if_needed_on_screen (term : terminal_state_t) :
  0 <= screen_x (cursor term) < NUM_COLS ->
  0 <= screen_y (cursor term) <= NUM_ROWS ->
  on_screen (scroll_if_needed term) /\
  same_outside_screen (video_mem term) (video_mem (scroll_if_needed term)).
Proof.
  intros Hx Hy. unfold scroll_if_needed, on_screen.
  destruct (Z.geb_spec (screen_y (cursor term)) NUM_ROWS) as [Hge | Hlt].
  - cbn [set_cursor cursor screen_x screen_y video_mem].
    change (cursor (terminal_scroll_down term)) with (cursor term).
    unfold NUM_ROWS, NUM_COLS in *. int32.
    split; [ lia | apply scroll_down_outside ].
  - split; [ lia | apply same_outside_screen_refl ].
Qed.

(** One byte other than a backspace. *)
Lemma putc_keeps_on_screen (c : Z) (term : terminal_state_t) :
  c <> BACKSPACE -> on_screen term ->
  on_screen (terminal_putc c term) /\
  same_outside_screen (video_mem term) (video_mem (terminal_putc c term)).
Proof.
  intros Hb Hon. pose proof Hon as [Hx Hy]. unfold terminal_putc.
  destruct ((c =? NEWLINE) || (c =? CARRIAGE)).
  - match goal with
    | |- on_screen (scroll_if_needed ?t) /\ _ =>
        destruct (scroll_if_needed_on_screen t) as [Hon' Hout']
    end;
      [ cbn [set_cursor cursor screen_x screen_y];
        unfold NUM_ROWS, NUM_COLS in *; int32; lia ..
      | split; [ exact Hon' | exact Hout' ] ].
  - apply Z.eqb_neq in Hb. rewrite Hb.
    destruct (write_char_on_screen term c Hon) as (_ & _ & Hout).
    match goal with
    | |- on_screen (scroll_if_needed ?t) /\ _ =>
        destruct (scroll_if_needed_on_screen t) as [Hon' Hout']
    end.
    + cbn [set_cursor cursor screen_x screen_y]. unfold NUM_COLS in *. int32.
      destruct (Z.geb_spec (screen_x (cursor term) + 1) 80);
        cbn [screen_x]; int32; lia.
    + cbn [set_cursor cursor screen_x screen_y].
      unfold NUM_ROWS, NUM_COLS in *. int32.
      destruct (Z.geb_spec (screen_x (cursor term) + 1) 80);
        cbn [screen_y]; int32; lia.
    + split; [ exact Hon' | ].
      eapply same_outside_screen_trans; [ exact Hout | exact Hout' ].
Qed.

(** X3.  Whatever bytes [terminal_write] prints, as long as none is a
    backspace: a cursor that is on the screen stays on the screen, no byte
    outside the video memory changes, and the call returns the number of
    bytes it was given. *)
Theorem X3_write_stays_on_screen (cs : list Z) (term : terminal_state_t) :
  Forall (fun c => c <> BACKSPACE) cs -> on_screen term ->
  fst (terminal_write cs term) = Z.of_nat (List.length cs) /\
  on_screen (snd (terminal_write cs term)) /\
  same_outside_screen (video_mem term) (video_mem (snd (terminal_write cs term))).
Proof.
  intros Hcs Hon. split; [ reflexivity | ].
  unfold terminal_write. cbn [snd].
  revert term Hon. induction Hcs as [ | c cs Hc Hcs IH ]; intros term Hon.
  - split; [ exact Hon | apply same_outside_screen_refl ].
  - cbn [fold_left].
    destruct (putc_keeps_on_screen c term Hc Hon) as [Hon1 Hout1].
    destruct (IH _ Hon1) as [Hon2 Hout2].
    split; [ exact Hon2 | ].
    eapply same_outside_screen_trans; [ exact Hout1 | exact Hout2 ].
Qed.

Lemma X3_write_stays_on_screen_witness :
  fst (terminal_write [104; 105; NEWLINE] (blank_terminal 0 79 24)) = 3 /\
  on_screen (snd (terminal_write [104; 105; NEWLINE] (blank_terminal 0 79 24))) /\
  same_outside_screen
    (video_mem (blank_terminal 0 79 24))
    (video_mem (snd (terminal_write [104; 105; NEWLINE] (blank_terminal 0 79 24)))).
Proof.
  apply (X3_write_stays_on_screen [104; 105; NEWLINE] (blank_terminal 0 79 24)).
  - repeat constructor; unfold BACKSPACE, NEWLINE; lia.
  - unfold on_screen, NUM_COLS, NUM_ROWS. cbn. lia.
Defined.

(** X4.  A backspace printed while the logical line starts on the screen
    (0 < logical_x <= the cell number of the cursor) moves the cursor back
    by exactly one cell, across a row boundary if need be, keeps it on the
    screen, takes one off logical_x, and puts a blank in the cell it
    arrives at; no other byte of memory changes. *)
Theorem X4_backspace_moves_back_one_cell (term : terminal_state_t) :
  on_screen term ->
  0 < logical_x (cursor term) <= cursor_cell term ->
  on_screen (terminal_putc BACKSPACE term) /\
  cursor_cell (terminal_putc BACKSPACE term) = cursor_cell term - 1 /\
  logical_x (cursor (terminal_putc BACKSPACE term)) = logical_x (cursor term) - 1 /\
  shows (video_mem (terminal_putc BACKSPACE term)) (cursor_cell term - 1) SPACE /\
  (forall o, o <> 2 * (cursor_cell term - 1) ->
             o <> 2 * (cursor_cell term - 1) + 1 ->
     video_mem (terminal_putc BACKSPACE term) o = video_mem term o).
Proof.
  intros [Hx Hy] Hl. unfold cursor_cell in Hl.
  unfold terminal_putc.
  change ((BACKSPACE =? NEWLINE) || (BACKSPACE =? CARRIAGE)) with false.
  change (BACKSPACE =? BACKSPACE) with true. cbv iota.
  destruct (Z.gtb_spec (logical_x (cursor term)) 0) as [_ | Hn]; [ | lia ].
  unfold NUM_COLS, NUM_ROWS in *. int32.
  set (cur' := if screen_x (cursor term) - 1 <? 0 then _ else _).
  assert (Hcur : 0 <= screen_x cur' < 80 /\ 0 <= screen_y cur' < 25 /\
                 screen_y cur' * 80 + screen_x cur'
                 = screen_y (cursor term) * 80 + screen_x (cursor term) - 1 /\
                 logical_x cur' = logical_x (cursor term) - 1).
  { unfold cur'.
    destruct (Z.ltb_spec (screen_x (cursor term) - 1) 0);
      cbn [screen_x screen_y logical_x]; int32; lia. }
  destruct Hcur as (Hx' & Hy' & Hcell & Hlx).
  assert (Hon' : on_screen (set_cursor term cur'))
    by (unfold on_screen, NUM_COLS, NUM_ROWS; cbn [set_cursor cursor]; lia).
  destruct (write_char_on_screen (set_cursor term cur') SPACE Hon')
    as (Hshow & Hother & _).
  assert (Ecell : cursor_cell (set_cursor term cur') = cursor_cell term - 1)
    by (unfold cursor_cell, NUM_COLS; cbn [set_cursor cursor]; exact Hcell).
  rewrite Ecell in Hshow, Hother.
  split; [ unfold on_screen, NUM_COLS, NUM_ROWS;
           rewrite terminal_write_char_cursor; cbn [set_cursor cursor]; lia | ].
  split; [ exact Ecell | ]. split; [ exact Hlx | ].
  split; [ exact Hshow | exact Hother ].
Qed.

Lemma X4_backspace_moves_back_one_cell_witness :
  on_screen (terminal_putc BACKSPACE (blank_terminal 80 0 1)) /\
  cursor_cell (terminal_putc BACKSPACE (blank_terminal 80 0 1))
  = cursor_cell (blank_terminal 80 0 1) - 1 /\
  logical_x (cursor (terminal_putc BACKSPACE (blank_terminal 80 0 1)))
  = logical_x (cursor (blank_terminal 80 0 1)) - 1 /\
  shows (video_mem (terminal_putc BACKSPACE (blank_terminal 80 0 1)))
        (cursor_cell (blank_terminal 80 0 1) - 1) SPACE /\
  (forall o, o <> 2 * (cursor_cell (blank_terminal 80 0 1) - 1) ->
             o <> 2 * (cursor_cell (blank_terminal 80 0 1) - 1) + 1 ->
     video_mem (terminal_putc BACKSPACE (blank_terminal 80 0 1)) o
     = video_mem (blank_terminal 80 0 1) o).
Proof.
  apply (X4_backspace_moves_back_one_cell (blank_terminal 80 0 1)).
  - unfold on_screen, NUM_COLS, NUM_ROWS. cbn. lia.
  - unfold cursor_cell, NUM_COLS. cbn. lia.
Defined.

(** X5.  A plain byte followed by a backspace, printed anywhere but in
    the last cell of the screen: the cursor (logical_x, screen_x and
    screen_y) is back where it was, also when the byte had wrapped it to
    the next row; the cell holds a blank, and nothing else has changed. *)
Theorem X5_plain_then_backspace (c : Z) (term : terminal_state_t) :
  plain c -> on_screen term ->
  cursor_cell term + 1 < NUM_ROWS * NUM_COLS ->
  0 <= logical_x (cursor term) < Int32.max_signed ->
  cursor (terminal_putc BACKSPACE (terminal_putc c term)) = cursor term /\
  shows (video_mem (terminal_putc BACKSPACE (terminal_putc c term)))
        (cursor_cell term) SPACE /\
  (forall o, o <> 2 * cursor_cell term -> o <> 2 * cursor_cell term + 1 ->
     video_mem (terminal_putc BACKSPACE (terminal_putc c term)) o
     = video_mem term o) /\
  input (terminal_putc BACKSPACE (terminal_putc c term)) = input term.
Proof.
  intros (_ & Hn & Hr & Hb) [Hx Hy] Hcell Hl.
  destruct term as [inp [lx x y] vm].
  unfold cursor_cell, NUM_ROWS, NUM_COLS, Int32.max_signed, Int32.half in *.
  cbn [cursor screen_x screen_y logical_x] in *.
  assert (Hoff : cell_offset x y = 2 * (y * 80 + x))
    by (rewrite cell_offset_small; unfold NUM_ROWS, NUM_COLS; lia).
  apply Z.eqb_neq in Hn, Hr, Hb.
  unfold terminal_putc at 2 4 6 8.
  cbn [cursor screen_x screen_y logical_x].
  rewrite Hn, Hr, Hb. cbn [orb].
  assert (E1 : scroll_if_needed
                 (set_cursor (terminal_write_char (mk_term inp (mk_cursor lx x y) vm) c)
                    (if Int32.add x 1 >=? NUM_COLS
                     then mk_cursor (Int32.add lx 1)
                            (Int32.sub (Int32.add x 1) NUM_COLS) (Int32.add y 1)
                     else mk_cursor (Int32.add lx 1) (Int32.add x 1) y))
               = mk_term inp
                   (if x + 1 >=? 80 then mk_cursor (lx + 1) 0 (y + 1)
                    else mk_cursor (lx + 1) (x + 1) y)
                   (store (store vm (2 * (y * 80 + x)) c)
                          (2 * (y * 80 + x) + 1) ATTRIB)).
  { unfold scroll_if_needed, terminal_write_char, NUM_COLS, NUM_ROWS.
    cbn [cursor screen_x screen_y set_cursor set_video video_mem input].
    rewrite Hoff. int32. rewrite Z.add_0_r.
    destruct (Z.geb_spec (x + 1) 80) as [Hge | Hlt];
      cbn [cursor screen_y].
    - int32. replace (x + 1 - 80) with 0 by lia.
      destruct (Z.geb_spec (y + 1) 25); [ lia | reflexivity ].
    - destruct (Z.geb_spec y 25); [ lia | reflexivity ]. }
  rewrite E1. clear E1.
  unfold terminal_putc.
  change ((BACKSPACE =? NEWLINE) || (BACKSPACE =? CARRIAGE)) with false.
  change (BACKSPACE =? BACKSPACE) with true. cbv iota.
  cbn [cursor].
  assert (Hoff' : forall x' y', x' = x -> y' = y ->
            cell_offset x' y' = 2 * (y * 80 + x))
    by (intros; subst; exact Hoff).
  destruct (Z.geb_spec (x + 1) 80) as [Hge | Hlt];
    cbn [logical_x screen_x screen_y].
  - destruct (Z.gtb_spec (lx + 1) 0); [ | lia ].
    int32. change (0 - 1 <? 0) with true. cbv iota.
    unfold terminal_write_char, NUM_COLS.
    cbn [cursor screen_x screen_y set_cursor set_video video_mem input].
    int32. rewrite (Hoff' (0 - 1 + 80) (y + 1 - 1)) by lia.
    int32. rewrite Z.add_0_r.
    split; [ f_equal; lia | ].
    split; [ split; [ rewrite store_other by lia; apply store_same
                    | apply store_same ] | ].
    split; [ | reflexivity ].
    intros o Ho0 Ho1. now rewrite !store_other by lia.
  - destruct (Z.gtb_spec (lx + 1) 0); [ | lia ].
    int32. destruct (Z.ltb_spec (x + 1 - 1) 0); [ lia | ].
    unfold terminal_write_char.
    cbn [cursor screen_x screen_y set_cursor set_video video_mem input].
    rewrite (Hoff' (x + 1 - 1) y) by lia.
    int32. rewrite Z.add_0_r.
    split; [ f_equal; lia | ].
    split; [ split; [ rewrite store_other by lia; apply store_same
                    | apply store_same ] | ].
    split; [ | reflexivity ].
    intros o Ho0 Ho1. now rewrite !store_other by lia.
Qed.

Lemma X5_plain_then_backspace_witness :
  cursor (terminal_putc BACKSPACE (terminal_putc 97 (blank_terminal 79 79 0)))
  = cursor (blank_terminal 79 79 0) /\
  shows (video_mem (terminal_putc BACKSPACE
                      (terminal_putc 97 (blank_terminal 79 79 0))))
        (cursor_cell (blank_terminal 79 79 0)) SPACE /\
  (forall o, o <> 2 * cursor_cell (blank_terminal 79 79 0) ->
             o <> 2 * cursor_cell (blank_terminal 79 79 0) + 1 ->
     video_mem (terminal_putc BACKSPACE
                  (terminal_putc 97 (blank_terminal 79 79 0))) o
     = video_mem (blank_terminal 79 79 0) o) /\
  input (terminal_putc BACKSPACE (terminal_putc 97 (blank_terminal 79 79 0)))
  = input (blank_terminal 79 79 0).
Proof.
  apply (X5_plain_then_backspace 97 (blank_terminal 79 79 0)).
  - unfold plain, NEWLINE, CARRIAGE, BACKSPACE. lia.
  - unfold on_screen, NUM_COLS, NUM_ROWS. cbn. lia.
  - unfold cursor_cell, NUM_COLS, NUM_ROWS. cbn. lia.
  - unfold Int32.max_signed, Int32.half. cbn. lia.
Defined.

(** X6.  The code does not keep the cursor on the screen under
    backspaces: printed in the top-left cell while logical_x is still
    positive (the logical line began above the screen, after scrolling), a
    backspace moves the cursor to column NUM_COLS - 1 of row -1 and stores
    the blank and the attribute byte in the two bytes below the start of
    the video memory. *)
Theorem X6_backspace_at_top_left_leaves_screen (term : terminal_state_t) :
  screen_x (cursor term) = 0 -> screen_y (cursor term) = 0 ->
  0 < logical_x (cursor term) <= Int32.max_signed ->
  screen_y (cursor (terminal_putc BACKSPACE term)) = -1 /\
  screen_x (cursor (terminal_putc BACKSPACE term)) = NUM_COLS - 1 /\
  video_mem (terminal_putc BACKSPACE term) (-2) = SPACE /\
  video_mem (terminal_putc BACKSPACE term) (-1) = ATTRIB.
Proof.
  intros Hx Hy Hl. unfold Int32.max_signed, Int32.half in Hl.
  unfold terminal_putc.
  change ((BACKSPACE =? NEWLINE) || (BACKSPACE =? CARRIAGE)) with false.
  change (BACKSPACE =? BACKSPACE) with true. cbv iota.
  destruct (Z.gtb_spec (logical_x (cursor term)) 0) as [_ | Hn]; [ | lia ].
  rewrite Hx, Hy.
  change (Int32.sub 0 1 <? 0) with true. cbv iota.
  unfold terminal_write_char.
  cbn [set_cursor set_video cursor video_mem screen_x screen_y].
  change (Int32.add (Int32.sub 0 1) NUM_COLS) with 79.
  change (Int32.sub 0 1) with (-1).
  change (Int32.add (cell_offset 79 (-1)) 0) with (-2).
  change (Int32.add (cell_offset 79 (-1)) 1) with (-1).
  repeat split.
Qed.

(** The state of the witness is one the code reaches: a cleared screen, a
    logical line of 2000 plain bytes, which scrolls once, and 1920
    backspaces. *)
Lemma X6_backspace_at_top_left_leaves_screen_witness :
  screen_y (cursor (terminal_putc BACKSPACE
     (write_all long_line_erased (terminal_clear (blank_terminal 0 0 0))))) = -1 /\
  screen_x (cursor (terminal_putc BACKSPACE
     (write_all long_line_erased (terminal_clear (blank_terminal 0 0 0)))))
  = NUM_COLS - 1 /\
  video_mem (terminal_putc BACKSPACE
     (write_all long_line_erased (terminal_clear (blank_terminal 0 0 0)))) (-2)
  = SPACE /\
  video_mem (terminal_putc BACKSPACE
     (write_all long_line_erased (terminal_clear (blank_terminal 0 0 0)))) (-1)
  = ATTRIB.
Proof.
  apply (X6_backspace_at_top_left_leaves_screen
           (write_all long_line_erased (terminal_clear (blank_terminal 0 0 0)))).
  - vm_compute. reflexivity.
  - vm_compute. reflexivity.
  - vm_compute. split; [ reflexivity | discriminate ].
Defined.

Lemma terminal_putc_input_unchanged (c : Z) (term : terminal_state_t) :
  input (terminal_putc c term) = input term.
Proof.
  unfold terminal_putc, scroll_if_needed.
  repeat match goal with
         | |- context [if ?b then _ else _] => destruct b
         end; reflexivity.
Qed.

End ScreenFacts.

(** ** The input buffer and the blocking read *)

Module InputFacts.

Import Terminal TerminalSpec MemFacts TerminalInput.

Section Buffer.

Variable TERMINAL_BUF_SIZE : Z.

(** The buffer size is a size, and an [int32_t]. *)
Hypothesis size_ok : 0 <= TERMINAL_BUF_SIZE <= Int32.max_signed.

Local Abbreviation deliver := (Terminal.deliver TERMINAL_BUF_SIZE).
Local Abbreviation terminal_read := (Terminal.terminal_read TERMINAL_BUF_SIZE).
Local Abbreviation count_ok := (TerminalSpec.count_ok TERMINAL_BUF_SIZE).

(** X7.  The stored count never leaves [[0, TERMINAL_BUF_SIZE]]: not under
    any run of keyboard events, and not under a read that returns,
    whatever arrives while it waits. *)
Theorem X7_count_stays_in_bounds (g : globals) :
  count_ok g ->
  (forall w, count_ok (deliver w g)) /\
  (forall future nbytes r,
     terminal_read future g nbytes = Some r -> count_ok (read_globals r)).
Proof.
  intros Hg. split.
  - intros w. now apply deliver_count_ok.
  - intros future nbytes r Hr.
    destruct (terminal_read_moves_as_many_as_read _ size_ok _ _ _ _ Hg Hr)
      as (g' & Hok & _).
    exact Hok.
Qed.

Lemma handle_char_input_full (c : Z) (term : terminal_state_t) :
  c <> BACKSPACE -> TERMINAL_BUF_SIZE <= count (input term) ->
  handle_char_input TERMINAL_BUF_SIZE c term = term.
Proof.
  intros Hc Hfull. unfold handle_char_input.
  apply Z.eqb_neq in Hc. rewrite Hc. cbn [andb negb].
  destruct (Z.ltb_spec (count (input term)) TERMINAL_BUF_SIZE);
    [ lia | reflexivity ].
Qed.

Lemma globals_eta (g : globals) :
  mk_globals (executing_terminal g) (display_terminal g) = g.
Proof. now destruct g. Qed.

(** X8.  Typed bytes (no backspace among them) are appended to the buffer
    in order until it holds TERMINAL_BUF_SIZE bytes; the bytes typed after
    that are dropped, and the bytes buffered before are not disturbed. *)
Theorem X8_typed_bytes_fill_then_drop (l : list Z) :
  forall (g : globals) (done : list Z),
    holds g done ->
    Z.of_nat (List.length done) <= TERMINAL_BUF_SIZE ->
    Forall (fun c => c <> BACKSPACE) l ->
    holds (deliver (map KTYP_CHAR l) g)
          (firstn (Z.to_nat TERMINAL_BUF_SIZE) (done ++ l)).
Proof.
  pose proof size_ok as HB. unfold Int32.max_signed, Int32.half in HB.
  induction l as [ | c l IH ]; intros g done Hg Hlen Hl.
  - rewrite app_nil_r, firstn_all2 by lia. exact Hg.
  - inversion Hl as [ | ? ? Hc Hl' ]; subst.
    change (deliver (map KTYP_CHAR (c :: l)) g)
      with (deliver (map KTYP_CHAR l) (deliver [KTYP_CHAR c] g)).
    destruct (Z.eq_dec (Z.of_nat (List.length done)) TERMINAL_BUF_SIZE)
      as [Efull | Hroom].
    + (* the buffer is full: the byte is dropped *)
      assert (Eg : deliver [KTYP_CHAR c] g = g).
      { unfold Terminal.deliver.
        cbn [fold_left terminal_handle_input]. unfold on_executing.
        rewrite handle_char_input_full; [ apply globals_eta | exact Hc | ].
        destruct Hg as [Hcount _]. unfold input_of in Hcount. lia. }
      rewrite Eg.
      replace (firstn (Z.to_nat TERMINAL_BUF_SIZE) (done ++ c :: l))
        with (firstn (Z.to_nat TERMINAL_BUF_SIZE) (done ++ l)).
      * now apply IH.
      * rewrite !firstn_app.
        replace (Z.to_nat TERMINAL_BUF_SIZE - List.length done)%nat with 0%nat
          by lia.
        reflexivity.
    + (* there is room: the byte is appended *)
      replace (done ++ c :: l) with ((done ++ [c]) ++ l)
        by (now rewrite <- app_assoc).
      apply IH; [ | rewrite length_app; cbn [List.length]; lia | exact Hl' ].
      apply (holds_snoc g); [ exact Hg | ].
      destruct Hg as [Hcount _].
      apply deliver_char; [ exact Hc | lia | lia ].
Qed.

(** X9.  A typed backspace takes the last byte off the buffer and leaves
    the bytes before it; on an empty buffer it changes nothing at all, the
    screen included. *)
Theorem X9_typed_backspace (g : globals) :
  count_ok g ->
  (forall done c,
     holds g (done ++ [c]) ->
     holds (deliver [KTYP_CHAR BACKSPACE] g) done) /\
  (count (input_of g) = 0 -> deliver [KTYP_CHAR BACKSPACE] g = g).
Proof.
  pose proof size_ok as HB. unfold Int32.max_signed, Int32.half in HB.
  unfold TerminalSpec.count_ok, Terminal.deliver, input_of. intros Hok.
  cbn [fold_left terminal_handle_input]. unfold on_executing, handle_char_input.
  change (BACKSPACE =? BACKSPACE) with true. cbn [andb negb].
  split.
  - intros done c [Hcount Hbuf]. unfold input_of in *.
    rewrite length_app in Hcount. cbn [List.length] in Hcount.
    destruct (Z.gtb_spec (count (input (executing_terminal g))) 0); [ | lia ].
    unfold holds, input_of. cbn [executing_terminal].
    rewrite terminal_putc_input. cbn [set_input input count buf].
    split.
    + int32. lia.
    + intros j Hj. rewrite Hbuf by (rewrite length_app; cbn [List.length]; lia).
      now rewrite app_nth1 by lia.
  - intros Hempty. rewrite Hempty. change (0 >? 0) with false. cbv iota.
    apply globals_eta.
Qed.

Lemma prefix_of_holds (g : globals) (l : list Z) :
  holds g l -> prefix (buf (input_of g)) (List.length l) = l.
Proof.
  intros [_ Hb]. unfold prefix.
  apply nth_ext with (d := 0) (d' := 0).
  - now rewrite length_map, length_seq.
  - intros j Hj. rewrite length_map, length_seq in Hj.
    rewrite (nth_indep _ 0 (buf (input_of g) (Z.of_nat 0)))
      by (now rewrite length_map, length_seq).
    rewrite (map_nth (fun i => buf (input_of g) (Z.of_nat i))).
    rewrite seq_nth by assumption. cbn [Nat.add]. now apply Hb.
Qed.

(** X10.  A line, part of which may be in the buffer already, whose rest
    and newline are typed while the read waits: however the keyboard
    interrupts are spread over the halts, the read returns, delivers
    exactly the line with its newline, and leaves the buffer empty,
    provided the line fits the request and the buffer. *)
Theorem X10_read_returns_the_typed_line (future : list wakeup) (g : globals)
      (done rest : list Z) (nbytes : Z) :
  holds g done ->
  Forall ordinary (done ++ rest) ->
  delivers future (rest ++ [NEWLINE]) ->
  Z.of_nat (List.length done + List.length rest) + 1 <= nbytes ->
  Z.of_nat (List.length done + List.length rest) + 1 <= TERMINAL_BUF_SIZE ->
  exists r,
    terminal_read future g nbytes = Some r /\
    read_ret r = Z.of_nat (List.length done + List.length rest) + 1 /\
    read_dest r = done ++ rest ++ [NEWLINE] /\
    count (input_of (read_globals r)) = 0.
Proof.
  pose proof size_ok as HB. unfold Int32.max_signed, Int32.half in HB.
  intros Hg Hord Hdel Hn Hfit.
  set (n := if nbytes >? TERMINAL_BUF_SIZE then TERMINAL_BUF_SIZE else nbytes).
  assert (Hn' : Z.of_nat (List.length done + List.length rest) + 1 <= n)
    by (unfold n; destruct (Z.gtb_spec nbytes TERMINAL_BUF_SIZE); lia).
  destruct (wait_for_line _ size_ok future g done rest n Hg Hord Hdel Hn' Hfit)
    as (g' & future' & Ew & Hg').
  pose proof (prefix_of_holds g' _ Hg') as Hpre.
  destruct Hg' as [Hc _].
  rewrite !length_app in Hc, Hpre. cbn [List.length] in Hc, Hpre.
  unfold Terminal.terminal_read. fold n. rewrite Ew. fold (input_of g').
  rewrite copy_out_spec by (unfold Int32.max_signed, Int32.half; lia).
  eexists. split; [ reflexivity | ].
  cbn [read_ret read_dest read_globals input_of executing_terminal set_input
       input count].
  fold (input_of g').
  replace (Z.to_nat (Z.of_nat (List.length done + List.length rest) + 1))
    with (List.length done + (List.length rest + 1))%nat by lia.
  split; [ lia | ]. split.
  - rewrite <- Hpre. apply map_ext. intros j. now rewrite Z.add_0_l.
  - rewrite Hc. int32. lia.
Qed.

(** What [wait_until_readable] has consumed when it returns: a prefix of
    the wake-ups it was offered; the state it returns in is the state it
    started from after the key events of exactly those wake-ups. *)
Lemma wait_consumes (future : list wakeup) :
  forall g n k g' future',
    wait_until_readable TERMINAL_BUF_SIZE future g n = Some (k, g', future') ->
    exists consumed,
      future = consumed ++ future' /\
      g' = deliver (List.concat consumed) g.
Proof.
  induction future as [ | w future IH ]; intros g n k g' future' Hw;
    rewrite wait_unfold in Hw;
    destruct (n >? count (input_of g)).
  - destruct (scan_newline _ _ 0); [ | discriminate ].
    injection Hw as <- <- <-. now exists [].
  - injection Hw as <- <- <-. now exists [].
  - destruct (scan_newline _ _ 0).
    + injection Hw as <- <- <-. now exists [].
    + destruct (IH _ _ _ _ _ Hw) as (consumed & -> & ->).
      exists (w :: consumed). split; [ reflexivity | ].
      cbn [List.concat]. unfold Terminal.deliver. now rewrite fold_left_app.
  - injection Hw as <- <- <-. now exists [].
Qed.

(** X11.  What a read that returns has delivered.  The wake-ups it
    consumed are a prefix of those it was offered, the rest is left; with
    [g'] the state the read started from after the key events of exactly
    the consumed wake-ups, the bytes delivered are the first bytes of the
    input buffer of [g'], as many as the return value, which is at most the
    count [g'] holds; the return value is the full request (cut to
    TERMINAL_BUF_SIZE), or else it is shorter, and the delivered bytes end
    with a newline and hold no other newline.  Afterwards the count is the
    count of [g'] less the return value. *)
Theorem X11_read_delivers_request_or_line (future : list wakeup) (g : globals)
      (nbytes : Z) (r : read_result) :
  count_ok g ->
  terminal_read future g nbytes = Some r ->
  exists consumed g',
    future = consumed ++ read_future r /\
    g' = deliver (List.concat consumed) g /\
    read_dest r = prefix (buf (input_of g')) (Z.to_nat (read_ret r)) /\
    0 <= read_ret r <= count (input_of g') /\
    (read_ret r = Z.max 0 (Z.min nbytes TERMINAL_BUF_SIZE) \/
     (0 < read_ret r < Z.min nbytes TERMINAL_BUF_SIZE /\
      buf (input_of g') (read_ret r - 1) = NEWLINE /\
      forall j, 0 <= j < read_ret r - 1 -> buf (input_of g') j <> NEWLINE)) /\
    count (input_of (read_globals r)) = count (input_of g') - read_ret r.
Proof.
  intros Hg Hr.
  destruct (terminal_read_effect _ size_ok _ _ _ _ Hg Hr)
    as (k & g' & Ew & Hg' & Hret & Hle & Hdest & Hcount & _).
  destruct (wait_until_readable_result _ size_ok _ _ _ _ _ _ Hg Ew) as (_ & Hk).
  destruct (wait_consumes _ _ _ _ _ _ Ew) as (consumed & Hfuture & Hstate).
  assert (En : (if nbytes >? TERMINAL_BUF_SIZE then TERMINAL_BUF_SIZE else nbytes)
               = Z.min nbytes TERMINAL_BUF_SIZE)
    by (destruct (Z.gtb_spec nbytes TERMINAL_BUF_SIZE); lia).
  rewrite En in Hk.
  exists consumed, g'.
  split; [ exact Hfuture | ]. split; [ exact Hstate | ].
  rewrite Hdest, Hret.
  split; [ f_equal; lia | ]. split; [ lia | ].
  split; [ | rewrite Hcount, Hret; reflexivity ].
  destruct Hk as [ [-> _] | (Hshort & Hpos & Hnl & Hno) ]; [ now left | right ].
  rewrite Z.max_r by lia. repeat split; try lia; assumption.
Qed.

(** X12.  The read does not return early: while the bytes in the buffer
    and the bytes typed hold no newline and are fewer than the request
    (cut to TERMINAL_BUF_SIZE), the read is still waiting after the last
    wake-up. *)
Theorem X12_read_waits_for_newline_or_count (future : list wakeup) :
  forall (g : globals) (done typed : list Z) (nbytes : Z),
    holds g done ->
    Forall ordinary (done ++ typed) ->
    delivers future typed ->
    Z.of_nat (List.length done + List.length typed) < nbytes ->
    Z.of_nat (List.length done + List.length typed) < TERMINAL_BUF_SIZE ->
    terminal_read future g nbytes = None.
Proof.
  pose proof size_ok as HB. unfold Int32.max_signed, Int32.half in HB.
  intros g done typed nbytes Hg Hord Hdel Hn Hfit.
  unfold Terminal.terminal_read.
  set (n := if nbytes >? TERMINAL_BUF_SIZE then TERMINAL_BUF_SIZE else nbytes).
  assert (Hn' : Z.of_nat (List.length done + List.length typed) < n)
    by (unfold n; destruct (Z.gtb_spec nbytes TERMINAL_BUF_SIZE); lia).
  clearbody n. clear Hn.
  enough (Hw : wait_until_readable TERMINAL_BUF_SIZE future g n = None)
    by (now rewrite Hw).
  revert g done typed Hg Hord Hdel Hn' Hfit. unfold delivers.
  induction future as [ | w future IH ]; intros g done typed Hg Hord Hdel Hn' Hfit.
  - assert (Hscan : scan_newline (buf (input_of g))
                      (Z.to_nat (count (input_of g))) 0 = None).
    { destruct Hg as [Hc Hb]. rewrite Hc, Nat2Z.id.
      apply scan_newline_none; [ lia | unfold Int32.max_signed, Int32.half; lia | ].
      apply (holds_no_newline g done (conj Hc Hb)).
      apply Forall_app in Hord. tauto. }
    rewrite wait_unfold, Hscan.
    destruct (Z.gtb_spec n (count (input_of g))) as [_ | Hle];
      [ reflexivity | destruct Hg as [Hc _]; lia ].
  - cbn [List.concat] in Hdel. symmetry in Hdel. apply map_eq_app in Hdel.
    destruct Hdel as (w1 & l2 & -> & <- & Hl2).
    assert (Hscan : scan_newline (buf (input_of g))
                      (Z.to_nat (count (input_of g))) 0 = None).
    { destruct Hg as [Hc Hb]. rewrite Hc, Nat2Z.id.
      apply scan_newline_none; [ lia | unfold Int32.max_signed, Int32.half; lia | ].
      apply (holds_no_newline g done (conj Hc Hb)).
      apply Forall_app in Hord. tauto. }
    rewrite wait_unfold, Hscan.
    destruct (Z.gtb_spec n (count (input_of g))) as [_ | Hle];
      [ | destruct Hg as [Hc _]; rewrite length_app in *; lia ].
    rewrite length_app in Hn', Hfit. rewrite app_assoc in Hord.
    apply (IH _ (done ++ w1) l2).
    + apply deliver_bytes; [ exact size_ok | exact Hg | | lia ].
      apply Forall_app in Hord. destruct Hord as [Hord _].
      apply Forall_app in Hord. destruct Hord as [_ Hw1].
      eapply Forall_impl; [ | exact Hw1 ]. intros c [_ Hc]. exact Hc.
    + exact Hord.
    + now symmetry.
    + rewrite length_app. lia.
    + rewrite length_app. lia.
Qed.

End Buffer.

Lemma holds_buffered (l : list Z) : holds (buffered l) l.
Proof.
  split; [ reflexivity | ].
  intros j Hj. unfold buffered, input_of, mem_of_list.
  cbn [executing_terminal input buf].
  destruct (Z.ltb_spec (Z.of_nat j) 0); [ lia | ].
  now rewrite Nat2Z.id.
Qed.

Lemma size_128_ok : 0 <= 128 <= Int32.max_signed.
Proof. vm_compute. split; discriminate. Qed.

Lemma size_3_ok : 0 <= 3 <= Int32.max_signed.
Proof. vm_compute. split; discriminate. Qed.

Lemma X7_count_stays_in_bounds_witness :
  (forall w, count_ok 128 (deliver 128 w (buffered [97; 98]))) /\
  (forall future nbytes r,
     terminal_read 128 future (buffered [97; 98]) nbytes = Some r ->
     count_ok 128 (read_globals r)).
Proof.
  apply (X7_count_stays_in_bounds 128 size_128_ok (buffered [97; 98])).
  vm_compute. split; discriminate.
Defined.

Lemma X8_typed_bytes_fill_then_drop_witness :
  holds (deliver 3 (map KTYP_CHAR [99; 100]) (buffered [97; 98]))
        (firstn (Z.to_nat 3) ([97; 98] ++ [99; 100])).
Proof.
  apply (X8_typed_bytes_fill_then_drop 3 size_3_ok [99; 100]
           (buffered [97; 98]) [97; 98]).
  - apply holds_buffered.
  - cbn [List.length]. lia.
  - repeat constructor; unfold BACKSPACE; lia.
Defined.

Lemma X9_typed_backspace_witness :
  (forall done c,
     holds (buffered [97; 98]) (done ++ [c]) ->
     holds (deliver 128 [KTYP_CHAR BACKSPACE] (buffered [97; 98])) done) /\
  (count (input_of (buffered [97; 98])) = 0 ->
   deliver 128 [KTYP_CHAR BACKSPACE] (buffered [97; 98]) = buffered [97; 98]).
Proof.
  apply (X9_typed_backspace 128 size_128_ok (buffered [97; 98])).
  vm_compute. split; discriminate.
Defined.

Lemma X10_read_returns_the_typed_line_witness :
  exists r,
    terminal_read 128 [[KTYP_CHAR 115]; []; [KTYP_CHAR NEWLINE]]
      (buffered [108]) 128 = Some r /\
    read_ret r = Z.of_nat (List.length [108] + List.length [115]) + 1 /\
    read_dest r = [108] ++ [115] ++ [NEWLINE] /\
    count (input_of (read_globals r)) = 0.
Proof.
  apply (X10_read_returns_the_typed_line 128 size_128_ok
           [[KTYP_CHAR 115]; []; [KTYP_CHAR NEWLINE]] (buffered [108])
           [108] [115] 128).
  - apply holds_buffered.
  - repeat constructor; unfold NEWLINE, BACKSPACE; lia.
  - reflexivity.
  - cbn [List.length]. lia.
  - cbn [List.length]. lia.
Defined.

Lemma X11_read_delivers_request_or_line_witness :
  exists consumed g',
    [[KTYP_CHAR 98]; [KTYP_CHAR 10]; [KTYP_CHAR 99]]
    = consumed ++ read_future read_5_while_typing /\
    g' = Terminal.deliver 128 (List.concat consumed) (buffered [97]) /\
    read_dest read_5_while_typing
    = prefix (buf (input_of g')) (Z.to_nat (read_ret read_5_while_typing)) /\
    0 <= read_ret read_5_while_typing <= count (input_of g') /\
    (read_ret read_5_while_typing = Z.max 0 (Z.min 5 128) \/
     (0 < read_ret read_5_while_typing < Z.min 5 128 /\
      buf (input_of g') (read_ret read_5_while_typing - 1) = NEWLINE /\
      forall j, 0 <= j < read_ret read_5_while_typing - 1 ->
                buf (input_of g') j <> NEWLINE)) /\
    count (input_of (read_globals read_5_while_typing))
    = count (input_of g') - read_ret read_5_while_typing.
Proof.
  apply (X11_read_delivers_request_or_line 128 size_128_ok
           [[KTYP_CHAR 98]; [KTYP_CHAR 10]; [KTYP_CHAR 99]]
           (buffered [97]) 5 read_5_while_typing).
  - vm_compute. split; discriminate.
  - reflexivity.
Defined.

Lemma X12_read_waits_for_newline_or_count_witness :
  terminal_read 128 [[KTYP_CHAR 104]; [KTYP_CHAR 105]] (buffered []) 5 = None.
Proof.
  apply (X12_read_waits_for_newline_or_count 128 size_128_ok
           [[KTYP_CHAR 104]; [KTYP_CHAR 105]] (buffered []) [] [104; 105] 5).
  - apply holds_buffered.
  - repeat constructor; unfold NEWLINE, BACKSPACE; lia.
  - reflexivity.
  - cbn [List.length]. lia.
  - cbn [List.length]. lia.
Defined.

End InputFacts.

(** ** The keyboard decoder, continued *)

Module DecoderFacts.

Import Keyboard KeyboardSpec KeyboardDecoder.

(** Decides equations of bit operations bit by bit. *)
Ltac bitwise :=
  apply Z.bits_inj'; intros ?n ?Hn;
  repeat first
    [ rewrite Z.land_spec | rewrite Z.lor_spec | rewrite Z.lxor_spec
    | rewrite Z.lnot_spec by assumption | rewrite Z.bits_0 ];
  repeat match goal with
         | |- context [Z.testbit ?a ?n] => destruct (Z.testbit a n)
         end;
  reflexivity.

Lemma only_own_bits_set (m k : Z) :
  Z.land (Z.lxor (Z.lor m k) m) (Z.lnot k) = 0.
Proof. bitwise. Qed.

Lemma only_own_bits_cleared (m k : Z) :
  Z.land (Z.lxor (Z.land m (Z.lnot k)) m) (Z.lnot k) = 0.
Proof. bitwise. Qed.

Lemma only_own_bits_toggled (m k : Z) :
  Z.land (Z.lxor (Z.lxor m k) m) (Z.lnot k) = 0.
Proof. bitwise. Qed.

Lemma no_bits_changed (m k : Z) : Z.land (Z.lxor m m) (Z.lnot k) = 0.
Proof. bitwise. Qed.

Lemma cleared_is_subset (m k : Z) :
  Z.land (Z.land m (Z.lnot k)) (Z.lnot m) = 0.
Proof. bitwise. Qed.

(** Whatever the header and the modifier state, a packet changes at
    most the modifier bits of its own key: outside the mask that
    [keycode_to_modifier] gives for its keycode, the state after is the
    state before. *)
Lemma packet_changes_only_own_bits (h : keyboard_h) (packet m : Z) :
  Z.land (Z.lxor (snd (process_packet h packet m)) m)
         (Z.lnot (packet_mask h packet)) = 0.
Proof.
  unfold process_packet, packet_mask, set_modifier_bit, toggle_modifier_bit.
  set (mask := keycode_to_modifier h (Z.land packet 127)).
  destruct (mask =? KMOD_NONE h); cbn [negb].
  - destruct ((if Z.land packet 128 =? 0 then 1 else 0) =? 1);
      cbn [snd]; apply no_bits_changed.
  - destruct (mask =? KMOD_CAPS h).
    + destruct ((if Z.land packet 128 =? 0 then 1 else 0) =? 1); cbn [snd];
        [ apply only_own_bits_toggled | apply no_bits_changed ].
    + destruct ((if Z.land packet 128 =? 0 then 1 else 0) =? 0); cbn [negb snd];
        [ apply only_own_bits_cleared | apply only_own_bits_set ].
Qed.

(** X13.  A release packet (high bit set) never yields an input event and
    never sets a modifier bit: the state after it is the state before, or
    the state before without the bits of the released key. *)
Theorem X13_release_yields_no_event (h : keyboard_h) (packet m : Z) :
  Z.land packet 128 <> 0 ->
  fst (process_packet h packet m) = KTYP_NONE /\
  (snd (process_packet h packet m) = m \/
   snd (process_packet h packet m) = Z.land m (Z.lnot (packet_mask h packet))) /\
  Z.land (snd (process_packet h packet m)) (Z.lnot m) = 0.
Proof.
  intros Hrel. apply Z.eqb_neq in Hrel.
  unfold process_packet, packet_mask, set_modifier_bit. rewrite Hrel.
  change (0 =? 1) with false. change (negb (0 =? 0)) with false.
  set (mask := keycode_to_modifier h (Z.land packet 127)).
  destruct (mask =? KMOD_NONE h); cbn [negb fst snd].
  - split; [ reflexivity | ]. split; [ now left | apply Z.land_lnot_diag ].
  - destruct (mask =? KMOD_CAPS h); cbn [fst snd].
    + split; [ reflexivity | ]. split; [ now left | apply Z.land_lnot_diag ].
    + split; [ reflexivity | ]. split; [ now right | apply cleared_is_subset ].
Qed.

Lemma X13_release_yields_no_event_witness :
  fst (process_packet pc_at 0xAA 12) = KTYP_NONE /\
  (snd (process_packet pc_at 0xAA 12) = 12 \/
   snd (process_packet pc_at 0xAA 12)
   = Z.land 12 (Z.lnot (packet_mask pc_at 0xAA))) /\
  Z.land (snd (process_packet pc_at 0xAA 12)) (Z.lnot 12) = 0.
Proof.
  apply (X13_release_yields_no_event pc_at 0xAA 12).
  vm_compute. discriminate.
Defined.

Section WithHeader.

Variable h : keyboard_h.
Hypothesis Hok : header_ok h = true.

Lemma keycode_to_modifier_caps :
  keycode_to_modifier h (KC_CAPS_LOCK h) = KMOD_CAPS h.
Proof.
  pose proof Hok as H. header_keycodes H.
  unfold keycode_to_modifier.
  repeat match goal with
         | |- context [?a =? ?b] =>
             destruct (Z.eqb_spec a b); try congruence
         end.
Qed.

Lemma keycode_to_modifier_none (k : Z) :
  ~ In k (modifier_keycodes h) -> keycode_to_modifier h k = KMOD_NONE h.
Proof.
  intros Hk. unfold keycode_to_modifier.
  repeat match goal with
         | |- context [k =? ?b] =>
             destruct (Z.eqb_spec k b) as [E | _];
             [ exfalso; apply Hk; rewrite E; unfold modifier_keycodes;
               cbn [In]; tauto | ]
         end.
  reflexivity.
Qed.

Lemma press_ordinary (k m : Z) :
  ordinary_key h k ->
  process_packet h k m = (keycode_to_input h k m, m).
Proof.
  intros (Hk & _ & Hmod).
  destruct (seven_bit_packets k Hk) as (P1 & P2 & _ & _).
  unfold press_packet in P1, P2.
  unfold process_packet. rewrite P1, P2, (keycode_to_modifier_none k Hmod).
  now rewrite Z.eqb_refl.
Qed.

Lemma in_table (k : Z) : ordinary_key h k -> (k >=? NUM_KEYS h) = false.
Proof.
  intros (_ & Hk & _). destruct (Z.geb_spec k (NUM_KEYS h)); [ lia | reflexivity ].
Qed.

Lemma none_is_zero : KMOD_NONE h = 0.
Proof. pose proof Hok as H. header_facts H. assumption. Qed.

(** X14.  Caps Lock toggles on the press edge only: the press packet flips
    the Caps bit and nothing else, the release packet changes nothing, and
    neither yields an input event; two presses bring every modifier state
    back to what it was. *)
Theorem X14_caps_lock_toggles_on_press (m : Z) :
  process_packet h (press_packet (KC_CAPS_LOCK h)) m
  = (KTYP_NONE, Z.lxor m (KMOD_CAPS h)) /\
  process_packet h (release_packet (KC_CAPS_LOCK h)) m = (KTYP_NONE, m) /\
  snd (process_packet h (press_packet (KC_CAPS_LOCK h))
         (snd (process_packet h (press_packet (KC_CAPS_LOCK h)) m))) = m.
Proof.
  assert (Hk : 0 <= KC_CAPS_LOCK h < 128)
    by (pose proof Hok as H; header_facts H; lia).
  destruct (seven_bit_packets _ Hk) as (P1 & P2 & P3 & P4).
  assert (Hcaps : (KMOD_CAPS h =? KMOD_NONE h) = false).
  { rewrite none_is_zero. apply Z.eqb_neq.
    pose proof Hok as H. header_facts H. lia. }
  assert (Epress : forall m', process_packet h (press_packet (KC_CAPS_LOCK h)) m'
                              = (KTYP_NONE, Z.lxor m' (KMOD_CAPS h))).
  { intros m'. unfold process_packet.
    rewrite P1, P2, keycode_to_modifier_caps, Hcaps, Z.eqb_refl. reflexivity. }
  split; [ apply Epress | ]. split.
  - unfold process_packet.
    rewrite P3, P4, keycode_to_modifier_caps, Hcaps, Z.eqb_refl. reflexivity.
  - rewrite !Epress. cbn [snd].
    rewrite Z.lxor_assoc, Z.lxor_nilpotent. apply Z.lxor_0_r.
Qed.

(** Bit algebra of the consolidated masks, Ctrl included. *)
Lemma consolidated_ctrl :
  0 < KMOD_CTRL h /\ 0 < KMOD_ALT h /\
  Z.land (KMOD_CTRL h) (KMOD_SHIFT h) = 0 /\
  Z.land (KMOD_CTRL h) (KMOD_ALT h) = 0 /\
  Z.land (KMOD_CTRL h) (KMOD_CAPS h) = 0 /\
  (forall c, ctrl_held h c ->
     0 < c /\ Z.land c (KMOD_CTRL h) = c /\ Z.land c (KMOD_CAPS h) = 0 /\
     Z.lor c (KMOD_CTRL h) = KMOD_CTRL h).
Proof.
  pose proof Hok as H. header_facts H.
  repeat match goal with
         | D : Z.land ?a ?b = 0 |- _ =>
             lazymatch goal with
             | _ : Z.land b a = 0 |- _ => fail
             | _ => pose proof (eq_trans (Z.land_comm b a) D)
             end
         end.
  repeat match goal with
         | E : KMOD_CTRL h = _ |- _ => rewrite E; clear E
         | E : KMOD_SHIFT h = _ |- _ => rewrite E; clear E
         | E : KMOD_ALT h = _ |- _ => rewrite E; clear E
         end.
  repeat split;
    try (apply lor_pos; lia);
    try assumption;
    try (apply disjoint_lor_l; assumption);
    try (apply disjoint_lor_l; apply disjoint_lor_r; assumption).
  all: match goal with
       | Hc : ctrl_held h ?c |- _ => destruct Hc as [-> | [-> | ->]]
       end.
  all: try (apply lor_pos; lia); try assumption;
    try (apply disjoint_lor_l; assumption).
  all: rewrite ?Z.land_lor_distr_r, ?Z.land_lor_distr_l, ?Z.land_diag.
  all: repeat match goal with
              | D : Z.land ?a ?b = 0 |- context [Z.land ?a ?b] => rewrite D
              end.
  all: rewrite ?Z.lor_0_r, ?Z.lor_0_l; try reflexivity.
  all: bitwise.
Qed.

Lemma release_ordinary (k m : Z) :
  ordinary_key h k ->
  process_packet h (release_packet k) m = (KTYP_NONE, m).
Proof.
  intros (Hk & _ & Hmod).
  destruct (seven_bit_packets k Hk) as (_ & _ & P3 & P4).
  unfold process_packet. rewrite P3, P4, (keycode_to_modifier_none k Hmod).
  now rewrite Z.eqb_refl.
Qed.

(** The row of [keycode_map] that [keycode_to_input] reads in each state
    built from Shift and Caps Lock. *)
Lemma decode_plain (k : Z) :
  ordinary_key h k ->
  keycode_to_input h k (KMOD_NONE h) = KTYP_CHAR (keycode_map_at 0 k).
Proof.
  intros Hk. unfold keycode_to_input. rewrite (in_table k Hk), none_is_zero.
  rewrite get_modifiers_plain by apply Z.land_0_l. reflexivity.
Qed.

Lemma decode_shift (k s : Z) :
  ordinary_key h k -> shift_held h s ->
  keycode_to_input h k s = KTYP_CHAR (keycode_map_at 1 k).
Proof.
  intros Hk Hs.
  destruct (consolidated_masks h Hok)
    as (Spos & Kpos & KC & KS & KA & SC & SA & Hheld).
  destruct (Hheld s Hs) as (spos & sC & sS & sor).
  assert (NS : (KMOD_SHIFT h =? 0) = false) by (apply Z.eqb_neq; lia).
  unfold keycode_to_input. rewrite (in_table k Hk), none_is_zero.
  rewrite get_modifiers_shift; rewrite ?sor; try assumption; try lia.
  rewrite NS, Z.eqb_refl. reflexivity.
Qed.

Lemma decode_caps (k : Z) :
  ordinary_key h k ->
  keycode_to_input h k (KMOD_CAPS h) = KTYP_CHAR (keycode_map_at 2 k).
Proof.
  intros Hk.
  destruct (consolidated_masks h Hok)
    as (Spos & Kpos & KC & KS & KA & SC & SA & Hheld).
  assert (NK : (KMOD_CAPS h =? 0) = false) by (apply Z.eqb_neq; lia).
  assert (KneS : (KMOD_CAPS h =? KMOD_SHIFT h) = false)
    by (apply Z.eqb_neq; now apply disjoint_neq).
  unfold keycode_to_input. rewrite (in_table k Hk), none_is_zero.
  rewrite get_modifiers_plain by assumption.
  rewrite NK, KneS, Z.eqb_refl. reflexivity.
Qed.

Lemma decode_caps_shift (k s : Z) :
  ordinary_key h k -> shift_held h s ->
  keycode_to_input h k (Z.lor (KMOD_CAPS h) s)
  = KTYP_CHAR (keycode_map_at 3 k).
Proof.
  intros Hk Hs.
  destruct (consolidated_masks h Hok)
    as (Spos & Kpos & KC & KS & KA & SC & SA & Hheld).
  destruct (Hheld s Hs) as (spos & sC & sS & sor).
  assert (KS0 : (Z.lor (KMOD_CAPS h) (KMOD_SHIFT h) =? 0) = false)
    by (apply Z.eqb_neq; pose proof (lor_pos _ (KMOD_SHIFT h) Kpos); lia).
  assert (KS1 : (Z.lor (KMOD_CAPS h) (KMOD_SHIFT h) =? KMOD_SHIFT h) = false)
    by (apply Z.eqb_neq; now apply disjoint_lor_neq_r).
  assert (KS2 : (Z.lor (KMOD_CAPS h) (KMOD_SHIFT h) =? KMOD_CAPS h) = false)
    by (apply Z.eqb_neq; now apply disjoint_lor_neq_l).
  assert (E : Z.lor (Z.lor (KMOD_CAPS h) s) (KMOD_SHIFT h)
              = Z.lor (KMOD_CAPS h) (KMOD_SHIFT h))
    by (now rewrite <- Z.lor_assoc, sor).
  unfold keycode_to_input. rewrite (in_table k Hk), none_is_zero.
  rewrite get_modifiers_shift; rewrite ?E.
  - rewrite KS0, KS1, KS2, Z.eqb_refl. reflexivity.
  - now apply disjoint_lor_l.
  - rewrite Z.land_lor_distr_l, KS, sS, Z.lor_0_l. lia.
  - now apply disjoint_lor_l.
Qed.

(** X15.  Every key of the table that is no modifier key is decoded from
    the row its modifier state selects: row 0 with no modifier, row 1 with
    Shift held (left, right or both), row 2 with Caps Lock on, row 3 with
    Caps Lock on and Shift held; the modifier state is left as it was, and
    the release packet gives no event in any state. *)
Theorem X15_key_decoded_from_its_row (k : Z) :
  ordinary_key h k ->
  process_packet h (press_packet k) (KMOD_NONE h)
  = (KTYP_CHAR (keycode_map_at 0 k), KMOD_NONE h) /\
  (forall s, shift_held h s ->
     process_packet h (press_packet k) s
     = (KTYP_CHAR (keycode_map_at 1 k), s)) /\
  process_packet h (press_packet k) (KMOD_CAPS h)
  = (KTYP_CHAR (keycode_map_at 2 k), KMOD_CAPS h) /\
  (forall s, shift_held h s ->
     process_packet h (press_packet k) (Z.lor (KMOD_CAPS h) s)
     = (KTYP_CHAR (keycode_map_at 3 k), Z.lor (KMOD_CAPS h) s)) /\
  (forall m, process_packet h (release_packet k) m = (KTYP_NONE, m)).
Proof.
  intros Hk. unfold press_packet.
  split; [ | split; [ | split; [ | split ] ] ].
  - now rewrite press_ordinary, decode_plain.
  - intros s Hs. now rewrite press_ordinary, (decode_shift k s).
  - now rewrite press_ordinary, decode_caps.
  - intros s Hs. now rewrite press_ordinary, (decode_caps_shift k s).
  - intros m. now apply release_ordinary.
Qed.

(** The consolidated state when Ctrl is held. *)
Lemma get_modifiers_ctrl (m : Z) :
  Z.land m (KMOD_CTRL h) <> 0 ->
  Z.land (Z.lor m (KMOD_CTRL h)) (KMOD_SHIFT h) = 0 ->
  Z.land (Z.lor m (KMOD_CTRL h)) (KMOD_ALT h) = 0 ->
  get_modifiers h m = Z.lor m (KMOD_CTRL h).
Proof.
  intros Hc Hs Ha. unfold get_modifiers. apply Z.eqb_neq in Hc.
  rewrite Hc. cbn [negb]. rewrite Hs. cbn [Z.eqb negb]. now rewrite Ha.
Qed.

Lemma decode_ctrl (k c : Z) :
  ordinary_key h k -> ctrl_held h c ->
  keycode_to_input h k c = KTYP_CTRL (keycode_to_ctrl h k) /\
  keycode_to_input h k (Z.lor (KMOD_CAPS h) c)
  = KTYP_CTRL (keycode_to_ctrl h k).
Proof.
  intros Hk Hc.
  destruct (consolidated_masks h Hok)
    as (Spos & Kpos & KC & KS & KA & SC & SA & _).
  destruct consolidated_ctrl as (Cpos & Apos & CS & CA & CK & Hheld).
  destruct (Hheld c Hc) as (cpos & cC & cK & cor).
  assert (C0 : (KMOD_CTRL h =? 0) = false) by (apply Z.eqb_neq; lia).
  assert (C1 : (KMOD_CTRL h =? KMOD_SHIFT h) = false)
    by (apply Z.eqb_neq; now apply disjoint_neq).
  assert (C2 : (KMOD_CTRL h =? KMOD_CAPS h) = false)
    by (apply Z.eqb_neq; now apply disjoint_neq).
  assert (C3 : (KMOD_CTRL h =? Z.lor (KMOD_CAPS h) (KMOD_SHIFT h)) = false)
    by (apply Z.eqb_neq; apply disjoint_neq;
        [ assumption | now apply disjoint_lor_r ]).
  assert (KCpos : 0 < Z.lor (KMOD_CAPS h) (KMOD_CTRL h))
    by (apply lor_pos; lia).
  assert (D0 : (Z.lor (KMOD_CAPS h) (KMOD_CTRL h) =? 0) = false)
    by (apply Z.eqb_neq; lia).
  assert (D1 : (Z.lor (KMOD_CAPS h) (KMOD_CTRL h) =? KMOD_SHIFT h) = false)
    by (apply Z.eqb_neq; apply disjoint_neq;
        [ assumption | now apply disjoint_lor_l ]).
  assert (D2 : (Z.lor (KMOD_CAPS h) (KMOD_CTRL h) =? KMOD_CAPS h) = false)
    by (apply Z.eqb_neq; now apply disjoint_lor_neq_l).
  assert (D3 : (Z.lor (KMOD_CAPS h) (KMOD_CTRL h)
                =? Z.lor (KMOD_CAPS h) (KMOD_SHIFT h)) = false).
  { apply Z.eqb_neq. intros E.
    apply (f_equal (fun z => Z.land z (KMOD_CTRL h))) in E.
    rewrite !Z.land_lor_distr_l, Z.land_diag, KC, SC in E.
    cbn in E. lia. }
  assert (E : Z.lor (Z.lor (KMOD_CAPS h) c) (KMOD_CTRL h)
              = Z.lor (KMOD_CAPS h) (KMOD_CTRL h))
    by (now rewrite <- Z.lor_assoc, cor).
  unfold keycode_to_input. rewrite (in_table k Hk), none_is_zero. split.
  - rewrite get_modifiers_ctrl; rewrite ?cor; try assumption; try lia.
    rewrite C0, C1, C2, C3, Z.eqb_refl. reflexivity.
  - rewrite get_modifiers_ctrl; rewrite ?E.
    + rewrite D0, D1, D2, D3, Z.eqb_refl, orb_true_r. reflexivity.
    + rewrite Z.land_lor_distr_l, KC, cC, Z.lor_0_l. lia.
    + now apply disjoint_lor_l.
    + now apply disjoint_lor_l.
Qed.

(** With an Alt bit set, the consolidated state contains all of
    [KMOD_ALT], so it equals none of the states [keycode_to_input] knows. *)
Lemma alt_consolidated (m : Z) :
  Z.land m (KMOD_ALT h) <> 0 ->
  Z.land (get_modifiers h m) (KMOD_ALT h) = KMOD_ALT h.
Proof.
  intros Ha.
  destruct (consolidated_masks h Hok)
    as (Spos & Kpos & KC & KS & KA & SC & SA & _).
  destruct consolidated_ctrl as (Cpos & Apos & CS & CA & CK & _).
  assert (K1 : forall x y, Z.land y (KMOD_ALT h) = 0 ->
                 Z.land (Z.lor x y) (KMOD_ALT h) = Z.land x (KMOD_ALT h))
    by (intros x y E; now rewrite Z.land_lor_distr_l, E, Z.lor_0_r).
  assert (K2 : forall e, Z.land e (KMOD_ALT h) = Z.land m (KMOD_ALT h) ->
                 Z.land (if negb (Z.land e (KMOD_ALT h) =? 0)
                         then Z.lor e (KMOD_ALT h) else e) (KMOD_ALT h)
                 = KMOD_ALT h).
  { intros e E. rewrite E. apply Z.eqb_neq in Ha. rewrite Ha. cbn [negb].
    rewrite Z.land_lor_distr_l, Z.land_diag. bitwise. }
  unfold get_modifiers.
  destruct (negb (Z.land m (KMOD_CTRL h) =? 0));
    match goal with
    | |- context [negb (Z.land ?e (KMOD_SHIFT h) =? 0)] =>
        destruct (negb (Z.land e (KMOD_SHIFT h) =? 0))
    end;
    apply K2; rewrite ?K1 by assumption; reflexivity.
Qed.

Lemma alt_differs (md x : Z) :
  Z.land md (KMOD_ALT h) = KMOD_ALT h ->
  Z.land x (KMOD_ALT h) = 0 -> (md =? x) = false.
Proof.
  intros Hmd Hx. apply Z.eqb_neq. intros E. subst x.
  destruct consolidated_ctrl as (_ & Apos & _). lia.
Qed.

(** X16.  While an Alt key is held (either Alt bit set in the modifier
    state), no packet yields an input event: modifier packets never do, and
    [keycode_to_input] has no case for a state with Alt. *)
Theorem X16_alt_held_gives_no_event (packet m : Z) :
  Z.land m (KMOD_ALT h) <> 0 ->
  fst (process_packet h packet m) = KTYP_NONE.
Proof.
  intros Ha.
  destruct (consolidated_masks h Hok)
    as (Spos & Kpos & KC & KS & KA & SC & SA & _).
  destruct consolidated_ctrl as (Cpos & Apos & CS & CA & CK & _).
  pose proof (alt_consolidated m Ha) as Hmd.
  unfold process_packet.
  destruct (negb (keycode_to_modifier h (Z.land packet 127) =? KMOD_NONE h)).
  - destruct (keycode_to_modifier h (Z.land packet 127) =? KMOD_CAPS h);
      [ destruct (_ =? 1) | ]; reflexivity.
  - destruct (_ =? 1); [ | reflexivity ]. cbn [fst].
    unfold keycode_to_input.
    destruct (Z.land packet 127 >=? NUM_KEYS h); [ reflexivity | ].
    rewrite none_is_zero.
    rewrite (alt_differs _ 0 Hmd) by apply Z.land_0_l.
    rewrite (alt_differs _ (KMOD_SHIFT h) Hmd) by assumption.
    rewrite (alt_differs _ (KMOD_CAPS h) Hmd) by assumption.
    rewrite (alt_differs _ (Z.lor (KMOD_CAPS h) (KMOD_SHIFT h)) Hmd)
      by (now apply disjoint_lor_l).
    rewrite (alt_differs _ (KMOD_CTRL h) Hmd) by assumption.
    rewrite (alt_differs _ (Z.lor (KMOD_CAPS h) (KMOD_CTRL h)) Hmd)
      by (now apply disjoint_lor_l).
    reflexivity.
Qed.

(** How the rows of [keycode_map] relate: the Caps row differs from the
    neutral row on the lower-case letters only, where it holds the capital;
    the Shift-and-Caps row holds the neutral letter there and the Shift
    entry everywhere else. *)
Lemma caps_rows (k : Z) :
  0 <= k ->
  keycode_map_at 2 k
  = (if is_lower (keycode_map_at 0 k) then keycode_map_at 0 k - 32
     else keycode_map_at 0 k) /\
  keycode_map_at 3 k
  = (if is_lower (keycode_map_at 0 k) then keycode_map_at 0 k
     else keycode_map_at 1 k).
Proof.
  intros Hk.
  destruct (Z.lt_ge_cases k 58) as [Hlt | Hge].
  - assert (Hall : forallb
      (fun n => let k := Z.of_nat n in
         (keycode_map_at 2 k
          =? (if is_lower (keycode_map_at 0 k) then keycode_map_at 0 k - 32
              else keycode_map_at 0 k))
         && (keycode_map_at 3 k
             =? (if is_lower (keycode_map_at 0 k) then keycode_map_at 0 k
                 else keycode_map_at 1 k)))
      (seq 0 58) = true) by (vm_compute; reflexivity).
    rewrite forallb_forall in Hall.
    specialize (Hall (Z.to_nat k)). rewrite in_seq in Hall.
    rewrite Z2Nat.id in Hall by assumption.
    apply andb_prop in Hall; [ | lia ].
    destruct Hall as [E2 E3]. apply Z.eqb_eq in E2, E3. now split.
  - unfold keycode_map_at.
    rewrite !nth_overflow by (cbn [nth keycode_map List.length]; vm_compute List.length; lia).
    split; reflexivity.
Qed.

(** X17.  Caps Lock changes letters only: with Caps Lock on, a key whose
    neutral character is a lower-case letter gives the capital and every
    other key gives its neutral character; with Caps Lock on and Shift
    held, a letter key gives the lower-case letter and every other key its
    Shift character. *)
Theorem X17_caps_lock_changes_letters_only (k : Z) :
  ordinary_key h k ->
  fst (process_packet h (press_packet k) (KMOD_CAPS h))
  = KTYP_CHAR (if is_lower (keycode_map_at 0 k) then keycode_map_at 0 k - 32
               else keycode_map_at 0 k) /\
  (forall s, shift_held h s ->
     fst (process_packet h (press_packet k) (Z.lor (KMOD_CAPS h) s))
     = KTYP_CHAR (if is_lower (keycode_map_at 0 k) then keycode_map_at 0 k
                  else keycode_map_at 1 k)).
Proof.
  intros Hk. unfold press_packet.
  assert (H0 : 0 <= k) by (destruct Hk as ((? & _) & _); assumption).
  destruct (caps_rows k H0) as [E2 E3]. split.
  - rewrite press_ordinary, decode_caps by assumption. cbn [fst].
    now rewrite E2.
  - intros s Hs.
    rewrite press_ordinary, (decode_caps_shift k s) by assumption.
    cbn [fst]. now rewrite E3.
Qed.

End WithHeader.

(** Scancode-set-1 keys that are no modifier keys. *)
Lemma pc_at_ordinary (k : Z) :
  0 <= k < 58 ->
  forallb (fun m => negb (k =? m)) (modifier_keycodes pc_at) = true ->
  ordinary_key pc_at k.
Proof.
  intros Hk Hm. unfold ordinary_key. cbn [NUM_KEYS pc_at].
  split; [ lia | split; [ lia | ] ].
  intros Hin. rewrite forallb_forall in Hm. specialize (Hm k Hin).
  now rewrite Z.eqb_refl in Hm.
Qed.

Lemma X14_caps_lock_toggles_on_press_witness :
  process_packet pc_at (press_packet (KC_CAPS_LOCK pc_at)) 4
  = (KTYP_NONE, Z.lxor 4 (KMOD_CAPS pc_at)) /\
  process_packet pc_at (release_packet (KC_CAPS_LOCK pc_at)) 4
  = (KTYP_NONE, 4) /\
  snd (process_packet pc_at (press_packet (KC_CAPS_LOCK pc_at))
         (snd (process_packet pc_at (press_packet (KC_CAPS_LOCK pc_at)) 4)))
  = 4.
Proof.
  apply (X14_caps_lock_toggles_on_press pc_at); reflexivity.
Defined.

Lemma X15_key_decoded_from_its_row_witness :
  process_packet pc_at (press_packet 3) (KMOD_NONE pc_at)
  = (KTYP_CHAR (keycode_map_at 0 3), KMOD_NONE pc_at) /\
  (forall s, shift_held pc_at s ->
     process_packet pc_at (press_packet 3) s
     = (KTYP_CHAR (keycode_map_at 1 3), s)) /\
  process_packet pc_at (press_packet 3) (KMOD_CAPS pc_at)
  = (KTYP_CHAR (keycode_map_at 2 3), KMOD_CAPS pc_at) /\
  (forall s, shift_held pc_at s ->
     process_packet pc_at (press_packet 3) (Z.lor (KMOD_CAPS pc_at) s)
     = (KTYP_CHAR (keycode_map_at 3 3), Z.lor (KMOD_CAPS pc_at) s)) /\
  (forall m, process_packet pc_at (release_packet 3) m = (KTYP_NONE, m)).
Proof.
  apply (X15_key_decoded_from_its_row pc_at);
    [ reflexivity | apply pc_at_ordinary; [ lia | reflexivity ] ].
Defined.

Lemma X16_alt_held_gives_no_event_witness :
  fst (process_packet pc_at 30 (Z.lor (KMOD_LALT pc_at) (KMOD_LSHIFT pc_at)))
  = KTYP_NONE.
Proof.
  apply (X16_alt_held_gives_no_event pc_at); [ reflexivity | ].
  vm_compute. discriminate.
Defined.

Lemma X17_caps_lock_changes_letters_only_witness :
  fst (process_packet pc_at (press_packet 16) (KMOD_CAPS pc_at))
  = KTYP_CHAR (if is_lower (keycode_map_at 0 16) then keycode_map_at 0 16 - 32
               else keycode_map_at 0 16) /\
  (forall s, shift_held pc_at s ->
     fst (process_packet pc_at (press_packet 16) (Z.lor (KMOD_CAPS pc_at) s))
     = KTYP_CHAR (if is_lower (keycode_map_at 0 16) then keycode_map_at 0 16
                  else keycode_map_at 1 16)).
Proof.
  apply (X17_caps_lock_changes_letters_only pc_at);
    [ reflexivity | apply pc_at_ordinary; [ lia | reflexivity ] ].
Defined.

End DecoderFacts.


Module KeyStrokes.

Import Terminal TerminalSpec Keyboard KeyboardSpec.

Section WithHeader.

Variable h : keyboard_h.
Hypothesis Hok : header_ok h = true.

Variable TERMINAL_BUF_SIZE : Z.

Local Abbreviation handle_keyboard_irq :=
  (Keyboard.handle_keyboard_irq h TERMINAL_BUF_SIZE).

(** X18.  With Ctrl held (left, right or both; Caps Lock on or off) the
    press of the key L clears the screen of the executing terminal and
    leaves its input buffer and the modifier state as they were; the press
    of any other key of the table changes nothing. *)
Theorem X18_ctrl_l_clears_the_screen (c m : Z) (g : globals) :
  ordinary_key h (KC_L h) ->
  ctrl_held h c ->
  m = c \/ m = Z.lor (KMOD_CAPS h) c ->
  handle_keyboard_irq (press_packet (KC_L h)) (m, g)
  = (m, on_executing terminal_clear g) /\
  input_of (snd (handle_keyboard_irq (press_packet (KC_L h)) (m, g)))
  = input_of g /\
  (forall k, ordinary_key h k -> k <> KC_L h ->
     handle_keyboard_irq (press_packet k) (m, g) = (m, g)).
Proof.
  intros HL Hc Hm.
  assert (Hdec : forall k, ordinary_key h k ->
            process_packet h (press_packet k) m
            = (KTYP_CTRL (keycode_to_ctrl h k), m)).
  { intros k Hk. unfold press_packet.
    rewrite (DecoderFacts.press_ordinary h k m Hk).
    destruct (DecoderFacts.decode_ctrl h Hok k c Hk Hc) as [E1 E2].
    destruct Hm as [-> | ->]; [ now rewrite E1 | now rewrite E2 ]. }
  assert (Eirq : handle_keyboard_irq (press_packet (KC_L h)) (m, g)
                 = (m, on_executing terminal_clear g)).
  { unfold Keyboard.handle_keyboard_irq. rewrite (Hdec _ HL).
    unfold keycode_to_ctrl. rewrite Z.eqb_refl. reflexivity. }
  split; [ exact Eirq | ]. split.
  - rewrite Eirq. reflexivity.
  - intros k Hk Hne. unfold Keyboard.handle_keyboard_irq. rewrite (Hdec _ Hk).
    unfold keycode_to_ctrl. apply Z.eqb_neq in Hne. rewrite Hne. reflexivity.
Qed.

(** X19.  A key stroke reaches the line buffer: with no modifier held and
    room in the buffer, the press and release of a key of the table whose
    neutral character is not the backspace append exactly that character
    to the bytes the buffer holds, and leave the modifier state empty. *)
Theorem X19_key_stroke_reaches_line_buffer
  (k : Z) (g : globals) (done : list Z) :
  0 <= TERMINAL_BUF_SIZE <= Int32.max_signed ->
  ordinary_key h k ->
  keycode_map_at 0 k <> BACKSPACE ->
  holds g done ->
  Z.of_nat (List.length done) < TERMINAL_BUF_SIZE ->
  fst (handle_keyboard_irq (release_packet k)
         (handle_keyboard_irq (press_packet k) (KMOD_NONE h, g)))
  = KMOD_NONE h /\
  holds (snd (handle_keyboard_irq (release_packet k)
                (handle_keyboard_irq (press_packet k) (KMOD_NONE h, g))))
        (done ++ [keycode_map_at 0 k]).
Proof.
  intros HB Hk Hc Hg Hroom.
  assert (E : handle_keyboard_irq (release_packet k)
                (handle_keyboard_irq (press_packet k) (KMOD_NONE h, g))
              = (KMOD_NONE h,
                 deliver TERMINAL_BUF_SIZE [KTYP_CHAR (keycode_map_at 0 k)] g)).
  { unfold Keyboard.handle_keyboard_irq, press_packet.
    rewrite (DecoderFacts.press_ordinary h k _ Hk).
    rewrite (DecoderFacts.decode_plain h Hok k Hk).
    rewrite (DecoderFacts.release_ordinary h k _ Hk). reflexivity. }
  rewrite E. cbn [fst snd]. split; [ reflexivity | ].
  apply (TerminalInput.holds_snoc g); [ exact Hg | ].
  destruct Hg as [Hcount _].
  apply (TerminalInput.deliver_char TERMINAL_BUF_SIZE (keycode_map_at 0 k) g);
    [ exact Hc | lia | lia ].
Qed.

End WithHeader.

Lemma X18_ctrl_l_clears_the_screen_witness :
  Keyboard.handle_keyboard_irq pc_at 128 (press_packet (KC_L pc_at))
    (KMOD_RCTRL pc_at, buffered [104; 105])
  = (KMOD_RCTRL pc_at, on_executing terminal_clear (buffered [104; 105])) /\
  input_of (snd (Keyboard.handle_keyboard_irq pc_at 128
                   (press_packet (KC_L pc_at))
                   (KMOD_RCTRL pc_at, buffered [104; 105])))
  = input_of (buffered [104; 105]) /\
  (forall k, ordinary_key pc_at k -> k <> KC_L pc_at ->
     Keyboard.handle_keyboard_irq pc_at 128 (press_packet k)
       (KMOD_RCTRL pc_at, buffered [104; 105])
     = (KMOD_RCTRL pc_at, buffered [104; 105])).
Proof.
  apply (X18_ctrl_l_clears_the_screen pc_at eq_refl 128 (KMOD_RCTRL pc_at)).
  - apply DecoderFacts.pc_at_ordinary; [ cbn; lia | reflexivity ].
  - right. left. reflexivity.
  - left. reflexivity.
Defined.

Lemma X19_key_stroke_reaches_line_buffer_witness :
  fst (Keyboard.handle_keyboard_irq pc_at 128 (release_packet 23)
         (Keyboard.handle_keyboard_irq pc_at 128 (press_packet 23)
            (KMOD_NONE pc_at, buffered [104])))
  = KMOD_NONE pc_at /\
  holds (snd (Keyboard.handle_keyboard_irq pc_at 128 (release_packet 23)
                (Keyboard.handle_keyboard_irq pc_at 128 (press_packet 23)
                   (KMOD_NONE pc_at, buffered [104]))))
        ([104] ++ [keycode_map_at 0 23]).
Proof.
  apply (X19_key_stroke_reaches_line_buffer pc_at eq_refl 128).
  - exact InputFacts.size_128_ok.
  - apply DecoderFacts.pc_at_ordinary; [ lia | reflexivity ].
  - vm_compute. discriminate.
  - apply InputFacts.holds_buffered.
  - cbn. lia.
Defined.

End KeyStrokes.


Module DispatchFacts.

Import Trap Idt IdtSpec.

Section Dispatch.

Variables NUM_EXC EXC_DE INT_IRQ0 INT_IRQ15 INT_SYSCALL : Z.
Variable USER_CS : Z.
Variables SIG_DIV_ZERO SIG_SEGFAULT : Z.
Variable executing_pid : Z.
Variable syscall_handle : Z -> Z -> Z -> int_regs_t -> Z -> Z * int_regs_t.
Variable signal_handle_all : int_regs_t -> int_regs_t.

Local Abbreviation dispatch :=
  (idt_handle_interrupt NUM_EXC EXC_DE INT_IRQ0 INT_IRQ15 INT_SYSCALL USER_CS
     SIG_DIV_ZERO SIG_SEGFAULT executing_pid syscall_handle signal_handle_all).

(** What the end of [idt_handle_interrupt] does with the snapshot [regs]:
    the pending signals are handled when it was taken in user mode. *)
Lemma dispatch_irq (regs : int_regs_t) :
  NUM_EXC <= int_num regs -> INT_IRQ0 <= int_num regs <= INT_IRQ15 ->
  dispatch regs =
  (IrqHandleInterrupt (Int32.usub (int_num regs) INT_IRQ0)
     :: (if cs regs =? USER_CS then [SignalHandleAll regs] else []),
   Some (tt, if cs regs =? USER_CS then signal_handle_all regs else regs)).
Proof.
  intros Hv [Hlo Hhi].
  assert (E1 : (int_num regs <? NUM_EXC) = false) by (apply Z.ltb_ge; lia).
  assert (E2 : (int_num regs >=? INT_IRQ0) = true)
    by (destruct (Z.geb_spec (int_num regs) INT_IRQ0); [ reflexivity | lia ]).
  assert (E3 : (int_num regs <=? INT_IRQ15) = true) by (apply Z.leb_le; lia).
  unfold idt_handle_interrupt, handle_irq.
  unfold Run.bind, Run.get, Run.emit, Run.put, Run.ret.
  rewrite E1, E2, E3. cbn [andb]. cbv beta iota.
  destruct (cs regs =? USER_CS); reflexivity.
Qed.

Lemma dispatch_syscall (regs : int_regs_t) :
  NUM_EXC <= int_num regs ->
  ~ INT_IRQ0 <= int_num regs <= INT_IRQ15 ->
  int_num regs = INT_SYSCALL ->
  dispatch regs =
  (let '(result, regs') :=
     syscall_handle (ebx regs) (ecx regs) (edx regs) regs (eax regs) in
   ([ Debugf "Syscall: %d\n" [ArgInt (eax regs)];
      SyscallHandle (ebx regs) (ecx regs) (edx regs) regs (eax regs);
      Debugf "Return value: 0x%#x\n" [ArgInt result] ]
      ++ (if cs regs' =? USER_CS
          then [SignalHandleAll (set_eax regs' result)] else []),
    Some (tt, if cs regs' =? USER_CS
              then signal_handle_all (set_eax regs' result)
              else set_eax regs' result))).
Proof.
  intros Hv Hirq Hsys.
  assert (E1 : (int_num regs <? NUM_EXC) = false) by (apply Z.ltb_ge; lia).
  assert (E2 : (int_num regs >=? INT_IRQ0) && (int_num regs <=? INT_IRQ15)
               = false).
  { destruct (Z.geb_spec (int_num regs) INT_IRQ0); [ | reflexivity ].
    destruct (Z.leb_spec (int_num regs) INT_IRQ15); [ lia | reflexivity ]. }
  assert (E3 : (int_num regs =? INT_SYSCALL) = true) by (now apply Z.eqb_eq).
  unfold idt_handle_interrupt, handle_syscall.
  unfold Run.bind, Run.get, Run.emit, Run.put, Run.ret.
  rewrite E1, E2, E3. cbv beta iota.
  destruct (syscall_handle (ebx regs) (ecx regs) (edx regs) regs (eax regs))
    as [result regs'].
  cbv beta iota. change (cs (set_eax regs' result)) with (cs regs').
  destruct (cs regs' =? USER_CS); reflexivity.
Qed.

Lemma dispatch_unknown (regs : int_regs_t) :
  NUM_EXC <= int_num regs ->
  ~ INT_IRQ0 <= int_num regs <= INT_IRQ15 ->
  int_num regs <> INT_SYSCALL ->
  dispatch regs =
  (Debugf "Unknown interrupt: %d\n" [ArgInt (int_num regs)]
     :: (if cs regs =? USER_CS then [SignalHandleAll regs] else []),
   Some (tt, if cs regs =? USER_CS then signal_handle_all regs else regs)).
Proof.
  intros Hv Hirq Hsys.
  assert (E1 : (int_num regs <? NUM_EXC) = false) by (apply Z.ltb_ge; lia).
  assert (E2 : (int_num regs >=? INT_IRQ0) && (int_num regs <=? INT_IRQ15)
               = false).
  { destruct (Z.geb_spec (int_num regs) INT_IRQ0); [ | reflexivity ].
    destruct (Z.leb_spec (int_num regs) INT_IRQ15); [ lia | reflexivity ]. }
  assert (E3 : (int_num regs =? INT_SYSCALL) = false) by (now apply Z.eqb_neq).
  unfold idt_handle_interrupt.
  unfold Run.bind, Run.get, Run.emit, Run.put, Run.ret.
  rewrite E1, E2, E3. cbv beta iota.
  destruct (cs regs =? USER_CS); reflexivity.
Qed.

(** A vector of the IRQ range is handed to the IRQ layer as the line
    [int_num - INT_IRQ0], once; the dispatcher returns, and pending signals
    are handled afterwards exactly when the interrupt came from user
    mode. *)
Lemma irq_vector_goes_to_its_line (regs : int_regs_t) :
  NUM_EXC <= int_num regs ->
  INT_IRQ0 <= int_num regs <= INT_IRQ15 ->
  int_num regs - INT_IRQ0 < Int32.modulus ->
  Run.returns (dispatch regs) /\
  Run.trace (dispatch regs)
  = IrqHandleInterrupt (int_num regs - INT_IRQ0)
      :: (if cs regs =? USER_CS then [SignalHandleAll regs] else []).
Proof.
  intros Hv Hirq Hline. rewrite (dispatch_irq regs Hv Hirq).
  split; [ unfold Run.returns; cbn [snd]; discriminate | ].
  unfold Run.trace. cbn [fst].
  replace (Int32.usub (int_num regs) INT_IRQ0) with (int_num regs - INT_IRQ0);
    [ reflexivity | ].
  unfold Int32.usub, Int32.uwrap. symmetry. apply Z.mod_small. lia.
Qed.

(** X20.  On the syscall vector the value [syscall_handle] returns is
    stored in [eax] of the snapshot before anything else looks at it: the
    dispatcher returns, and the snapshot it leaves (and the one
    [signal_handle_all] is given, in user mode) is the one the syscall left
    with [eax] replaced by the result. *)
Theorem X20_syscall_result_lands_in_eax (regs : int_regs_t) :
  NUM_EXC <= int_num regs ->
  ~ INT_IRQ0 <= int_num regs <= INT_IRQ15 ->
  int_num regs = INT_SYSCALL ->
  let result :=
    fst (syscall_handle (ebx regs) (ecx regs) (edx regs) regs (eax regs)) in
  let regs' :=
    snd (syscall_handle (ebx regs) (ecx regs) (edx regs) regs (eax regs)) in
  snd (dispatch regs)
  = Some (tt, if cs regs' =? USER_CS
              then signal_handle_all (set_eax regs' result)
              else set_eax regs' result) /\
  (cs regs' = USER_CS ->
   In (SignalHandleAll (set_eax regs' result)) (Run.trace (dispatch regs))) /\
  (forall r, In (SignalHandleAll r) (Run.trace (dispatch regs)) ->
             eax r = result).
Proof.
  intros Hv Hirq Hsys. cbv zeta.
  rewrite (dispatch_syscall regs Hv Hirq Hsys).
  destruct (syscall_handle (ebx regs) (ecx regs) (edx regs) regs (eax regs))
    as [result regs'].
  cbn [fst snd]. unfold Run.trace. cbn [fst].
  split; [ reflexivity | ]. split.
  - intros Hcs. rewrite Hcs, Z.eqb_refl. cbn [app In]. tauto.
  - intros r. destruct (cs regs' =? USER_CS); cbn [app In].
    + intros [E | [E | [E | [E | []]]]]; try discriminate E.
      injection E as <-. reflexivity.
    + intros [E | [E | [E | []]]]; discriminate E.
Qed.

(** X21.  A vector at or above NUM_EXC never raises a signal and never
    stops the kernel: the dispatcher returns.  Unless the vector is the
    syscall vector, a snapshot taken in kernel mode is left exactly as it
    was. *)
Theorem X21_only_syscalls_change_the_snapshot (regs : int_regs_t) :
  NUM_EXC <= int_num regs ->
  Run.returns (dispatch regs) /\
  signals_raised (Run.trace (dispatch regs)) = [] /\
  (cs regs <> USER_CS ->
   int_num regs <> INT_SYSCALL \/ INT_IRQ0 <= int_num regs <= INT_IRQ15 ->
   snd (dispatch regs) = Some (tt, regs)).
Proof.
  intros Hv.
  assert (Hirq : INT_IRQ0 <= int_num regs <= INT_IRQ15
                 \/ ~ INT_IRQ0 <= int_num regs <= INT_IRQ15) by lia.
  destruct Hirq as [Hirq | Hirq].
  - rewrite (dispatch_irq regs Hv Hirq). unfold Run.returns, Run.trace.
    cbn [fst snd]. split; [ discriminate | ]. split.
    + destruct (cs regs =? USER_CS); reflexivity.
    + intros Hcs _. apply Z.eqb_neq in Hcs. now rewrite Hcs.
  - destruct (Z.eq_dec (int_num regs) INT_SYSCALL) as [Hsys | Hsys].
    + rewrite (dispatch_syscall regs Hv Hirq Hsys).
      destruct (syscall_handle (ebx regs) (ecx regs) (edx regs) regs (eax regs))
        as [result regs'].
      unfold Run.returns, Run.trace. cbn [fst snd].
      split; [ discriminate | ]. split.
      * destruct (cs regs' =? USER_CS); reflexivity.
      * intros _ [Hne | Hin]; [ contradiction | contradiction ].
    + rewrite (dispatch_unknown regs Hv Hirq Hsys).
      unfold Run.returns, Run.trace. cbn [fst snd].
      split; [ discriminate | ]. split.
      * destruct (cs regs =? USER_CS); reflexivity.
      * intros Hcs _. apply Z.eqb_neq in Hcs. now rewrite Hcs.
Qed.

End Dispatch.

Lemma X20_syscall_result_lands_in_eax_witness :
  let result := fst (0, snapshot 0x80 0x23) in
  let regs' := snd (0, snapshot 0x80 0x23) in
  snd (pc_dispatch (snapshot 0x80 0x23))
  = Some (tt, if cs regs' =? 0x23
              then set_eax regs' result else set_eax regs' result) /\
  (cs regs' = 0x23 ->
   In (SignalHandleAll (set_eax regs' result))
      (Run.trace (pc_dispatch (snapshot 0x80 0x23)))) /\
  (forall r, In (SignalHandleAll r)
                (Run.trace (pc_dispatch (snapshot 0x80 0x23))) ->
             eax r = result).
Proof.
  unfold pc_dispatch.
  apply (X20_syscall_result_lands_in_eax 20 0 0x20 0x2F 0x80 0x23 0 1 7
           (fun _ _ _ regs _ => (0, regs)) (fun regs => regs)
           (snapshot 0x80 0x23)).
  - cbn [snapshot int_num]. lia.
  - cbn [snapshot int_num]. lia.
  - reflexivity.
Defined.

Lemma X21_only_syscalls_change_the_snapshot_witness :
  Run.returns (pc_dispatch (snapshot 0x30 0x10)) /\
  signals_raised (Run.trace (pc_dispatch (snapshot 0x30 0x10))) = [] /\
  (cs (snapshot 0x30 0x10) <> 0x23 ->
   int_num (snapshot 0x30 0x10) <> 0x80
   \/ 0x20 <= int_num (snapshot 0x30 0x10) <= 0x2F ->
   snd (pc_dispatch (snapshot 0x30 0x10)) = Some (tt, snapshot 0x30 0x10)).
Proof.
  unfold pc_dispatch.
  apply (X21_only_syscalls_change_the_snapshot 20 0 0x20 0x2F 0x80 0x23 0 1 7
           (fun _ _ _ regs _ => (0, regs)) (fun regs => regs)
           (snapshot 0x30 0x10)).
  cbn [snapshot int_num]. lia.
Defined.

End DispatchFacts.


Module RegistryFacts.

Import Trap IdtIrq IdtSpec Run.Notations.
Local Open Scope run_scope.

Section Registry.

Variables NUM_EXC INT_IRQ0 INT_IRQ15 INT_SYSCALL : Z.
Variable assert_failed : M unit.

Local Abbreviation handle_interrupt :=
  (IdtIrq.handle_interrupt NUM_EXC INT_IRQ0 INT_IRQ15 INT_SYSCALL).
Local Abbreviation handle_irq := (IdtIrq.handle_irq INT_IRQ0).
Local Abbreviation register_irq_handler :=
  (IdtIrq.register_irq_handler assert_failed).
Local Abbreviation unregister_irq_handler :=
  (IdtIrq.unregister_irq_handler assert_failed).

(** The whole run of [handle_irq] on any table. *)
Lemma handle_irq_run (regs : int_regs_t) (t : irq_table) :
  handle_irq regs t =
  (Debugf "IRQ interrupt: %d\n" [ArgInt (Int32.usub (int_num regs) INT_IRQ0)]
     :: (if t (Int32.usub (int_num regs) INT_IRQ0) =? NULL then []
         else [Callback (t (Int32.usub (int_num regs) INT_IRQ0))])
     ++ [SendEoi (Int32.usub (int_num regs) INT_IRQ0)],
   Some (tt, t)).
Proof.
  unfold IdtIrq.handle_irq, Run.bind, Run.get, Run.emit, Run.ret.
  destruct (t (Int32.usub (int_num regs) INT_IRQ0) =? NULL); reflexivity.
Qed.

Lemma register_run (line cb : Z) (t : irq_table) :
  0 <= line < 16 ->
  register_irq_handler line cb t
  = ([EnableIrq line], Some (tt, set_callback t line cb)).
Proof.
  intros Hl. unfold IdtIrq.register_irq_handler.
  rewrite (IrqRegistry.assert_line_passes assert_failed line Hl). reflexivity.
Qed.

Lemma unregister_run (line : Z) (t : irq_table) :
  0 <= line < 16 ->
  unregister_irq_handler line t
  = ([DisableIrq line], Some (tt, set_callback t line NULL)).
Proof.
  intros Hl. unfold IdtIrq.unregister_irq_handler.
  rewrite (IrqRegistry.assert_line_passes assert_failed line Hl). reflexivity.
Qed.

Lemma set_callback_other (t : irq_table) (n cb m : Z) :
  m <> n -> set_callback t n cb m = t m.
Proof. intros Hne. unfold set_callback. apply Z.eqb_neq in Hne. now rewrite Hne. Qed.

(** X22.  Whatever the table holds, the dispatch of an IRQ vector returns,
    leaves the table as it was and sends exactly one end-of-interrupt, for
    the line [int_num - INT_IRQ0]; the callback of that line runs once
    before it when the slot is not [NULL], and no callback runs
    otherwise. *)
Theorem X22_irq_dispatch_sends_one_eoi (regs : int_regs_t) (t : irq_table) :
  NUM_EXC <= int_num regs ->
  INT_IRQ0 <= int_num regs <= INT_IRQ15 ->
  int_num regs - INT_IRQ0 < Int32.modulus ->
  snd (handle_interrupt regs t) = Some (tt, t) /\
  filter is_pic_event (Run.trace (handle_interrupt regs t))
  = (if t (int_num regs - INT_IRQ0) =? NULL then []
     else [Callback (t (int_num regs - INT_IRQ0))])
    ++ [SendEoi (int_num regs - INT_IRQ0)].
Proof.
  intros Hv [Hlo Hhi] Hline.
  assert (E1 : (int_num regs <? NUM_EXC) = false) by (apply Z.ltb_ge; lia).
  assert (E2 : (int_num regs >=? INT_IRQ0) = true)
    by (destruct (Z.geb_spec (int_num regs) INT_IRQ0); [ reflexivity | lia ]).
  assert (E3 : (int_num regs <=? INT_IRQ15) = true) by (apply Z.leb_le; lia).
  assert (El : Int32.usub (int_num regs) INT_IRQ0 = int_num regs - INT_IRQ0)
    by (unfold Int32.usub, Int32.uwrap; apply Z.mod_small; lia).
  unfold IdtIrq.handle_interrupt. rewrite E1, E2, E3. cbn [andb].
  rewrite handle_irq_run, El. unfold Run.trace. cbn [fst snd].
  split; [ reflexivity | ].
  destruct (t (int_num regs - INT_IRQ0) =? NULL); reflexivity.
Qed.

(** X23.  One handler per line, and the lines are independent: a second
    registration for a line replaces the first, so the dispatch of the line
    runs the second callback only; registering or unregistering a handler
    for one line does not change what the dispatch of another line runs. *)
Theorem X23_one_handler_per_line
  (a b cb1 cb2 : Z) (ra rb : int_regs_t) (t : irq_table) :
  0 <= a < 16 -> 0 <= b < 16 -> a <> b ->
  int_num ra = INT_IRQ0 + a -> int_num rb = INT_IRQ0 + b ->
  filter is_pic_event
    (Run.trace ((register_irq_handler a cb1 ;; register_irq_handler a cb2 ;;
                 handle_irq ra) t))
  = (if cb2 =? NULL then [] else [Callback cb2]) ++ [SendEoi a] /\
  filter is_pic_event
    (Run.trace ((register_irq_handler a cb1 ;; handle_irq rb) t))
  = filter is_pic_event (Run.trace (handle_irq rb t)) /\
  filter is_pic_event
    (Run.trace ((unregister_irq_handler a ;; handle_irq rb) t))
  = filter is_pic_event (Run.trace (handle_irq rb t)).
Proof.
  intros Ha Hb Hne Hra Hrb.
  pose proof (IrqRegistry.line_of_vector INT_IRQ0 a ra Ha Hra) as Ea.
  pose proof (IrqRegistry.line_of_vector INT_IRQ0 b rb Hb Hrb) as Eb.
  unfold Run.bind.
  rewrite !register_run, unregister_run by assumption.
  cbv beta iota. rewrite ?register_run by assumption. cbv beta iota.
  rewrite !handle_irq_run, Ea, Eb.
  rewrite IrqRegistry.set_callback_same.
  rewrite !set_callback_other by (intros E; apply Hne; now symmetry).
  unfold Run.trace. cbn [fst app].
  split; [ | split ].
  - destruct (cb2 =? NULL); reflexivity.
  - destruct (t b =? NULL); reflexivity.
  - destruct (t b =? NULL); reflexivity.
Qed.

Lemma bind_halts (m : M unit) (k : unit -> M unit) (t : irq_table) :
  Run.halts (m t) -> Run.bind m k t = m t.
Proof.
  unfold Run.halts, Run.bind. destruct (m t) as [tr [[u t'] | ]];
    [ discriminate | reflexivity ].
Qed.

(** A line outside [[0, 16)] fails the assertion first: when a
    failed [ASSERT] does not return, neither [register_irq_handler] nor
    [unregister_irq_handler] touches the table or the interrupt controller;
    their run is the run of the failed assertion. *)
Lemma line_out_of_range_stops_at_assert
  (line cb : Z) (t : irq_table) :
  ~ 0 <= line < 16 ->
  Run.halts (assert_failed t) ->
  register_irq_handler line cb t = assert_failed t /\
  unregister_irq_handler line t = assert_failed t.
Proof.
  intros Hl Hhalt.
  assert (E : ASSERT assert_failed ((line >=? 0) && (line <? 16))
              = assert_failed).
  { unfold ASSERT.
    destruct (Z.geb_spec line 0); [ | reflexivity ].
    destruct (Z.ltb_spec line 16); [ lia | reflexivity ]. }
  unfold IdtIrq.register_irq_handler, IdtIrq.unregister_irq_handler.
  rewrite E. split; now apply bind_halts.
Qed.

(** X24.  In this revision every exception vector stops the kernel,
    whatever the code segment of the snapshot; every other vector returns.
    The dispatcher never changes the handler table, and outside the IRQ
    range it runs no callback and sends no end-of-interrupt. *)
Theorem X24_dispatch_result (regs : int_regs_t) (t : irq_table) :
  snd (handle_interrupt regs t)
  = (if int_num regs <? NUM_EXC then None else Some (tt, t)) /\
  (int_num regs < NUM_EXC \/ ~ INT_IRQ0 <= int_num regs <= INT_IRQ15 ->
   filter is_pic_event (Run.trace (handle_interrupt regs t)) = []).
Proof.
  unfold IdtIrq.handle_interrupt.
  destruct (Z.ltb_spec (int_num regs) NUM_EXC) as [Hexc | Hexc].
  - unfold handle_exception, dump_registers.
    unfold Run.bind, Run.emit, Run.never. rewrite TrapDispatch.emit_all_run.
    unfold Run.trace. cbn [fst snd app]. split; [ reflexivity | ].
    intros _. rewrite app_nil_r. reflexivity.
  - destruct ((int_num regs >=? INT_IRQ0) && (int_num regs <=? INT_IRQ15))
      eqn:Eirq.
    + rewrite handle_irq_run. cbn [snd]. split; [ reflexivity | ].
      intros [Hlt | Hout]; [ lia | ]. exfalso. apply Hout.
      apply andb_prop in Eirq. destruct Eirq as [E1 E2].
      apply Z.leb_le in E2.
      destruct (Z.geb_spec (int_num regs) INT_IRQ0); [ lia | discriminate ].
    + destruct (int_num regs =? INT_SYSCALL);
        (split; [ reflexivity | intros _; reflexivity ]).
Qed.

End Registry.

Lemma X22_irq_dispatch_sends_one_eoi_witness :
  snd (IdtIrq.handle_interrupt 20 0x20 0x2F 0x80 (snapshot 0x21 0x10)
         (set_callback no_handlers 1 4096))
  = Some (tt, set_callback no_handlers 1 4096) /\
  filter is_pic_event
    (Run.trace (IdtIrq.handle_interrupt 20 0x20 0x2F 0x80 (snapshot 0x21 0x10)
                  (set_callback no_handlers 1 4096)))
  = (if set_callback no_handlers 1 4096 (int_num (snapshot 0x21 0x10) - 0x20)
        =? NULL
     then []
     else [Callback (set_callback no_handlers 1 4096
                       (int_num (snapshot 0x21 0x10) - 0x20))])
    ++ [SendEoi (int_num (snapshot 0x21 0x10) - 0x20)].
Proof.
  apply (X22_irq_dispatch_sends_one_eoi 20 0x20 0x2F 0x80 (snapshot 0x21 0x10)
           (set_callback no_handlers 1 4096)).
  - cbn [snapshot int_num]. lia.
  - cbn [snapshot int_num]. lia.
  - reflexivity.
Defined.

Lemma X23_one_handler_per_line_witness :
  filter is_pic_event
    (Run.trace ((IdtIrq.register_irq_handler assert_hangs 1 4096 ;;
                 IdtIrq.register_irq_handler assert_hangs 1 8192 ;;
                 IdtIrq.handle_irq 0x20 (snapshot 0x21 0x10)) no_handlers))
  = (if 8192 =? NULL then [] else [Callback 8192]) ++ [SendEoi 1] /\
  filter is_pic_event
    (Run.trace ((IdtIrq.register_irq_handler assert_hangs 1 4096 ;;
                 IdtIrq.handle_irq 0x20 (snapshot 0x28 0x10)) no_handlers))
  = filter is_pic_event
      (Run.trace (IdtIrq.handle_irq 0x20 (snapshot 0x28 0x10) no_handlers)) /\
  filter is_pic_event
    (Run.trace ((IdtIrq.unregister_irq_handler assert_hangs 1 ;;
                 IdtIrq.handle_irq 0x20 (snapshot 0x28 0x10)) no_handlers))
  = filter is_pic_event
      (Run.trace (IdtIrq.handle_irq 0x20 (snapshot 0x28 0x10) no_handlers)).
Proof.
  apply (X23_one_handler_per_line 0x20 assert_hangs 1 8 4096 8192
           (snapshot 0x21 0x10) (snapshot 0x28 0x10) no_handlers).
  - lia.
  - lia.
  - lia.
  - reflexivity.
  - reflexivity.
Defined.

End RegistryFacts.



Module IdtInitFacts.

Import IdtInit IdtInitSpec.

Lemma set_entry_same (idt : idt_table) (i : Z) (d : idt_desc_t) :
  set_entry idt i d i = d.
Proof. unfold set_entry. now rewrite Z.eqb_refl. Qed.

Lemma set_entry_other (idt : idt_table) (i j : Z) (d : idt_desc_t) :
  j <> i -> set_entry idt i d j = idt j.
Proof. intros Hne. unfold set_entry. apply Z.eqb_neq in Hne. now rewrite Hne. Qed.

Section Init.

Variable h : idt_h.
Variable SET_IDT_ENTRY : idt_desc_t -> Z -> idt_desc_t.
Variable address_of : string -> Z.

Local Abbreviation WRITE_IDT_ENTRY :=
  (IdtInit.WRITE_IDT_ENTRY SET_IDT_ENTRY address_of).
Local Abbreviation idt_init := (IdtInit.idt_init h SET_IDT_ENTRY address_of).

(** A property of the entries of a range that every assignment to a part
    of an entry keeps. *)
Lemma update_entry_keeps (A : Z -> Prop) (R : Z -> idt_desc_t -> Prop)
      (idt : idt_table) (j : Z) (f : idt_desc_t -> idt_desc_t) :
  (forall d, R j d -> R j (f d)) ->
  (forall i, A i -> R i (idt i)) ->
  forall i, A i -> R i (update_entry idt j f i).
Proof.
  intros Hf Hidt i Hi. unfold update_entry.
  destruct (Z.eq_dec i j) as [-> | Hne].
  - rewrite set_entry_same. apply Hf, Hidt, Hi.
  - rewrite set_entry_other by assumption. apply Hidt, Hi.
Qed.

(** The first loop: every entry of [[lo, lo + n)] becomes [desc]. *)
Lemma fill_loop (R : Z -> idt_desc_t -> Prop) (desc : idt_desc_t) (n : nat) :
  forall (lo : Z) (idt : idt_table),
    (forall i, R i desc) ->
    (forall i, 0 <= i < lo -> R i (idt i)) ->
    0 <= lo ->
    forall i, 0 <= i < lo + Z.of_nat n ->
      R i (for_loop n lo (fun i idt => set_entry idt i desc) idt i).
Proof.
  induction n as [ | n IH ]; intros lo idt Hd Hidt Hlo i Hi.
  - cbn [for_loop]. apply Hidt. lia.
  - cbn [for_loop]. apply IH; [ exact Hd | | lia | lia ].
    intros k Hk. destruct (Z.eq_dec k lo) as [-> | Hne].
    + rewrite set_entry_same. apply Hd.
    + rewrite set_entry_other by assumption. apply Hidt. lia.
Qed.

(** The second loop: every entry of [[lo, lo + n)] becomes [desc] with the
    handler for unknown vectors. *)
Lemma unknown_loop (R : Z -> idt_desc_t -> Prop) (desc : idt_desc_t) (n : nat) :
  forall (lo : Z) (idt : idt_table),
    (forall i, R i (SET_IDT_ENTRY desc (address_of "idt_handle_int_unknown"))) ->
    (forall i, 0 <= i < lo -> R i (idt i)) ->
    0 <= lo ->
    forall i, 0 <= i < lo + Z.of_nat n ->
      R i (for_loop n lo
             (fun i idt =>
                WRITE_IDT_ENTRY i "idt_handle_int_unknown"
                  (set_entry idt i desc)) idt i).
Proof.
  induction n as [ | n IH ]; intros lo idt Hd Hidt Hlo i Hi.
  - cbn [for_loop]. apply Hidt. lia.
  - cbn [for_loop]. apply IH; [ exact Hd | | lia | lia ].
    intros k Hk. unfold IdtInit.WRITE_IDT_ENTRY, update_entry.
    destruct (Z.eq_dec k lo) as [-> | Hne].
    + rewrite !set_entry_same. apply Hd.
    + rewrite !set_entry_other by assumption. apply Hidt. lia.
Qed.

Lemma both_loops_cover (i : Z) :
  0 <= i < NUM_VEC h ->
  0 <= i < Z.max 0 (NUM_EXC h)
           + Z.of_nat (Z.to_nat (NUM_VEC h - Z.max 0 (NUM_EXC h))).
Proof. lia. Qed.

(** X25.  After [idt_init] every vector of [[0, NUM_VEC)] is a present
    32-bit interrupt gate into the kernel code segment; the gate of
    INT_SYSCALL is the only one that user code (ring 3) may call, all the
    others have privilege level 0.  [SET_IDT_ENTRY] is taken to store the
    handler address and nothing else. *)
Theorem X25_every_vector_is_a_kernel_interrupt_gate
  (idt : idt_table) (i : Z) :
  (forall str handler, same_gate (SET_IDT_ENTRY str handler) str) ->
  0 <= i < NUM_VEC h ->
  interrupt_gate (KERNEL_CS h) (if i =? INT_SYSCALL h then 3 else 0)
                 (idt_init idt i).
Proof.
  intros Hset Hi.
  pose (R0 := fun (_ : Z) d => interrupt_gate (KERNEL_CS h) 0 d).
  pose (R1 := fun i d =>
                interrupt_gate (KERNEL_CS h)
                               (if i =? INT_SYSCALL h then 3 else 0) d).
  assert (Hkeep : forall ring str handler,
            interrupt_gate (KERNEL_CS h) ring str ->
            interrupt_gate (KERNEL_CS h) ring (SET_IDT_ENTRY str handler)).
  { intros ring str handler Hg.
    destruct (Hset str handler) as (E1 & E2 & E3 & E4 & E5 & E6 & E7 & E8 & E9).
    unfold interrupt_gate in *.
    rewrite E1, E2, E3, E4, E5, E6, E7, E8, E9. exact Hg. }
  assert (Hdesc : interrupt_gate (KERNEL_CS h) 0
                    (mk_desc 1 0 0 1 1 1 0 0 (KERNEL_CS h) 0 0))
    by (unfold interrupt_gate; cbn; tauto).
  change (R1 i (idt_init idt i)).
  revert i Hi. unfold IdtInit.idt_init. cbv zeta.
  apply (update_entry_keeps (fun i => 0 <= i < NUM_VEC h) R1);
    [ intros d; apply Hkeep | ].
  (* the privilege level of the syscall gate *)
  assert (Hpatch : forall t : idt_table,
            (forall i, 0 <= i < NUM_VEC h -> R0 i (t i)) ->
            forall i, 0 <= i < NUM_VEC h ->
              R1 i (update_entry t (INT_SYSCALL h) (fun str => set_dpl str 3) i)).
  { intros t Ht i Hi. unfold update_entry, R1.
    destruct (Z.eqb_spec i (INT_SYSCALL h)) as [-> | Hne].
    - rewrite set_entry_same. specialize (Ht _ Hi).
      unfold R0, interrupt_gate in *. cbn. tauto.
    - rewrite set_entry_other by assumption. apply Ht, Hi. }
  apply Hpatch.
  do 16 (apply (update_entry_keeps (fun i => 0 <= i < NUM_VEC h) R0);
         [ intros d; apply Hkeep | ]).
  intros i Hi.
  apply (unknown_loop R0);
    [ intros k; apply Hkeep, Hdesc | | lia | now apply both_loops_cover ].
  do 20 (apply (update_entry_keeps (fun i => 0 <= i < Z.max 0 (NUM_EXC h)) R0);
         [ intros d; apply Hkeep | ]).
  intros k Hk.
  apply (fill_loop R0); [ intros j; exact Hdesc | intros j Hj; lia | lia | lia ].
Qed.

(** Two tables that agree on a range still agree on it after the same
    assignment to both. *)
Lemma update_entry_agree (A : Z -> Prop) (t t' : idt_table) (j : Z)
      (f : idt_desc_t -> idt_desc_t) :
  (forall i, A i -> t i = t' i) ->
  forall i, A i -> update_entry t j f i = update_entry t' j f i.
Proof.
  intros Ht i Hi. unfold update_entry.
  destruct (Z.eq_dec i j) as [-> | Hne].
  - rewrite !set_entry_same. now rewrite (Ht j Hi).
  - rewrite !set_entry_other by assumption. apply Ht, Hi.
Qed.

Lemma fill_loop_agree (desc : idt_desc_t) (n : nat) :
  forall (lo : Z) (t t' : idt_table),
    (forall i, 0 <= i < lo -> t i = t' i) ->
    0 <= lo ->
    forall i, 0 <= i < lo + Z.of_nat n ->
      for_loop n lo (fun i idt => set_entry idt i desc) t i
      = for_loop n lo (fun i idt => set_entry idt i desc) t' i.
Proof.
  induction n as [ | n IH ]; intros lo t t' Ht Hlo i Hi.
  - cbn [for_loop]. apply Ht. lia.
  - cbn [for_loop]. apply IH; [ | lia | lia ].
    intros k Hk. destruct (Z.eq_dec k lo) as [-> | Hne].
    + now rewrite !set_entry_same.
    + rewrite !set_entry_other by assumption. apply Ht. lia.
Qed.

Lemma unknown_loop_agree (desc : idt_desc_t) (n : nat) :
  forall (lo : Z) (t t' : idt_table),
    (forall i, 0 <= i < lo -> t i = t' i) ->
    0 <= lo ->
    forall i, 0 <= i < lo + Z.of_nat n ->
      for_loop n lo
        (fun i idt =>
           WRITE_IDT_ENTRY i "idt_handle_int_unknown" (set_entry idt i desc))
        t i
      = for_loop n lo
          (fun i idt =>
             WRITE_IDT_ENTRY i "idt_handle_int_unknown" (set_entry idt i desc))
          t' i.
Proof.
  induction n as [ | n IH ]; intros lo t t' Ht Hlo i Hi.
  - cbn [for_loop]. apply Ht. lia.
  - cbn [for_loop]. apply IH; [ | lia | lia ].
    intros k Hk. unfold IdtInit.WRITE_IDT_ENTRY, update_entry.
    destruct (Z.eq_dec k lo) as [-> | Hne].
    + now rewrite !set_entry_same.
    + rewrite !set_entry_other by assumption. apply Ht. lia.
Qed.

(** X26.  [idt_init] initialises the table completely: the descriptor it
    leaves in a vector of [[0, NUM_VEC)] does not depend on what the table
    held before, so no stale gate survives it. *)
Theorem X26_no_stale_gate_survives (idt idt' : idt_table) (i : Z) :
  0 <= i < NUM_VEC h ->
  idt_init idt i = idt_init idt' i.
Proof.
  revert i. unfold IdtInit.idt_init. cbv zeta.
  do 18 (apply (update_entry_agree (fun i => 0 <= i < NUM_VEC h))).
  intros i Hi.
  apply unknown_loop_agree; [ | lia | now apply both_loops_cover ].
  do 20 (apply (update_entry_agree (fun i => 0 <= i < Z.max 0 (NUM_EXC h)))).
  intros k Hk. apply fill_loop_agree; [ intros j Hj; lia | lia | lia ].
Qed.

End Init.

Lemma X25_every_vector_is_a_kernel_interrupt_gate_witness :
  interrupt_gate (KERNEL_CS pc_vectors)
                 (if 0x80 =? INT_SYSCALL pc_vectors then 3 else 0)
                 (IdtInit.idt_init pc_vectors store_offsets entry_points
                    stale_table 0x80).
Proof.
  apply (X25_every_vector_is_a_kernel_interrupt_gate pc_vectors store_offsets
           entry_points stale_table 0x80).
  - intros str handler. unfold same_gate, store_offsets. cbn. tauto.
  - cbn. lia.
Defined.

Lemma X26_no_stale_gate_survives_witness :
  IdtInit.idt_init pc_vectors store_offsets entry_points empty_table 0x21
  = IdtInit.idt_init pc_vectors store_offsets entry_points stale_table 0x21.
Proof.
  apply (X26_no_stale_gate_survives pc_vectors store_offsets entry_points
           empty_table stale_table 0x21).
  cbn. lia.
Defined.

End IdtInitFacts.

Module FileFacts.

Import File.

Lemma set_file_same (files : files_t) (i : Z) (file : file_obj_t) :
  set_file files i file i = file.
Proof. unfold set_file. now rewrite Z.eqb_refl. Qed.

Lemma set_file_other (files : files_t) (i j : Z) (file : file_obj_t) :
  j <> i -> set_file files i file j = files j.
Proof. intros Hne. unfold set_file. apply Z.eqb_neq in Hne. now rewrite Hne. Qed.

Section Descriptors.

Variables MAX_FILES FD_STDIN FD_STDOUT : Z.
Variables FTYPE_RTC FTYPE_DIR FTYPE_FILE FTYPE_MOUSE : Z.
Variable world : Type.
Variable debugf : string -> list Z -> world -> world.
Variable is_user_readable_string : Z -> world -> bool.
Variable read_dentry_by_name : Z -> world -> Z * dentry_t * world.
Variable op_open :
  file_ops_t -> Z -> file_obj_t -> world -> Z * file_obj_t * world.
Variable op_read :
  file_ops_t -> file_obj_t -> Z -> Z -> world -> Z * file_obj_t * world.
Variable op_write :
  file_ops_t -> file_obj_t -> Z -> Z -> world -> Z * file_obj_t * world.
Variable op_close :
  file_ops_t -> file_obj_t -> world -> Z * file_obj_t * world.

Local Abbreviation get_executing_file_obj :=
  (File.get_executing_file_obj MAX_FILES).
Local Abbreviation file_init := (File.file_init MAX_FILES FD_STDIN FD_STDOUT).
Local Abbreviation init_file_obj :=
  (File.init_file_obj FTYPE_RTC FTYPE_DIR FTYPE_FILE FTYPE_MOUSE world debugf).
Local Abbreviation file_open_from :=
  (File.file_open_from FTYPE_RTC FTYPE_DIR FTYPE_FILE FTYPE_MOUSE world debugf
     read_dentry_by_name op_open).
Local Abbreviation file_open :=
  (File.file_open MAX_FILES FTYPE_RTC FTYPE_DIR FTYPE_FILE FTYPE_MOUSE world
     debugf is_user_readable_string read_dentry_by_name op_open).
Local Abbreviation file_read := (File.file_read MAX_FILES world op_read).
Local Abbreviation file_write := (File.file_write MAX_FILES world op_write).
Local Abbreviation file_close := (File.file_close MAX_FILES world op_close).

Lemma no_file_obj (fd : Z) (files : files_t) :
  fd < 0 \/ MAX_FILES <= fd \/ valid (files fd) = false ->
  get_executing_file_obj fd files = None.
Proof.
  intros Hbad. unfold File.get_executing_file_obj.
  destruct (Z.ltb_spec fd 0); [ reflexivity | ].
  destruct (Z.geb_spec fd MAX_FILES); [ reflexivity | ]. cbn [orb].
  destruct Hbad as [Hlt | [Hge | Hv]]; [ lia | lia | ].
  now rewrite Hv.
Qed.

Lemma open_file_obj (fd : Z) (files : files_t) :
  0 <= fd < MAX_FILES -> valid (files fd) = true ->
  get_executing_file_obj fd files = Some fd.
Proof.
  intros Hfd Hv. unfold File.get_executing_file_obj.
  destruct (Z.ltb_spec fd 0); [ lia | ].
  destruct (Z.geb_spec fd MAX_FILES); [ lia | ]. cbn [orb].
  now rewrite Hv.
Qed.

(** X27.  A descriptor that is out of bounds or not open makes [read],
    [write] and [close] return -1 at once: no operation of any table is
    called, and neither the file objects nor anything else changes. *)
Theorem X27_bad_descriptor_is_refused
  (fd buf nbytes : Z) (files : files_t) (w : world) :
  fd < 0 \/ MAX_FILES <= fd \/ valid (files fd) = false ->
  file_read fd buf nbytes (files, w) = (-1, (files, w)) /\
  file_write fd buf nbytes (files, w) = (-1, (files, w)) /\
  file_close fd (files, w) = (-1, (files, w)).
Proof.
  intros Hbad. unfold File.file_read, File.file_write, File.file_close.
  rewrite (no_file_obj fd files Hbad). repeat split.
Qed.

(** The loop of [file_init]: the entries of [[lo, lo + n)] are closed, the
    others are left alone. *)
Lemma close_loop (n : nat) :
  forall (lo : Z) (files : files_t),
    (forall i, lo <= i < lo + Z.of_nat n ->
       valid (for_loop n lo
                (fun i files => set_file files i (set_valid (files i) false))
                files i) = false) /\
    (forall i, i < lo \/ lo + Z.of_nat n <= i ->
       for_loop n lo
         (fun i files => set_file files i (set_valid (files i) false))
         files i = files i).
Proof.
  induction n as [ | n IH ]; intros lo files.
  - cbn [for_loop]. split; [ intros i Hi; lia | reflexivity ].
  - cbn [for_loop]. rewrite Nat2Z.inj_succ.
    destruct (IH (lo + 1) (set_file files lo (set_valid (files lo) false)))
      as [Hin Hout].
    split.
    + intros i Hi. destruct (Z.eq_dec i lo) as [-> | Hne].
      * rewrite Hout by lia. now rewrite set_file_same.
      * apply Hin. lia.
    + intros i Hi. rewrite Hout by lia. apply set_file_other. lia.
Qed.

(** X28.  After [file_init] exactly the standard input and the standard
    output are open, each with its own operation table, whatever the array
    held before; the memory around the array is untouched.  The two
    descriptors are taken to be 0 and 1, in either order. *)
Theorem X28_fresh_table_has_stdin_and_stdout (files : files_t) :
  0 <= FD_STDIN < 2 -> 0 <= FD_STDOUT < 2 -> FD_STDIN <> FD_STDOUT ->
  2 <= MAX_FILES ->
  (forall fd, get_executing_file_obj fd (file_init files) <> None
              <-> fd = FD_STDIN \/ fd = FD_STDOUT) /\
  ops_table (file_init files FD_STDIN) = fops_stdin /\
  ops_table (file_init files FD_STDOUT) = fops_stdout /\
  (forall i, i < 0 \/ MAX_FILES <= i -> file_init files i = files i).
Proof.
  intros Hin Hout Hne Hmax. unfold File.file_init. cbv zeta.
  match goal with
  | |- context [for_loop ?n 2 ?body ?t] =>
      destruct (close_loop n 2 t) as [Hclosed Hframe]; set (t0 := t) in *
  end.
  rewrite Z2Nat.id in Hclosed, Hframe by lia.
  assert (Hstdin : t0 FD_STDIN
                   = mk_file true fops_stdin (inode_idx (files FD_STDIN))
                             (offset (files FD_STDIN))).
  { unfold t0. rewrite set_file_other by assumption.
    rewrite set_file_other by assumption.
    rewrite !set_file_same. reflexivity. }
  assert (Hstdout : t0 FD_STDOUT
                    = mk_file true fops_stdout (inode_idx (files FD_STDOUT))
                              (offset (files FD_STDOUT))).
  { unfold t0. rewrite !set_file_same.
    rewrite !set_file_other by (intros E; apply Hne; now symmetry).
    reflexivity. }
  split; [ | split; [ | split ] ].
  - intros fd. unfold File.get_executing_file_obj.
    destruct (Z.ltb_spec fd 0); cbn [orb].
    { split; [ intros Hsome; now elim Hsome | lia ]. }
    destruct (Z.geb_spec fd MAX_FILES); cbn [orb].
    { split; [ intros Hsome; now elim Hsome | lia ]. }
    destruct (Z_lt_ge_dec fd 2) as [Hlow | Hhigh].
    + rewrite Hframe by lia.
      assert (Hfd : fd = FD_STDIN \/ fd = FD_STDOUT) by lia.
      split; [ intros _; exact Hfd | ].
      intros _. destruct Hfd as [-> | ->].
      * rewrite Hstdin. cbn. discriminate.
      * rewrite Hstdout. cbn. discriminate.
    + rewrite Hclosed by lia. cbn [negb].
      split; [ intros Hsome; now elim Hsome | lia ].
  - rewrite Hframe by lia. now rewrite Hstdin.
  - rewrite Hframe by lia. now rewrite Hstdout.
  - intros i Hi. rewrite Hframe by lia. unfold t0.
    rewrite !set_file_other by lia. reflexivity.
Qed.

(** What [init_file_obj] does to the flag [valid]. *)
Lemma init_file_obj_valid (file : file_obj_t) (dentry : dentry_t) (w : world) :
  valid (snd (fst (init_file_obj file dentry w)))
  = (if fst (fst (init_file_obj file dentry w)) then true else valid file).
Proof.
  unfold File.init_file_obj.
  repeat match goal with
         | |- context [if ?a =? ?b then _ else _] => destruct (a =? b)
         end; reflexivity.
Qed.

(** The loop of [file_open]. *)
Lemma file_open_from_spec (filename : Z) (n : nat) :
  forall (i : Z) (files : files_t) (w : world),
    0 <= i ->
    (fst (file_open_from n i filename (files, w)) = -1
     \/ (i <= fst (file_open_from n i filename (files, w)) < i + Z.of_nat n
         /\ valid (files (fst (file_open_from n i filename (files, w)))) = false
         /\ forall j, i <= j < fst (file_open_from n i filename (files, w)) ->
                      valid (files j) = true)) /\
    (forall j, valid (files j) = true ->
       fst (snd (file_open_from n i filename (files, w))) j = files j) /\
    (fst (file_open_from n i filename (files, w)) = -1 ->
     forall j, valid (fst (snd (file_open_from n i filename (files, w))) j)
               = valid (files j)) /\
    ((forall j, i <= j < i + Z.of_nat n -> valid (files j) = true) ->
     file_open_from n i filename (files, w) = (-1, (files, w))).
Proof.
  induction n as [ | n IH ]; intros i files w Hi.
  - cbn [File.file_open_from fst snd]. repeat split. now left.
  - cbn [File.file_open_from]. rewrite Nat2Z.inj_succ.
    destruct (valid (files i)) eqn:Hv; cbn [negb].
    + (* the slot is taken: on to the next *)
      destruct (IH (i + 1) files w ltac:(lia)) as (Hfd & Hkeep & Hfail & Hfull).
      split; [ | split; [ exact Hkeep | split; [ exact Hfail | ] ] ].
      * destruct Hfd as [Hfd | (Hr & Hfree & Hbelow)]; [ now left | right ].
        split; [ lia | ]. split; [ exact Hfree | ].
        intros j Hj. destruct (Z.eq_dec j i) as [-> | Hne];
          [ exact Hv | apply Hbelow; lia ].
      * intros Hall. apply Hfull. intros j Hj. apply Hall. lia.
    + (* the first free slot *)
      assert (Hnotfull :
                (forall j, i <= j < i + Z.succ (Z.of_nat n) ->
                           valid (files j) = true) -> False).
      { intros Hall. specialize (Hall i ltac:(lia)). congruence. }
      destruct (read_dentry_by_name filename w) as [[rc dentry] w1].
      destruct (rc =? 0); cbn [negb fst snd].
      2: { split; [ now left | ]. split; [ reflexivity | ].
           split; [ reflexivity | ]. intros Hall. now elim Hnotfull. }
      pose proof (init_file_obj_valid (files i) dentry w1) as Hinit.
      destruct (init_file_obj (files i) dentry w1) as [[ok file] w2].
      cbn [fst snd] in Hinit. rewrite set_file_same.
      destruct ok; cbn [negb fst snd].
      2: { split; [ now left | ]. split; [ | split ].
           - intros j Hj. apply set_file_other. congruence.
           - intros _ j. destruct (Z.eq_dec j i) as [-> | Hne].
             + rewrite set_file_same. congruence.
             + now rewrite set_file_other.
           - intros Hall. now elim Hnotfull. }
      destruct (op_open (ops_table file) filename file w2) as [[rc2 file2] w3].
      rewrite set_file_same.
      destruct (rc2 =? 0); cbn [negb fst snd].
      * split; [ right; split; [ lia | split; [ exact Hv | intros j Hj; lia ] ] | ].
        split; [ | split ].
        -- intros j Hj. rewrite !set_file_other by congruence. reflexivity.
        -- intros E. lia.
        -- intros Hall. now elim Hnotfull.
      * split; [ now left | ]. split; [ | split ].
        -- intros j Hj. rewrite !set_file_other by congruence. reflexivity.
        -- intros _ j. destruct (Z.eq_dec j i) as [-> | Hne].
           ++ rewrite set_file_same. cbn [set_valid valid]. congruence.
           ++ now rewrite !set_file_other.
        -- intros Hall. now elim Hnotfull.
Qed.

(** X29.  [open] hands out the lowest free descriptor above the standard
    ones or fails: the value it returns is -1 or a descriptor of
    [[2, MAX_FILES)] whose slot was free while all the slots between 2 and
    it were taken.  It never disturbs a file object that is open; when it
    fails, the same descriptors are open afterwards as before; and when
    every slot is taken it returns -1 and changes nothing at all. *)
Theorem X29_open_takes_the_lowest_free_descriptor
  (filename : Z) (files : files_t) (w : world) :
  (fst (file_open filename (files, w)) = -1
   \/ (2 <= fst (file_open filename (files, w)) < MAX_FILES
       /\ valid (files (fst (file_open filename (files, w)))) = false
       /\ forall j, 2 <= j < fst (file_open filename (files, w)) ->
                    valid (files j) = true)) /\
  (forall j, valid (files j) = true ->
     fst (snd (file_open filename (files, w))) j = files j) /\
  (fst (file_open filename (files, w)) = -1 ->
   forall j, valid (fst (snd (file_open filename (files, w))) j)
             = valid (files j)) /\
  ((forall j, 2 <= j < MAX_FILES -> valid (files j) = true) ->
   file_open filename (files, w) = (-1, (files, w))).
Proof.
  unfold File.file_open.
  destruct (is_user_readable_string filename w); cbn [negb fst snd].
  2: { repeat split. now left. }
  destruct (file_open_from_spec filename (Z.to_nat (MAX_FILES - 2)) 2 files w
              ltac:(lia)) as (Hfd & Hkeep & Hfail & Hfull).
  split; [ | split; [ exact Hkeep | split; [ exact Hfail | ] ] ].
  - destruct Hfd as [Hfd | (Hr & Hfree & Hbelow)]; [ now left | right ].
    split; [ lia | ]. split; [ exact Hfree | exact Hbelow ].
  - intros Hall. apply Hfull. intros j Hj. apply Hall. lia.
Qed.

(** X30.  A descriptor is closed for good: when [close] succeeds on an open
    descriptor, the descriptor is no longer open, the other file objects
    are as they were, and a later [read], [write] or [close] of it returns
    -1 and changes nothing. *)
Theorem X30_closed_descriptor_is_refused
  (fd buf nbytes : Z) (files : files_t) (w : world) :
  0 <= fd < MAX_FILES -> valid (files fd) = true ->
  fst (file_close fd (files, w)) = 0 ->
  let st := snd (file_close fd (files, w)) in
  valid (fst st fd) = false /\
  (forall j, j <> fd -> fst st j = files j) /\
  file_read fd buf nbytes st = (-1, st) /\
  file_write fd buf nbytes st = (-1, st) /\
  file_close fd st = (-1, st).
Proof.
  intros Hfd Hv. unfold File.file_close at 1 2.
  rewrite (open_file_obj fd files Hfd Hv).
  destruct (op_close (ops_table (files fd)) (files fd) w) as [[rc obj] w1].
  destruct (rc =? 0); cbn [negb fst snd]; [ | discriminate ].
  intros _. cbv zeta.
  match goal with
  | |- valid (?f fd) = false /\ _ => set (files' := f)
  end.
  assert (Hclosed : valid (files' fd) = false)
    by (unfold files'; now rewrite set_file_same).
  split; [ exact Hclosed | ]. split.
  - intros j Hj. unfold files'. now rewrite !set_file_other.
  - unfold File.file_read, File.file_write, File.file_close.
    rewrite no_file_obj by (right; right; exact Hclosed). repeat split.
Qed.

End Descriptors.

Import FileSpec.

Lemma X27_bad_descriptor_is_refused_witness :
  File.file_read 8 unit transfer_all 8 4096 16 (rtc_open_as_3, tt)
  = (-1, (rtc_open_as_3, tt)) /\
  File.file_write 8 unit transfer_all 8 4096 16 (rtc_open_as_3, tt)
  = (-1, (rtc_open_as_3, tt)) /\
  File.file_close 8 unit close_ok 8 (rtc_open_as_3, tt)
  = (-1, (rtc_open_as_3, tt)).
Proof.
  apply (X27_bad_descriptor_is_refused 8 unit transfer_all transfer_all
           close_ok 8 4096 16 rtc_open_as_3 tt).
  right. left. lia.
Defined.

Lemma X28_fresh_table_has_stdin_and_stdout_witness :
  (forall fd, File.get_executing_file_obj 8 fd (File.file_init 8 0 1 garbage)
              <> None
              <-> fd = 0 \/ fd = 1) /\
  ops_table (File.file_init 8 0 1 garbage 0) = fops_stdin /\
  ops_table (File.file_init 8 0 1 garbage 1) = fops_stdout /\
  (forall i, i < 0 \/ 8 <= i -> File.file_init 8 0 1 garbage i = garbage i).
Proof.
  apply (X28_fresh_table_has_stdin_and_stdout 8 0 1 garbage); lia.
Defined.

Lemma X30_closed_descriptor_is_refused_witness :
  let st := snd (File.file_close 8 unit close_ok 3 (rtc_open_as_3, tt)) in
  valid (fst st 3) = false /\
  (forall j, j <> 3 -> fst st j = rtc_open_as_3 j) /\
  File.file_read 8 unit transfer_all 3 4096 16 st = (-1, st) /\
  File.file_write 8 unit transfer_all 3 4096 16 st = (-1, st) /\
  File.file_close 8 unit close_ok 3 st = (-1, st).
Proof.
  apply (X30_closed_descriptor_is_refused 8 unit transfer_all transfer_all
           close_ok 3 4096 16 rtc_open_as_3 tt).
  - lia.
  - reflexivity.
  - reflexivity.
Defined.

End FileFacts.
